(** * Jerry: the retrieval-and-caching core, embedded in Rocq

    The development follows the Python sources module by module:

    - [Py]            the fragment of the Python runtime the code relies on
                      (exceptions, [str] methods, slices, floats, [list.sort]);
    - [models]        [src/data/models.py]  ([KnowledgeChunk], [CacheEntry]);
    - [pdf_processor] [data_ingestion/pdf_processor.py] (the chunker);
    - [embeddings]    [src/rag/embeddings.py];
    - [vector_store]  [src/rag/vector_store.py];
    - [retriever]     [src/rag/retriever.py];
    - [cache]         [src/utils/cache.py] ([SemanticCache]);
    - [PyMore], [memory_cache], [cache_maintenance], [break_points],
      [retriever_context], [mock_embeddings]
                      more of the runtime and of the same files:
                      [InMemoryCache], [SemanticCache.optimize],
                      [get_context_for_query], [MockEmbeddingsService].

    Python [float] is IEEE binary64 and is modelled by Rocq's primitive
    floats, [int] by [Z], [str] by [string] read as a sequence of code points
    below 256, [dict] by [gmap], and a raised exception by the [Raise]
    constructor of the result type [res]. *)

From Stdlib Require Import ZArith Lia List String Ascii Bool Floats Sorted Permutation.
From stdpp Require Import base option list strings gmap.

#[local] Open Scope string_scope.
#[local] Open Scope Z_scope.

(** A decimal float literal denotes the nearest binary64 value, as it does
    in Python. *)
#[local] Set Warnings "-inexact-float".

(* ===================================================================== *)
(** * The Python runtime *)
(* ===================================================================== *)

Module Py.

(** Exception classes below [Exception]; these are what [except Exception]
    catches. *)
Inductive exn : Type :=
  | TypeError | ValueError | KeyError | IndexError | AttributeError
  | ZeroDivisionError | OverflowError
  | RuntimeError (msg : string).

(** The outcome of evaluating an expression or running a call. *)
Inductive res (A : Type) : Type :=
  | Ret (a : A)
  | Raise (e : exn).
Arguments Ret {A} a.
Arguments Raise {A} e.

#[export] Instance res_ret : MRet res := fun A a => Ret a.
#[export] Instance res_bind : MBind res := fun A B f m =>
  match m with Ret a => f a | Raise e => Raise e end.

(** [try: body  except Exception as e: handler e] *)
Definition try_except {A} (body : res A) (handler : exn -> res A) : res A :=
  match body with Ret a => Ret a | Raise e => handler e end.

Definition raises {A} (r : res A) : Prop := exists e, r = Raise e.

(** ** [str] *)

(** [c.isspace()] for a one-character string. *)
Definition isspace (c : ascii) : bool :=
  let n := nat_of_ascii c in
  ((9 <=? n)%nat && (n <=? 13)%nat) || ((28 <=? n)%nat && (n <=? 32)%nat)
  || (n =? 133)%nat || (n =? 160)%nat.

Fixpoint lstrip_chars (l : list ascii) : list ascii :=
  match l with
  | c :: l' => if isspace c then lstrip_chars l' else l
  | [] => []
  end.

Definition rstrip_chars (l : list ascii) : list ascii :=
  rev (lstrip_chars (rev l)).

Definition strip_chars (l : list ascii) : list ascii :=
  rstrip_chars (lstrip_chars l).

(** [s.strip()] *)
Definition strip (s : string) : string :=
  string_of_list_ascii (strip_chars (list_ascii_of_string s)).

(** [len(s)] *)
Definition len (s : string) : Z := Z.of_nat (String.length s).

(** Truthiness of a string: [not s] is [negb (truthy s)]. *)
Definition truthy (s : string) : bool := negb (String.eqb s "").

(** A slice bound brought into [0, n], as CPython's [PySlice_AdjustIndices]
    does for step 1. *)
Definition adjust (n i : Z) : Z :=
  if i <? 0 then Z.max 0 (i + n) else Z.min i n.

(** [s[a:b]] *)
Definition slice (s : string) (a b : Z) : string :=
  let a' := adjust (len s) a in
  let b' := adjust (len s) b in
  substring (Z.to_nat a') (Z.to_nat (b' - a')) s.

(** [s[i]]: a negative index counts from the end, anything outside
    [-len(s), len(s))] raises [IndexError]. *)
Definition getitem (s : string) (i : Z) : res ascii :=
  let j := if i <? 0 then i + len s else i in
  if (0 <=? j) && (j <? len s) then
    match String.get (Z.to_nat j) s with
    | Some c => Ret c
    | None => Raise IndexError
    end
  else Raise IndexError.

(** [c in chars] for a one-character [c]. *)
Definition char_in (c : ascii) (chars : string) : bool :=
  existsb (Ascii.eqb c) (list_ascii_of_string chars).

(** [c.lower()] on the code points below 256. *)
Definition lower_char (c : ascii) : ascii :=
  let n := nat_of_ascii c in
  if ((65 <=? n)%nat && (n <=? 90)%nat)
     || ((192 <=? n)%nat && (n <=? 222)%nat && negb (n =? 215)%nat)
  then ascii_of_nat (n + 32) else c.

(** [s.lower()] *)
Definition lower (s : string) : string :=
  string_of_list_ascii (map lower_char (list_ascii_of_string s)).

(** [s.split()]: the maximal runs of non-whitespace characters. *)
Fixpoint split_chars (cur : list ascii) (l : list ascii) : list string :=
  match l with
  | [] => match cur with [] => [] | _ => [string_of_list_ascii (rev cur)] end
  | c :: l' =>
      if isspace c then
        match cur with
        | [] => split_chars [] l'
        | _ => string_of_list_ascii (rev cur) :: split_chars [] l'
        end
      else split_chars (c :: cur) l'
  end.

Definition split (s : string) : list string :=
  split_chars [] (list_ascii_of_string s).

(** ** [range] and loops *)

(** [range(hi, lo, -1)]: hi, hi-1, ..., lo+1. *)
Definition range_down (hi lo : Z) : list Z :=
  map (fun k => hi - Z.of_nat k) (seq 0 (Z.to_nat (hi - lo))).

(** [for i in l: body], where the body may [return] a value (here [Some]),
    fall through to the next iteration ([None]), or raise. *)
Fixpoint for_return {A} (body : Z -> res (option A)) (l : list Z) : res (option A) :=
  match l with
  | [] => Ret None
  | i :: l' =>
      match body i with
      | Raise e => Raise e
      | Ret (Some a) => Ret (Some a)
      | Ret None => for_return body l'
      end
  end.

(** [a <= b] with [a : int] and [b : list]: neither [int.__le__] nor
    [list.__ge__] accepts the other operand, so Python 3 raises [TypeError]. *)
Definition le_int_list {A} (a : Z) (b : list A) : res bool := Raise TypeError.

(** ** [list] *)

(** [l[i]] for an index that is known to be non-negative (loop counters). *)
Definition list_getitem {A} (l : list A) (i : nat) : res A :=
  match l !! i with
  | Some x => Ret x
  | None => Raise IndexError
  end.

(** [l[:k]] *)
Definition slice_to {A} (l : list A) (k : Z) : list A :=
  take (Z.to_nat (adjust (Z.of_nat (length l)) k)) l.

(** [l[a:b]] for [0 <= a]. *)
Definition list_slice {A} (l : list A) (a b : Z) : list A :=
  let n := Z.of_nat (length l) in
  take (Z.to_nat (adjust n b - adjust n a)) (drop (Z.to_nat (adjust n a)) l).

(** [range(0, n, step)]: [ValueError] for a zero step, empty for a negative
    one when [0 <= n]. *)
Definition range_step (n step : Z) : res (list Z) :=
  if step =? 0 then Raise ValueError else
  let count :=
    if step <? 0 then (0 - n + (- step) - 1) / (- step)
    else (n + step - 1) / step in
  Ret (map (fun k => Z.of_nat k * step) (seq 0 (Z.to_nat count))).

(** [result[i] = x] for the pair [(x, i)], with [i] inside the list. *)
Definition assign {A} (result : list A) (p : A * nat) : list A :=
  <[snd p := fst p]> result.

(** [for x in l: body x acc], threading the loop's variables through [acc]. *)
Fixpoint for_each {A S} (body : A -> S -> res S) (l : list A) (acc : S) : res S :=
  match l with
  | [] => Ret acc
  | x :: l' =>
      match body x acc with
      | Raise e => Raise e
      | Ret acc' => for_each body l' acc'
      end
  end.

(** ** [float] *)

#[local] Open Scope float_scope.

(** [a >= b] on floats; false as soon as one side is NaN. *)
Definition float_ge (a b : float) : bool := b <=? a.

(** [a > b] *)
Definition float_gt (a b : float) : bool := b <? a.

(** [x == x] fails exactly for NaN. *)
Definition not_nan (x : float) : Prop := (x =? x) = true.

(** [min(a, b)]: the first argument unless the second is strictly smaller. *)
Definition float_min (a b : float) : float := if b <? a then b else a.

(** [max(a, b)]: the first argument unless the second is strictly larger. *)
Definition float_max (a b : float) : float := if a <? b then b else a.

(** [a / b]: Python raises where IEEE would return an infinity or a NaN. *)
Definition float_div (a b : float) : res float :=
  if b =? 0 then Raise ZeroDivisionError else Ret (a / b).

(** [math.sqrt(x)] *)
Definition math_sqrt (x : float) : res float :=
  if x <? 0 then Raise ValueError else Ret (PrimFloat.sqrt x).

(** [float(n)] for a count [n] (exact below 2^53). *)
Definition float_of_count (n : Z) : float := PrimFloat.of_uint63 (Uint63.of_Z n).

(** [sum(xs)] over floats, starting from the integer 0: additions from left
    to right.  (CPython from 3.12 on compensates the rounding error of
    this loop; nothing below depends on the low-order bits of a sum.) *)
Definition float_sum (xs : list float) : float := fold_left PrimFloat.add xs 0.

(** [n / m] for counts with [m <> 0]. *)
Definition count_div (n m : Z) : float := float_of_count n / float_of_count m.

(** ** [list.sort(key=..., reverse=True)]

    The sort is stable and [reverse=True] keeps the original order of
    elements with equal keys; only [<] is used on the keys.  The model is
    the insertion sort with that contract: an element moves past the
    elements whose key is strictly larger and stops before the others. *)
Section Sort.
Context {A : Type} (key : A -> float).

Fixpoint insert_desc (x : A) (l : list A) : list A :=
  match l with
  | [] => [x]
  | y :: l' => if key x <? key y then y :: insert_desc x l' else x :: l
  end.

Fixpoint sort_desc (l : list A) : list A :=
  match l with
  | [] => []
  | x :: l' => insert_desc x (sort_desc l')
  end.

(** [x] may stand before [y] in a list in descending order of the key. *)
Definition desc (x y : A) : Prop := (key y <=? key x) = true.

Definition keys_not_nan (l : list A) : Prop := Forall (fun x => not_nan (key x)) l.
End Sort.

#[local] Close Scope float_scope.

End Py.

(* ===================================================================== *)
(** * src/data/models.py *)
(* ===================================================================== *)

Module models.
Import Py.

(** A metadata value as the vector index stores it: [str], [int], [float]
    or [bool]. *)
Inductive mvalue : Type :=
  | MStr (s : string)
  | MInt (z : Z)
  | MFloat (f : float)
  | MBool (b : bool).

(** [bool(v)] *)
Definition mvalue_truthy (v : mvalue) : bool :=
  match v with
  | MStr s => truthy s
  | MInt z => negb (z =? 0)
  | MFloat f => negb (f =? 0)%float
  | MBool b => b
  end.

(** [v < 0]; a string cannot be compared with an integer. *)
Definition mvalue_negative (v : mvalue) : res bool :=
  match v with
  | MStr _ => Raise TypeError
  | MInt z => Ret (z <? 0)
  | MFloat f => Ret (f <? 0)%float
  | MBool _ => Ret false
  end.

(** [float(f) == z] for an integer [z], compared exactly. *)
Definition float_eq_int (f : float) (z : Z) : bool :=
  match Prim2SF f with
  | S754_zero _ => z =? 0
  | S754_finite s m e =>
      let m' := if s then Z.neg m else Z.pos m in
      if 0 <=? e then z =? m' * 2 ^ e else z * 2 ^ (- e) =? m'
  | _ => false
  end.

Definition int_of_bool (b : bool) : Z := if b then 1 else 0.

(** [a == b] *)
Definition mvalue_eqb (a b : mvalue) : bool :=
  match a, b with
  | MStr s, MStr t => String.eqb s t
  | MStr _, _ | _, MStr _ => false
  | MFloat f, MFloat g => (f =? g)%float
  | MFloat f, MInt z | MInt z, MFloat f => float_eq_int f z
  | MFloat f, MBool c | MBool c, MFloat f => float_eq_int f (int_of_bool c)
  | MInt z, MInt y => z =? y
  | MInt z, MBool c | MBool c, MInt z => z =? int_of_bool c
  | MBool c, MBool d => Bool.eqb c d
  end.

(** [KnowledgeChunk].  The dataclass does not check the annotated types, so
    the fields filled from index metadata keep the metadata's value type.
    [id] holds [str(chunk.id)]. *)
Record KnowledgeChunk : Type := {
  id : string;
  document_id : mvalue;
  title : mvalue;
  content : string;
  embedding : list float;
  metadata : gmap string mvalue;
  created_at : mvalue;
  updated_at : mvalue;
  chunk_index : mvalue;
  relevance_score : float;
}.

(** [chunk.relevance_score = score].  The assignment changes one object;
    a chunk is a value here, which is the same thing as long as no two
    entries of a list are the same object.  [search_similar] constructs a
    [KnowledgeChunk] per row, so the lists the retriever walks over have
    that property. *)
Definition set_relevance_score (c : KnowledgeChunk) (score : float) : KnowledgeChunk :=
  {| id := id c; document_id := document_id c; title := title c;
     content := content c; embedding := embedding c; metadata := metadata c;
     created_at := created_at c; updated_at := updated_at c;
     chunk_index := chunk_index c; relevance_score := score |}.

(** [KnowledgeChunk(...)]: the generated [__init__] followed by
    [__post_init__].  [content] is [None] when the index holds no document
    for the row. *)
Definition KnowledgeChunk_init (id : string) (document_id title : mvalue)
    (content : option string) (embedding : list float)
    (metadata : gmap string mvalue) (created_at updated_at chunk_index : mvalue)
    (relevance_score : float) : res KnowledgeChunk :=
  if negb (mvalue_truthy document_id) then Raise ValueError else
  match content with
  | None => Raise ValueError
  | Some content =>
    if negb (truthy content) then Raise ValueError else
    neg ← mvalue_negative chunk_index;
    if (neg : bool) then Raise ValueError else
    Ret {| id := id; document_id := document_id; title := title;
           content := content; embedding := embedding; metadata := metadata;
           created_at := created_at; updated_at := updated_at;
           chunk_index := chunk_index; relevance_score := relevance_score |}
  end.

(** A value passed for a keyword argument. *)
Inductive pyval : Type :=
  | PNone
  | PStr (s : string)
  | PInt (z : Z)
  | PFloats (l : list float)
  | PDatetime (us : Z).

(** [CacheEntry]: the generic key/value entry of [models.py]. *)
Record CacheEntry : Type := {
  key : pyval;
  value : pyval;
  entry_created_at : pyval;
  entry_expires_at : pyval;
}.

Definition CacheEntry_fields : list string :=
  ["key"; "value"; "created_at"; "expires_at"].

Definition kwarg (name : string) (kwargs : list (string * pyval)) : option pyval :=
  snd <$> find (fun kv => String.eqb (fst kv) name) kwargs.

(** [CacheEntry(name=value, ...)]: the dataclass [__init__] has the parameters
    [key], [value], [created_at=<factory>], [expires_at=None].  A keyword
    that is not a parameter, or a missing [key] or [value], is a
    [TypeError].  [factory_now] is what [datetime.utcnow] returns when the
    default factory of [created_at] runs. *)
Definition CacheEntry_init (factory_now : Z) (kwargs : list (string * pyval))
    : res CacheEntry :=
  if negb (forallb (fun kv => existsb (String.eqb (fst kv)) CacheEntry_fields) kwargs)
  then Raise TypeError else
  match kwarg "key" kwargs, kwarg "value" kwargs with
  | Some k, Some v =>
      Ret {| key := k; value := v;
             entry_created_at := default (PDatetime factory_now) (kwarg "created_at" kwargs);
             entry_expires_at := default PNone (kwarg "expires_at" kwargs) |}
  | _, _ => Raise TypeError
  end.

(** [entry.name]: the dataclass defines no [__getattr__], so a name that is
    not one of its fields raises [AttributeError]. *)
Definition CacheEntry_getattr (entry : CacheEntry) (name : string) : res pyval :=
  if String.eqb name "key" then Ret (key entry)
  else if String.eqb name "value" then Ret (value entry)
  else if String.eqb name "created_at" then Ret (entry_created_at entry)
  else if String.eqb name "expires_at" then Ret (entry_expires_at entry)
  else Raise AttributeError.

End models.

(* ===================================================================== *)
(** * data_ingestion/pdf_processor.py *)
(* ===================================================================== *)

Module pdf_processor.
Import Py.

(** The fields of [PDFProcessor] the chunker reads. *)
Record PDFProcessor : Type := {
  chunk_size : Z;
  chunk_overlap : Z;
  min_chunk_size : Z;
}.

Definition newline : ascii := ascii_of_nat 10.
Definition paragraph_break : string := String newline (String newline "").

(** The bodies of the three [for i in range(end - 1, start - 1, -1)] loops
    of [_find_break_point]; [Some bp] is [return bp]. *)
Definition paragraph_at (text : string) (i : Z) : res (option Z) :=
  if String.eqb (slice text i (i + 2)) paragraph_break
  then Ret (Some (i + 2)) else Ret None.

Definition sentence_end_at (text : string) (i : Z) : res (option Z) :=
  c ← getitem text i;
  if char_in c ".!?" && (i + 1 <? len text) then
    (* Make sure it's followed by whitespace or newline *)
    c' ← getitem text (i + 1);
    if isspace c' then Ret (Some (i + 1)) else Ret None
  else Ret None.

Definition word_boundary_at (text : string) (i : Z) : res (option Z) :=
  c ← getitem text i;
  if isspace c then Ret (Some (i + 1)) else Ret None.

(** [PDFProcessor._find_break_point] *)
Definition _find_break_point (text : string) (start end_ : Z) : res Z :=
  (* Look for paragraph breaks first *)
  r1 ← for_return (paragraph_at text) (range_down (end_ - 1) (start - 1));
  match r1 with
  | Some bp => Ret bp
  | None =>
    (* Look for sentence endings *)
    r2 ← for_return (sentence_end_at text) (range_down (end_ - 1) (start - 1));
    match r2 with
    | Some bp => Ret bp
    | None =>
      (* Look for word boundaries *)
      r3 ← for_return (word_boundary_at text) (range_down (end_ - 1) (start - 1));
      match r3 with
      | Some bp => Ret bp
      | None => Ret end_   (* No good break point found, use original end *)
      end
    end
  end.

(** The [while start < len(text)] loop of [chunk_text]; [text] is already
    stripped.  [None] means the fuel ran out before the loop ended. *)
Fixpoint chunk_loop (fuel : nat) (self : PDFProcessor) (text : string)
    (start : Z) (chunks : list string) : option (res (list string)) :=
  match fuel with
  | O => None
  | S fuel' =>
    if negb (start <? len text) then Some (Ret chunks) else
    (* Calculate end position *)
    let end_ := start + chunk_size self in
    let adjusted : res Z :=
      if end_ <? len text then
        let search_start :=
          Z.max (start + chunk_size self - chunk_overlap self) start in
        break_point ← _find_break_point text search_start end_;
        Ret (if break_point >? start then break_point else end_)
      else Ret end_ in
    match adjusted with
    | Raise e => Some (Raise e)
    | Ret end_ =>
      (* Extract chunk *)
      let chunk := strip (slice text start end_) in
      (* Only keep chunks that meet minimum size requirement *)
      let chunks := if len chunk >=? min_chunk_size self
                    then (chunks ++ [chunk])%list else chunks in
      (* Move to next chunk with overlap *)
      if end_ >=? len text then Some (Ret chunks) else
      let start := end_ - chunk_overlap self in
      (* Ensure we make progress: [if start <= chunks and len(chunks) > 0] *)
      match le_int_list start chunks with
      | Raise e => Some (Raise e)
      | Ret b =>
        let start :=
          if b && (Z.of_nat (length chunks) >? 0)
          then end_ - chunk_overlap self / 2 else start in
        chunk_loop fuel' self text start chunks
      end
    end
  end.

(** [PDFProcessor.chunk_text(text)] (the [title] argument is unused). *)
Definition chunk_text (fuel : nat) (self : PDFProcessor) (text : string)
    : option (res (list string)) :=
  if negb (truthy (strip text)) then Some (Ret []) else
  (* Clean up text *)
  let text := strip text in
  (* If text is shorter than chunk size, return as single chunk *)
  if len text <=? chunk_size self then
    if len text >=? min_chunk_size self then Some (Ret [text]) else Some (Ret [])
  else chunk_loop fuel self text 0 [].

End pdf_processor.

(* ===================================================================== *)
(** * src/rag/embeddings.py *)
(* ===================================================================== *)

Module embeddings.
Import Py.

Section EmbeddingsService.
(** The sentence-transformers model behind the service, an external
    object: [self.model.encode(text).tolist()] for one text, and
    [[e.tolist() for e in self.model.encode(batch, batch_size=n)]] for a
    list of texts.  Either call may raise. *)
Variable model_encode : string -> res (list float).
Variable model_encode_batch : list string -> Z -> res (list (list float)).
(** [self.embedding_dimension] *)
Variable embedding_dimension : Z.

(** [[0.0] * self.embedding_dimension] *)
Definition zero_vector : list float :=
  replicate (Z.to_nat embedding_dimension) 0%float.

(** [EmbeddingsService.encode_text] *)
Definition encode_text (text : string) : res (list float) :=
  if negb (truthy (strip text)) then Ret zero_vector
  else try_except (model_encode text)
         (fun _ => Ret zero_vector (* Return zero vector as fallback *)).

(** [EmbeddingsService.encode_query] *)
Definition encode_query (query : string) : res (list float) :=
  encode_text query.

(** The pairs [(i, text)] of [enumerate(texts)] with [text.strip()] truthy. *)
Definition non_empty (texts : list string) : list (nat * string) :=
  List.filter (fun p => truthy (strip (snd p)))
    (combine (seq 0 (length texts)) texts).

(** The batches [encode_batch] submits to the model, in order. *)
Definition batches (texts : list string) (batch_size : Z) : list (list string) :=
  let non_empty_texts := map snd (non_empty texts) in
  match range_step (Z.of_nat (length non_empty_texts)) batch_size with
  | Ret starts => map (fun i => list_slice non_empty_texts i (i + batch_size)) starts
  | Raise _ => []
  end.

(** The body of the batching loop of [encode_batch]: encode
    [non_empty_texts[i : i + batch_size]] and extend [embeddings]. *)
Definition batch_step (non_empty_texts : list string) (batch_size : Z)
    (i : Z) (embeddings : list (list float)) : res (list (list float)) :=
  let batch := list_slice non_empty_texts i (i + batch_size) in
  batch_embeddings ← model_encode_batch batch batch_size;
  Ret (embeddings ++ batch_embeddings)%list.

(** [EmbeddingsService.encode_batch] *)
Definition encode_batch (texts : list string) (batch_size : Z)
    : res (list (list float)) :=
  match texts with
  | [] => Ret []
  | _ =>
    (* Filter out empty texts and keep track of indices *)
    let non_empty_texts := map snd (non_empty texts) in
    let text_indices := map fst (non_empty texts) in
    let zeros := replicate (length texts) zero_vector in
    match non_empty_texts with
    | [] => Ret zeros
    | _ =>
      try_except
        ((* Generate embeddings in batches *)
         starts ← range_step (Z.of_nat (length non_empty_texts)) batch_size;
         embeddings ← for_each (batch_step non_empty_texts batch_size) starts [];
         (* Create result array with zero vectors, fill in the embeddings *)
         Ret (fold_left assign (combine embeddings text_indices) zeros))
        (fun _ => Ret zeros (* Return zero vectors as fallback *))
    end
  end.
End EmbeddingsService.

End embeddings.

(* ===================================================================== *)
(** * src/rag/vector_store.py *)
(* ===================================================================== *)

Module vector_store.
Import Py models.

(** What [collection.query] returns for one query embedding: a
    dictionary of row-aligned columns, each wrapped in a one-element list.
    [distances = None] stands for a result without the ["distances"] key. *)
Record QueryResult : Type := {
  ids : list (list string);
  metadatas : list (list (gmap string mvalue));
  documents : list (list (option string));
  distances : option (list (list float));
}.

(** What [collection.get] returns. *)
Record GetResult : Type := {
  get_ids : list string;
  get_metadatas : list (gmap string mvalue);
  get_documents : list (option string);
}.

Definition reserved_keys : list string :=
  ["document_id"; "title"; "chunk_index"; "created_at"; "updated_at"].

(** [{k: v for k, v in metadata.items() if k not in [...]}] *)
Definition user_metadata (metadata : gmap string mvalue) : gmap string mvalue :=
  filter (fun kv => fst kv ∉ reserved_keys) metadata.

(** [metadata[k]] *)
Definition dict_getitem (metadata : gmap string mvalue) (k : string) : res mvalue :=
  match metadata !! k with
  | Some v => Ret v
  | None => Raise KeyError
  end.

(** [metadata.get(k, d)] *)
Definition dict_get (metadata : gmap string mvalue) (k : string) (d : mvalue) : mvalue :=
  default d (metadata !! k).

(** The distance the index reports for row [i]; [0.0] when the result has
    no ["distances"] entry. *)
Definition reported_distance (results : QueryResult) (i : nat) : option float :=
  match distances results with
  | Some d => ds ← d !! O; ds !! i
  | None => Some 0%float
  end.

(** What [search_similar] makes of row [i] of a query result: a chunk and a
    score computed from the reported distance. *)
Definition row_chunk (results : QueryResult) (query_embedding : list float)
    (row : nat * string) (cs : KnowledgeChunk * float) : Prop :=
  exists distance,
    reported_distance results (fst row) = Some distance
    /\ snd cs = (1 - distance)%float
    /\ relevance_score (fst cs) = snd cs
    /\ embedding (fst cs) = query_embedding.

Section ChromaVectorStore.
(** [self.collection.query(query_embeddings=[e], n_results=n, where=f)]
    and [self.collection.get(ids=[i])] of the Chroma collection, and the
    constructor [uuid.UUID(s)] followed by [str]: all external. *)
Variable collection_query :
  list float -> Z -> option (gmap string mvalue) -> res QueryResult.
Variable collection_get : string -> res GetResult.
Variable UUID : string -> res string.

(** The body of the [for i, chunk_id in enumerate(results["ids"][0])] loop
    of [search_similar]. *)
Definition search_row (results : QueryResult) (query_embedding : list float)
    (row : nat * string) (chunks_with_scores : list (KnowledgeChunk * float))
    : res (list (KnowledgeChunk * float)) :=
  let '(i, chunk_id) := row in
  metadata ← (ms ← list_getitem (metadatas results) 0; list_getitem ms i);
  document ← (ds ← list_getitem (documents results) 0; list_getitem ds i);
  distance ← match distances results with
             | Some d => ds ← list_getitem d 0; list_getitem ds i
             | None => Ret 0%float
             end;
  (* Convert distance to similarity score (1 - distance) *)
  let similarity_score := (1 - distance)%float in
  (* Reconstruct KnowledgeChunk *)
  uuid ← UUID chunk_id;
  doc_id ← dict_getitem metadata "document_id";
  title ← dict_getitem metadata "title";
  chunk ← KnowledgeChunk_init uuid doc_id title document
             query_embedding (* Not the actual embedding *)
             (user_metadata metadata)
             (dict_get metadata "created_at" (MStr ""))
             (dict_get metadata "updated_at" (MStr ""))
             (dict_get metadata "chunk_index" (MInt 0))
             similarity_score;
  Ret (chunks_with_scores ++ [(chunk, similarity_score)])%list.

(** [ChromaVectorStore.search_similar] *)
Definition search_similar (query_embedding : list float) (n_results : Z)
    (metadata_filter : option (gmap string mvalue))
    : res (list (KnowledgeChunk * float)) :=
  try_except
    (results ← collection_query query_embedding n_results metadata_filter;
     match ids results with
     | [] => Ret []
     | [] :: _ => Ret []
     | ids0 :: _ =>
         for_each (search_row results query_embedding)
           (combine (seq 0 (length ids0)) ids0) []
     end)
    (fun _ => Ret []).

(** [ChromaVectorStore.get_chunk]; [chunk_id] is [str(chunk_id)]. *)
Definition get_chunk (chunk_id : string) : res (option KnowledgeChunk) :=
  try_except
    (results ← collection_get chunk_id;
     match get_ids results with
     | [] => Ret None
     | _ =>
       metadata ← list_getitem (get_metadatas results) 0;
       document ← list_getitem (get_documents results) 0;
       doc_id ← dict_getitem metadata "document_id";
       title ← dict_getitem metadata "title";
       chunk ← KnowledgeChunk_init chunk_id doc_id title document
                  [] (* Embedding not returned by get() *)
                  (user_metadata metadata)
                  (dict_get metadata "created_at" (MStr ""))
                  (dict_get metadata "updated_at" (MStr ""))
                  (dict_get metadata "chunk_index" (MInt 0))
                  0%float;
       Ret (Some chunk)
     end)
    (fun _ => Ret None).
End ChromaVectorStore.

End vector_store.

(* ===================================================================== *)
(** * src/rag/retriever.py *)
(* ===================================================================== *)

Module retriever.
Import Py models.

(** The attributes of a [RAGRetriever] that [search] reads. *)
Record RAGRetriever : Type := {
  default_top_k : Z;
  similarity_threshold : float;
}.

(** A [HybridRetriever] is a [RAGRetriever] with two weights. *)
Record HybridRetriever : Type := {
  base : RAGRetriever;
  keyword_weight : float;
  semantic_weight : float;
}.

(** [HybridRetriever.__init__] *)
Definition HybridRetriever_init (default_top_k : Z)
    (similarity_threshold keyword_weight : float) : HybridRetriever :=
  {| base := {| default_top_k := default_top_k;
                similarity_threshold := similarity_threshold |};
     keyword_weight := keyword_weight;
     semantic_weight := (1 - keyword_weight)%float |}.

(** Truthiness of an optional integer argument: [None] and [0] are false. *)
Definition int_truthy (k : option Z) : bool :=
  match k with Some z => negb (z =? 0) | None => false end.

(** [set(s.lower().split())] *)
Definition terms (s : string) : gset string := list_to_set (split (lower s)).

(** The term-overlap score of [_keyword_search] for one chunk. *)
Definition keyword_score (query_terms content_terms : gset string) : float :=
  let overlap := Z.of_nat (size (query_terms ∩ content_terms)) in
  let max_terms :=
    Z.max (Z.of_nat (size query_terms)) (Z.of_nat (size content_terms)) in
  if max_terms >? 0 then count_div overlap max_terms else 0%float.

(** [HybridRetriever._keyword_search]: a dictionary from [str(chunk.id)] to
    the keyword score, filled in list order. *)
Definition _keyword_search (query : string) (chunks : list KnowledgeChunk)
    : gmap string float :=
  let query_terms := terms query in
  fold_left
    (fun scores chunk =>
       <[id chunk := keyword_score query_terms (terms (content chunk))]> scores)
    chunks ∅.

Section Retriever.
(** The collaborators handed to the constructor:
    [self.embeddings_service.encode_query] and
    [self.vector_store.search_similar].  Each returns or raises; the
    chunks of a returned list are separate objects. *)
Variable encode_query : string -> res (list float).
Variable search_similar :
  list float -> Z -> option (gmap string mvalue) ->
  res (list (KnowledgeChunk * float)).

(** The filtering loop of [search]: keep the pairs whose score reaches the
    threshold and store the score in the chunk. *)
Definition filter_by_threshold (similarity_threshold : float)
    (results : list (KnowledgeChunk * float)) : list KnowledgeChunk :=
  map (fun p => set_relevance_score (fst p) (snd p))
    (List.filter (fun p => float_ge (snd p) similarity_threshold) results).

(** The ranked list [search] builds from what the store returned: filter,
    sort, slice. *)
Definition ranked (t : float) (k : Z) (results : list (KnowledgeChunk * float))
    : list KnowledgeChunk :=
  slice_to (sort_desc relevance_score (filter_by_threshold t results)) k.

(** [RAGRetriever.search] *)
Definition search (self : RAGRetriever) (query : string) (top_k : option Z)
    (metadata_filter : option (gmap string mvalue))
    (similarity_threshold : option float) : res (list KnowledgeChunk) :=
  if negb (truthy (strip query)) then Ret [] else
  (* Use default values if not provided *)
  let top_k := default (default_top_k self) top_k in
  let similarity_threshold :=
    default (retriever.similarity_threshold self) similarity_threshold in
  try_except
    ((* Generate query embedding *)
     query_embedding ← encode_query query;
     (* Search vector store *)
     results ← search_similar query_embedding (top_k * 2) metadata_filter;
     (* Filter by similarity threshold and update relevance scores *)
     let filtered_chunks := filter_by_threshold similarity_threshold results in
     (* Sort by relevance score (descending) and limit to top_k *)
     let filtered_chunks := sort_desc relevance_score filtered_chunks in
     Ret (slice_to filtered_chunks top_k))
    (fun _ => Ret []).

(** [RAGRetriever.search_by_document] *)
Definition search_by_document (self : RAGRetriever) (query : string)
    (document_id : string) (top_k : option Z) : res (list KnowledgeChunk) :=
  search self query top_k (Some {[ "document_id" := MStr document_id ]}) None.

(** The loop of [get_similar_chunks] with its [continue] and [break]. *)
Fixpoint collect_similar (reference_chunk : KnowledgeChunk) (top_k : Z)
    (exclude_same_document : bool)
    (results : list (KnowledgeChunk * float))
    (similar_chunks : list KnowledgeChunk) : list KnowledgeChunk :=
  match results with
  | [] => similar_chunks
  | (chunk, similarity_score) :: rest =>
      (* Skip the reference chunk itself *)
      if String.eqb (id chunk) (id reference_chunk)
      then collect_similar reference_chunk top_k exclude_same_document rest similar_chunks
      (* Skip chunks from same document if requested *)
      else if exclude_same_document
              && mvalue_eqb (document_id chunk) (document_id reference_chunk)
      then collect_similar reference_chunk top_k exclude_same_document rest similar_chunks
      else
        let similar_chunks :=
          (similar_chunks ++ [set_relevance_score chunk similarity_score])%list in
        if Z.of_nat (length similar_chunks) >=? top_k then similar_chunks
        else collect_similar reference_chunk top_k exclude_same_document rest similar_chunks
  end.

(** [RAGRetriever.get_similar_chunks] *)
Definition get_similar_chunks (reference_chunk : KnowledgeChunk) (top_k : Z)
    (exclude_same_document : bool) : res (list KnowledgeChunk) :=
  match embedding reference_chunk with
  | [] => Ret []   (* Reference chunk has no embedding *)
  | _ =>
    try_except
      ((* Search using reference chunk's embedding *)
       results ← search_similar (embedding reference_chunk)
                   (if exclude_same_document then top_k * 2 else top_k) None;
       Ret (collect_similar reference_chunk top_k exclude_same_document results []))
      (fun _ => Ret [])
  end.

(** The score-combining loop of [HybridRetriever.search]. *)
Definition combine_scores (self : HybridRetriever)
    (keyword_scores : gmap string float) (chunk : KnowledgeChunk)
    : KnowledgeChunk :=
  let semantic_score := relevance_score chunk in
  let keyword_score := default 0%float (keyword_scores !! id chunk) in
  (* Weighted combination *)
  let hybrid_score :=
    (semantic_weight self * semantic_score
     + keyword_weight self * keyword_score)%float in
  set_relevance_score chunk hybrid_score.

(** [HybridRetriever.search] *)
Definition hybrid_search (self : HybridRetriever) (query : string)
    (top_k : option Z) (metadata_filter : option (gmap string mvalue))
    (similarity_threshold : option float) : res (list KnowledgeChunk) :=
  (* Get semantic search results *)
  semantic_chunks ←
    search (base self) query
      (Some (if int_truthy top_k then default 0 top_k * 2
             else default_top_k (base self) * 2))
      metadata_filter
      (Some 0.5%float) (* Lower threshold for hybrid *);
  match semantic_chunks with
  | [] => Ret []
  | _ =>
    (* Perform keyword scoring *)
    let keyword_scores := _keyword_search query semantic_chunks in
    (* Combine scores *)
    let semantic_chunks := map (combine_scores self keyword_scores) semantic_chunks in
    (* Apply final threshold and sorting *)
    let similarity_threshold :=
      default (retriever.similarity_threshold (base self)) similarity_threshold in
    let filtered_chunks :=
      List.filter (fun chunk => float_ge (relevance_score chunk) similarity_threshold)
        semantic_chunks in
    let filtered_chunks := sort_desc relevance_score filtered_chunks in
    let final_top_k :=
      if int_truthy top_k then default 0 top_k else default_top_k (base self) in
    Ret (slice_to filtered_chunks final_top_k)
  end.
End Retriever.

End retriever.

(* ===================================================================== *)
(** * src/utils/cache.py *)
(* ===================================================================== *)

Module cache.
Import Py models.

(** A row of the [cache_entries] table.  Timestamps are microseconds since
    the epoch; SQLite compares their ISO text, which orders them the same
    way.  The embedding column holds the JSON text of the vector, which
    [json.loads] reads back unchanged, so the row keeps the vector. *)
Record Row : Type := {
  row_id : string;
  query_hash : string;
  query_text : string;
  query_embedding : list float;
  response : string;
  model_used : string;
  context_hash : string;
  created_at : Z;
  last_accessed : Z;
  access_count : Z;
  ttl_seconds : Z;
  expires_at : Z;
}.

(** What the cache reads and writes outside its own attributes: the table,
    the wall clock ([clock k] is what the [k]-th call of
    [datetime.utcnow()] returns) and the stream behind [uuid4()].  The
    database file is taken to be readable and writable: no statement
    fails for a reason of its own. *)
Record world : Type := {
  rows : list Row;
  clock : nat -> Z;
  clock_reads : nat;
  uuids : nat -> string;
  uuid_draws : nat;
}.

(** A call that may change the world and returns or raises. *)
Definition M (A : Type) : Type := world -> res A * world.

#[export] Instance M_ret : MRet M := fun A a w => (Ret a, w).
#[export] Instance M_bind : MBind M := fun A B f m w =>
  match m w with
  | (Ret a, w') => f a w'
  | (Raise e, w') => (Raise e, w')
  end.

(** [try: body  except Exception: handler]; what the body did to the world
    before raising stays done. *)
Definition try_exceptM {A} (body : M A) (handler : exn -> M A) : M A :=
  fun w => match body w with
           | (Ret a, w') => (Ret a, w')
           | (Raise e, w') => handler e w'
           end.

Definition lift {A} (r : res A) : M A := fun w => (r, w).

(** [datetime.utcnow()] *)
Definition utcnow : M Z := fun w =>
  (Ret (clock w (clock_reads w)),
   {| rows := rows w; clock := clock w; clock_reads := S (clock_reads w);
      uuids := uuids w; uuid_draws := uuid_draws w |}).

(** [uuid4()] *)
Definition uuid4 : M string := fun w =>
  (Ret (uuids w (uuid_draws w)),
   {| rows := rows w; clock := clock w; clock_reads := clock_reads w;
      uuids := uuids w; uuid_draws := S (uuid_draws w) |}).

Definition select_rows : M (list Row) := fun w => (Ret (rows w), w).

Definition set_rows (rs : list Row) : M unit := fun w =>
  (Ret tt,
   {| rows := rs; clock := clock w; clock_reads := clock_reads w;
      uuids := uuids w; uuid_draws := uuid_draws w |}).

(** The largest and smallest [datetime], in microseconds since the epoch. *)
Definition datetime_max : Z := 253402300799999999.
Definition datetime_min : Z := -62135596800000000.

(** [now + timedelta(seconds=ttl)] *)
Definition add_seconds (now ttl : Z) : res Z :=
  if (Z.abs ttl >? 86400 * 999999999) then Raise OverflowError else
  let t := now + ttl * 1000000 in
  if (t <? datetime_min) || (t >? datetime_max) then Raise OverflowError
  else Ret t.

(** [UPDATE cache_entries SET last_accessed = ?, access_count = access_count + 1
    WHERE id = ?] *)
Definition touch (now : Z) (entry_id : string) (r : Row) : Row :=
  if String.eqb (row_id r) entry_id then
    {| row_id := row_id r; query_hash := query_hash r;
       query_text := query_text r; query_embedding := query_embedding r;
       response := response r; model_used := model_used r;
       context_hash := context_hash r; created_at := created_at r;
       last_accessed := now; access_count := access_count r + 1;
       ttl_seconds := ttl_seconds r; expires_at := expires_at r |}
  else r.

(** [INSERT OR REPLACE]: the rows that clash with the new one on the
    primary key [id] or on the unique [query_hash] are deleted first. *)
Definition insert_or_replace (r : Row) (rs : list Row) : list Row :=
  (List.filter (fun r' => negb (String.eqb (row_id r') (row_id r))
                         && negb (String.eqb (query_hash r') (query_hash r))) rs
   ++ [r])%list.

(** [ORDER BY last_accessed ASC], ties in table order. *)
Fixpoint insert_by_last_accessed (r : Row) (rs : list Row) : list Row :=
  match rs with
  | [] => [r]
  | r' :: rs' =>
      if last_accessed r' <=? last_accessed r
      then r' :: insert_by_last_accessed r rs'
      else r :: rs
  end.

Definition order_by_last_accessed (rs : list Row) : list Row :=
  fold_left (fun acc r => insert_by_last_accessed r acc) rs [].

(** The attributes of a [SemanticCache]. *)
Record SemanticCache : Type := {
  similarity_threshold : float;
  default_ttl_seconds : Z;
  max_cache_size : Z;
}.

Section SemanticCache.
(** [self.embeddings_service.encode_text], the built-in [hash] on [str],
    [json.dumps(context, sort_keys=True)], and the hex digests of
    [hashlib.md5] and [hashlib.sha256]: all external. *)
Variable encode_text : string -> res (list float).
Variable hash : string -> Z.
Variable json_dumps : gmap string string -> string.
Variable md5_hexdigest : string -> string.
Variable sha256_hexdigest : string -> string.
(** The built-in [str] applied to an attribute value. *)
Variable str : pyval -> string.

(** [SemanticCache._calculate_similarity] *)
Definition _calculate_similarity (embedding1 embedding2 : list float) : res float :=
  (* Calculate dot product *)
  let dot_product :=
    float_sum (map (fun p => (fst p * snd p)%float) (combine embedding1 embedding2)) in
  (* Calculate magnitudes *)
  magnitude1 ← math_sqrt (float_sum (map (fun a => (a * a)%float) embedding1));
  magnitude2 ← math_sqrt (float_sum (map (fun b => (b * b)%float) embedding2));
  (* Avoid division by zero *)
  if (magnitude1 =? 0)%float || (magnitude2 =? 0)%float then Ret 0%float else
  (* Calculate cosine similarity *)
  similarity ← float_div dot_product (magnitude1 * magnitude2)%float;
  Ret (float_max 0 (float_min 1 similarity)).  (* Clamp to [0, 1] *)

(** [SemanticCache._generate_query_hash] *)
Definition _generate_query_hash (query context_hash : string) : string :=
  sha256_hexdigest (strip (lower query) ++ ":" ++ context_hash).

(** [SemanticCache._generate_context_hash] *)
Definition _generate_context_hash (context : gmap string string) : string :=
  md5_hexdigest (json_dumps context).

(** [SemanticCache._cleanup_expired] *)
Definition _cleanup_expired : M Z :=
  now ← utcnow;
  rs ← select_rows;
  let kept := List.filter (fun r => negb (expires_at r <? now)) rs in
  _ ← set_rows kept;
  mret (Z.of_nat (length rs) - Z.of_nat (length kept)).

(** [SemanticCache._cleanup_lru] *)
Definition _cleanup_lru (self : SemanticCache) : M Z :=
  rs ← select_rows;
  let current_count := Z.of_nat (length rs) in
  if current_count <=? max_cache_size self then mret 0 else
  (* Remove oldest entries, and extra for buffer *)
  let entries_to_remove := current_count - max_cache_size self + 100 in
  let victims :=
    map row_id (take (Z.to_nat entries_to_remove) (order_by_last_accessed rs)) in
  let kept :=
    List.filter (fun r => negb (existsb (String.eqb (row_id r)) victims)) rs in
  _ ← set_rows kept;
  mret (Z.of_nat (length rs) - Z.of_nat (length kept)).

(** The condition of the [SELECT] in [get]. *)
Definition is_candidate (context_hash model_used : string) (now : Z) (r : Row) : bool :=
  String.eqb (cache.context_hash r) context_hash
  && String.eqb (cache.model_used r) model_used
  && (expires_at r >? now).

(** The body of the [for entry in candidates] loop of [get]; the loop
    carries [(best_match, best_similarity)]. *)
Definition best_match_step (self : SemanticCache) (query_embedding : list float)
    (entry : Row) (best : option (string * string * Z) * float)
    : res (option (string * string * Z) * float) :=
  (* Calculate similarity *)
  similarity ← _calculate_similarity query_embedding (cache.query_embedding entry);
  if float_gt similarity (snd best)
     && float_ge similarity (similarity_threshold self)
  then Ret (Some (row_id entry, response entry, access_count entry), similarity)
  else Ret best.

(** [SemanticCache.get] *)
Definition get (self : SemanticCache) (query : string)
    (context : option (gmap string string)) (model_used : string)
    : M (option string) :=
  if negb (truthy (strip query)) then mret None else
  (* Clean up expired entries periodically *)
  _ ← (if hash query `mod` 100 =? 0 then _cleanup_expired else mret 0);
  (* Generate context hash *)
  let context_hash := _generate_context_hash (default ∅ context) in
  try_exceptM
    ((* Generate query embedding *)
     query_embedding ← lift (encode_text query);
     (* Search for similar cached entries *)
     now ← utcnow;
     rs ← select_rows;
     let candidates := List.filter (is_candidate context_hash model_used now) rs in
     (* Find best match by similarity *)
     best ← lift (for_each (best_match_step self query_embedding)
                    candidates (None, 0%float));
     match fst best with
     | Some (entry_id, response, access_count) =>
         (* Update access statistics *)
         now ← utcnow;
         rs ← select_rows;
         _ ← set_rows (map (touch now entry_id) rs);
         mret (Some response)
     | None => mret None
     end)
    (fun _ => mret None).

(** [ttl_seconds or self.default_ttl_seconds]: [None] and [0] are both
    false, so either one selects the default. *)
Definition effective_ttl (self : SemanticCache) (ttl_seconds : option Z) : Z :=
  match ttl_seconds with
  | Some t => if t =? 0 then default_ttl_seconds self else t
  | None => default_ttl_seconds self
  end.

(** The clock reading [get] passes to its [SELECT] when called in world
    [w]: the next reading, or the one after it when the call first runs
    the expiry sweep. *)
Definition lookup_time (query : string) (w : world) : Z :=
  clock w (clock_reads w + (if (hash query `mod` 100 =? 0)%Z then 1 else 0))%nat.

(** [SemanticCache.put] *)
Definition put (self : SemanticCache) (query response : string)
    (context : option (gmap string string)) (model_used : string)
    (ttl_seconds : option Z) : M bool :=
  if negb (truthy (strip query)) || negb (truthy (strip response))
  then mret false else
  let ttl := effective_ttl self ttl_seconds in
  let context_hash := _generate_context_hash (default ∅ context) in
  let query_hash := _generate_query_hash query context_hash in
  try_exceptM
    ((* Generate query embedding *)
     query_embedding ← lift (encode_text query);
     (* Create cache entry *)
     now ← utcnow;
     expires_at ← lift (add_seconds now ttl);
     entry_id ← uuid4;
     entry ← lift (CacheEntry_init now
                [("id", PStr entry_id); ("query_hash", PStr query_hash);
                 ("query_embedding", PFloats query_embedding);
                 ("response", PStr response); ("model_used", PStr model_used);
                 ("context_hash", PStr context_hash);
                 ("created_at", PDatetime now); ("last_accessed", PDatetime now);
                 ("access_count", PInt 1); ("ttl_seconds", PInt ttl)]);
     (* Store in database *)
     id_attr ← lift (CacheEntry_getattr entry "id");
     query_hash_attr ← lift (CacheEntry_getattr entry "query_hash");
     rs ← select_rows;
     _ ← set_rows (insert_or_replace
            {| row_id := str id_attr; cache.query_hash := str query_hash_attr;
               query_text := query; cache.query_embedding := query_embedding;
               cache.response := response; cache.model_used := model_used;
               cache.context_hash := context_hash; created_at := now;
               last_accessed := now; access_count := 1;
               cache.ttl_seconds := ttl; cache.expires_at := expires_at |} rs);
     (* Cleanup if cache is getting full *)
     _ ← _cleanup_lru self;
     mret true)
    (fun _ => mret false).
End SemanticCache.

End cache.

(* ===================================================================== *)
(** * Concrete collaborators for the examples *)
(* ===================================================================== *)

Module fixtures.
Import Py models.

(** ** A four-row index *)

Definition fx_metadata (doc title : string) : gmap string mvalue :=
  {[ "document_id" := MStr doc; "title" := MStr title ]}.

(** The index reports the distances 1.5, 0.25, 0.125 and 0.25, in this
    order. *)
Definition fx_results : vector_store.QueryResult :=
  {| vector_store.ids := [["id-solar"; "id-battery"; "id-inverter"; "id-tariff"]];
     vector_store.metadatas :=
       [[fx_metadata "doc-1" "Solar"; fx_metadata "doc-2" "Battery";
         fx_metadata "doc-1" "Inverter"; fx_metadata "doc-3" "Tariff"]];
     vector_store.documents :=
       [[Some "solar panels on the roof"; Some "Battery storage systems";
         Some "inverters and battery chargers for solar"; Some "feed-in tariff rates"]];
     vector_store.distances := Some [[1.5%float; 0.25%float; 0.125%float; 0.25%float]] |}.

Definition fx_collection_query (query_embedding : list float) (n_results : Z)
    (metadata_filter : option (gmap string mvalue)) : res vector_store.QueryResult :=
  Ret fx_results.

Definition fx_collection_get (chunk_id : string) : res vector_store.GetResult :=
  Ret {| vector_store.get_ids := [chunk_id];
         vector_store.get_metadatas := [fx_metadata "doc-2" "Battery"];
         vector_store.get_documents := [Some "Battery storage systems"] |}.

(** Every string is taken as a well-formed UUID. *)
Definition fx_UUID (s : string) : res string := Ret s.

Definition fx_chunk (chunk_id doc title content : string)
    (embedding : list float) (score : float) : KnowledgeChunk :=
  {| id := chunk_id; document_id := MStr doc; title := MStr title;
     content := content; embedding := embedding; metadata := ∅;
     created_at := MStr ""; updated_at := MStr ""; chunk_index := MInt 0;
     relevance_score := score |}.

Definition fx_solar (embedding : list float) (score : float) : KnowledgeChunk :=
  fx_chunk "id-solar" "doc-1" "Solar" "solar panels on the roof" embedding score.

Definition fx_battery (embedding : list float) (score : float) : KnowledgeChunk :=
  fx_chunk "id-battery" "doc-2" "Battery" "Battery storage systems" embedding score.

Definition fx_inverter (embedding : list float) (score : float) : KnowledgeChunk :=
  fx_chunk "id-inverter" "doc-1" "Inverter"
    "inverters and battery chargers for solar" embedding score.

Definition fx_tariff (embedding : list float) (score : float) : KnowledgeChunk :=
  fx_chunk "id-tariff" "doc-3" "Tariff" "feed-in tariff rates" embedding score.

(** What [search_similar] returns for the query vector [q] on this index. *)
Definition fx_hits (q : list float) : list (KnowledgeChunk * float) :=
  [(fx_solar q (-0.5)%float, (-0.5)%float); (fx_battery q 0.75%float, 0.75%float);
   (fx_inverter q 0.875%float, 0.875%float); (fx_tariff q 0.75%float, 0.75%float)].

(** ** A retriever over that index *)

Definition fx_encode_query (query : string) : res (list float) := Ret [1%float; 0%float].

Definition fx_search_similar :=
  vector_store.search_similar fx_collection_query fx_UUID.

Definition fx_retriever : retriever.RAGRetriever :=
  {| retriever.default_top_k := 5; retriever.similarity_threshold := 0.5%float |}.

(** ** A model that fails on one text *)

Definition fx_embed (text : string) : list float := [float_of_count (len text)].

Definition fx_model_encode_batch (batch : list string) (batch_size : Z)
    : res (list (list float)) :=
  if existsb (String.eqb "b") batch then Raise (RuntimeError "out of memory")
  else Ret (map fx_embed batch).

(** ** A cache over an empty table *)

(** The clock starts at 1700000000 seconds; the first readings are one
    microsecond apart. *)
Definition fx_clock (k : nat) : Z :=
  nth k [1700000000000000; 1700000000000001; 1700000000000002;
         1700000000000003; 1700000000000004] 1700000000000005.

Definition fx_world_of (rows : list cache.Row) : cache.world :=
  {| cache.rows := rows;
     cache.clock := fx_clock;
     cache.clock_reads := 0;
     cache.uuids := fun k => "uuid";
     cache.uuid_draws := 0 |}.

Definition fx_world : cache.world := fx_world_of [].

Definition fx_cache : cache.SemanticCache :=
  {| cache.similarity_threshold := 0.5%float;
     cache.default_ttl_seconds := 3600;
     cache.max_cache_size := 10000 |}.

Definition fx_encode_text (text : string) : res (list float) := Ret [1%float; 0%float].
Definition fx_hash (s : string) : Z := len s.
Definition fx_json_dumps (context : gmap string string) : string := "{}".
Definition fx_digest (s : string) : string := s.
Definition fx_str (v : pyval) : string :=
  match v with PStr s => s | _ => "" end.

(** A row for the query ["capital of France?"] created at [created] with a
    time to live of one hour. *)
Definition fx_row (created : Z) : cache.Row :=
  {| cache.row_id := "uuid-0"; cache.query_hash := "capital of france?:{}";
     cache.query_text := "capital of France?";
     cache.query_embedding := [1%float; 0%float];
     cache.response := "Paris"; cache.model_used := "m";
     cache.context_hash := "{}"; cache.created_at := created;
     cache.last_accessed := created; cache.access_count := 1;
     cache.ttl_seconds := 3600; cache.expires_at := created + 3600000000 |}.

(** Created one second before the first clock reading: still live. *)
Definition fx_live_row : cache.Row := fx_row (1700000000000000 - 1000000).

(** Created exactly one hour before the first clock reading: its
    [expires_at] equals the time of the lookup. *)
Definition fx_expired_row : cache.Row := fx_row (1700000000000000 - 3600000000).

(** A store that is down. *)
Definition fx_failing_search_similar (query_embedding : list float) (n_results : Z)
    (metadata_filter : option (gmap string mvalue))
    : res (list (KnowledgeChunk * float)) :=
  Raise (RuntimeError "index unavailable").

End fixtures.

(* ===================================================================== *)
(** * More of the Python runtime: [int] to [float], [dict] order, [sorted] *)
(* ===================================================================== *)

Module PyMore.
Import Py.

(** [float(n)] for an [int] of any size: the nearest binary64 value, ties
    to even, and [OverflowError] when that value is out of range. *)
Definition float_of_int (n : Z) : res float :=
  let f := SF2Prim (binary_normalize prec emax n 0 false) in
  if is_infinity f then Raise OverflowError else Ret f.

(** [a + n] for a float [a] and an int [n]: the int is converted first. *)
Definition float_add_int (a : float) (n : Z) : res float :=
  f ← float_of_int n; Ret (a + f)%float.

(** ** [dict]

    A [dict] with [str] keys, as the list of its items in insertion order
    (the order [items()] and [values()] give).  The keys of a dict are
    pairwise distinct; [distinct_keys] says so of a list. *)
Definition odict (V : Type) : Type := list (string * V).

Section Dict.
Context {V : Type}.

Definition has_key (k : string) (kv : string * V) : bool := String.eqb (fst kv) k.

(** [k in d] *)
Definition odict_contains (d : odict V) (k : string) : bool :=
  existsb (has_key k) d.

(** [d[k]] *)
Definition odict_getitem (d : odict V) (k : string) : res V :=
  match find (has_key k) d with
  | Some kv => Ret (snd kv)
  | None => Raise KeyError
  end.

(** [del d[k]] *)
Definition odict_del (d : odict V) (k : string) : res (odict V) :=
  if odict_contains d k
  then Ret (List.filter (fun kv => negb (has_key k kv)) d)
  else Raise KeyError.

(** [d[k] = v]: a key that is present keeps its place, a new key goes to
    the end. *)
Fixpoint odict_set (d : odict V) (k : string) (v : V) : odict V :=
  match d with
  | [] => [(k, v)]
  | kv :: d' => if has_key k kv then (k, v) :: d' else kv :: odict_set d' k v
  end.

Definition distinct_keys (d : odict V) : Prop := List.NoDup (map fst d).
End Dict.

(** ** [sorted(l, key=...)]

    The sort is stable and uses only [<] on the keys.  The model is the
    insertion sort with that contract: an element moves past the elements
    whose key is strictly smaller and stops before the others. *)
Section SortAsc.
Context {A : Type} (key : A -> float).

Fixpoint insert_asc (x : A) (l : list A) : list A :=
  match l with
  | [] => [x]
  | y :: l' => if (key y <? key x)%float then y :: insert_asc x l' else x :: l
  end.

Fixpoint sort_asc (l : list A) : list A :=
  match l with
  | [] => []
  | x :: l' => insert_asc x (sort_asc l')
  end.

(** [x] may stand before [y] in a list in ascending order of the key. *)
Definition asc (x y : A) : Prop := (key x <=? key y)%float = true.
End SortAsc.

(** [sep.join(parts)] *)
Fixpoint join (sep : string) (parts : list string) : string :=
  match parts with
  | [] => ""
  | [p] => p
  | p :: rest => p ++ sep ++ join sep rest
  end.

End PyMore.

(* ===================================================================== *)
(** * src/utils/cache.py: [InMemoryCache] *)
(* ===================================================================== *)

Module memory_cache.
Import Py PyMore.

Section InMemoryCache.
(** The cached values ([Any]). *)
Context {V : Type}.

(** The attributes of an [InMemoryCache]; [cache] maps a key to
    [(value, expires_at)]. *)
Record InMemoryCache : Type := {
  max_size : Z;
  default_ttl_seconds : Z;
  cache : odict (V * float);
}.

(** The object after [self.cache] has been changed to [c]. *)
Definition with_cache (self : InMemoryCache) (c : odict (V * float)) : InMemoryCache :=
  {| max_size := max_size self;
     default_ttl_seconds := default_ttl_seconds self;
     cache := c |}.

(** [InMemoryCache.__init__] *)
Definition InMemoryCache_init (max_size default_ttl_seconds : Z) : InMemoryCache :=
  {| max_size := max_size; default_ttl_seconds := default_ttl_seconds; cache := [] |}.

Definition expires_at (item : string * (V * float)) : float := snd (snd item).

(** [InMemoryCache.get].  [now] is what [time.time()] returns when the call
    reads the clock; the result is the object afterwards and which
    [return] was taken: [None] for the two [return None], [Some value] for
    [return value].  The stored value is any object, Python's [None]
    included, so the caller of the code sees less than this result: see
    [returned]. *)
Definition get (self : InMemoryCache) (now : float) (key : string)
    : res (option V * InMemoryCache) :=
  if negb (odict_contains (cache self) key) then Ret (None, self) else
  entry ← odict_getitem (cache self) key;
  if float_gt now (snd entry) then
    (* Expired, remove it *)
    c ← odict_del (cache self) key;
    Ret (None, with_cache self c)
  else Ret (Some (fst entry), self).

(** The object a call of [get] evaluates to, with [none] for Python's
    [None]: a miss and a stored [none] give the same object. *)
Definition returned (none : V) (r : option V) : V :=
  match r with
  | Some value => value
  | None => none
  end.

(** The body of the [for i in range(remove_count)] loop of [_cleanup_lru]. *)
Definition remove_sorted_item (sorted_items : list (string * (V * float)))
    (i : nat) (c : odict (V * float)) : res (odict (V * float)) :=
  item ← list_getitem sorted_items i;
  odict_del c (fst item).

(** [InMemoryCache._cleanup_lru] *)
Definition _cleanup_lru (self : InMemoryCache) : res InMemoryCache :=
  if Z.of_nat (length (cache self)) <? max_size self then Ret self else
  (* Sort by expiration time (oldest first) *)
  let sorted_items := sort_asc expires_at (cache self) in
  (* Remove oldest 25% *)
  let remove_count := Z.of_nat (length (cache self)) / 4 in
  c ← for_each (remove_sorted_item sorted_items)
        (seq 0 (Z.to_nat remove_count)) (cache self);
  Ret (with_cache self c).

(** [ttl_seconds or self.default_ttl_seconds] *)
Definition effective_ttl (self : InMemoryCache) (ttl_seconds : option Z) : Z :=
  match ttl_seconds with
  | Some t => if t =? 0 then default_ttl_seconds self else t
  | None => default_ttl_seconds self
  end.

(** [InMemoryCache.put] *)
Definition put (self : InMemoryCache) (now : float) (key : string) (value : V)
    (ttl_seconds : option Z) : res InMemoryCache :=
  let ttl := effective_ttl self ttl_seconds in
  expires_at ← float_add_int now ttl;
  (* Clean up if cache is full *)
  self ← (if Z.of_nat (length (cache self)) >=? max_size self
          then _cleanup_lru self else Ret self);
  Ret (with_cache self (odict_set (cache self) key (value, expires_at))).

(** [InMemoryCache.delete] *)
Definition delete (self : InMemoryCache) (key : string) : res (bool * InMemoryCache) :=
  if odict_contains (cache self) key then
    c ← odict_del (cache self) key;
    Ret (true, with_cache self c)
  else Ret (false, self).

(** [InMemoryCache.clear] *)
Definition clear (self : InMemoryCache) : Z * InMemoryCache :=
  let count := Z.of_nat (length (cache self)) in
  (count, with_cache self []).

(** The dictionary [get_stats] returns. *)
Record Stats : Type := {
  total_entries : Z;
  active_entries : Z;
  expired_entries : Z;
  stats_max_size : Z;
  stats_default_ttl_seconds : Z;
}.

(** [InMemoryCache.get_stats] *)
Definition get_stats (self : InMemoryCache) (now : float) : Stats :=
  let expired_count :=
    Z.of_nat (length (List.filter (fun item => (expires_at item <? now)%float)
                        (cache self))) in
  {| total_entries := Z.of_nat (length (cache self));
     active_entries := Z.of_nat (length (cache self)) - expired_count;
     expired_entries := expired_count;
     stats_max_size := max_size self;
     stats_default_ttl_seconds := default_ttl_seconds self |}.
End InMemoryCache.

Arguments InMemoryCache : clear implicits.

End memory_cache.

(* ===================================================================== *)
(** * src/utils/cache.py: maintenance of the semantic cache *)
(* ===================================================================== *)

Module cache_maintenance.
Import Py cache.

(** [SemanticCache.clear]: [DELETE FROM cache_entries], returning the
    cursor's row count. *)
Definition clear : M Z :=
  rs ← select_rows;
  _ ← set_rows [];
  mret (Z.of_nat (length rs)).

(** The dictionary [optimize] returns. *)
Record Optimized : Type := {
  expired_removed : Z;
  lru_removed : Z;
  total_removed : Z;
}.

(** [SemanticCache.optimize].  The [VACUUM] that follows the two cleanups
    reclaims space and leaves the rows alone; an error in it is logged and
    dropped.  The two cleanups are called outside that [try]: a database
    error in one of them reaches the caller.  The table of [world] never
    fails, so this describes the calls in which the database answers. *)
Definition optimize (self : SemanticCache) : M Optimized :=
  expired_removed ← _cleanup_expired;
  lru_removed ← _cleanup_lru self;
  mret {| expired_removed := expired_removed;
          lru_removed := lru_removed;
          total_removed := expired_removed + lru_removed |}.

End cache_maintenance.

(* ===================================================================== *)
(** * data_ingestion/pdf_processor.py: the scans of [_find_break_point] *)
(* ===================================================================== *)

Module break_points.
Import Py.

(** [bp] is what a scan of the window [start, end) from its end downwards
    returns with the loop body [test]: the value of the body at the highest
    position of the window where it returns one. *)
Definition last_hit (start end_ : Z) (test : Z -> res (option Z)) (bp : Z) : Prop :=
  exists i, start <= i < end_ /\ test i = Ret (Some bp)
            /\ forall j, i < j < end_ -> test j = Ret None.

(** The body returns nothing anywhere in the window. *)
Definition no_hit (start end_ : Z) (test : Z -> res (option Z)) : Prop :=
  forall j, start <= j < end_ -> test j = Ret None.

End break_points.

(* ===================================================================== *)
(** * src/rag/retriever.py: [get_context_for_query] *)
(* ===================================================================== *)

Module retriever_context.
Import Py PyMore models retriever.

Section Context.
Variable encode_query : string -> res (list float).
Variable search_similar :
  list float -> Z -> option (gmap string mvalue) ->
  res (list (KnowledgeChunk * float)).
(** What an f-string makes of a title, [format(title, "")]: [str(title)]
    for the value types a title can have. *)
Variable str : mvalue -> string.

Definition nl : string := String (ascii_of_nat 10) "".

(** [f"[Source: {chunk.title}]\n{content}\n"] *)
Definition format_chunk (chunk : KnowledgeChunk) (content : string) : string :=
  "[Source: " ++ str (title chunk) ++ "]" ++ nl ++ content ++ nl.

(** [f"[Source: {chunk.title}]\n{truncated_content}...\n"] *)
Definition format_truncated (chunk : KnowledgeChunk) (truncated_content : string)
    : string :=
  "[Source: " ++ str (title chunk) ++ "]" ++ nl ++ truncated_content ++ "..." ++ nl.

(** The [for chunk in chunks] loop of [get_context_for_query] with its
    [break]; it carries [context_parts], [current_length] and
    [used_chunks]. *)
Fixpoint build_context (max_context_length : Z) (chunks : list KnowledgeChunk)
    (context_parts : list string) (current_length : Z)
    (used_chunks : list KnowledgeChunk) : list string * list KnowledgeChunk :=
  match chunks with
  | [] => (context_parts, used_chunks)
  | chunk :: rest =>
      (* Format chunk context *)
      let chunk_text := format_chunk chunk (content chunk) in
      (* Check if adding this chunk would exceed max length *)
      if current_length + len chunk_text >? max_context_length then
        (* Try to include a truncated version *)
        let remaining_space := max_context_length - current_length - 50 in
        if remaining_space >? 100 then
          let truncated_content := slice (content chunk) 0 remaining_space in
          let chunk_text := format_truncated chunk truncated_content in
          ((context_parts ++ [chunk_text])%list, (used_chunks ++ [chunk])%list)
        else (context_parts, used_chunks)
      else
        build_context max_context_length rest
          (context_parts ++ [chunk_text])%list
          (current_length + len chunk_text)
          (used_chunks ++ [chunk])%list
  end.

(** [RAGRetriever.get_context_for_query], for a plain [RAGRetriever]
    (in a [HybridRetriever] the call [self.search] is the hybrid one). *)
Definition get_context_for_query (self : RAGRetriever) (query : string)
    (max_context_length : Z) (top_k : option Z)
    : res (string * list KnowledgeChunk) :=
  chunks ← search encode_query search_similar self query top_k None None;
  match chunks with
  | [] => Ret ("", [])
  | _ =>
    (* Build context string *)
    let '(context_parts, used_chunks) :=
      build_context max_context_length chunks [] 0 [] in
    Ret (join nl context_parts, used_chunks)
  end.
End Context.

End retriever_context.

(* ===================================================================== *)
(** * src/rag/embeddings.py: [MockEmbeddingsService] *)
(* ===================================================================== *)

Module mock_embeddings.
Import Py PyMore.

Section MockEmbeddingsService.
(** [hashlib.md5(text.encode()).digest()], a byte string, and
    [struct.unpack("f", chunk)[0]], the binary32 value of four bytes as a
    Python float: both external. *)
Variable md5_digest : string -> list Byte.byte.
Variable unpack_f : list Byte.byte -> float.
(** [self.embedding_dimension] *)
Variable embedding_dimension : Z.

(** The body of the [for i in range(0, ..., 4)] loop of [encode_text]. *)
Definition hash_step (text_hash : list Byte.byte) (i : Z) (embedding : list float)
    : res (list float) :=
  let chunk := list_slice text_hash i (i + 4) in
  if Z.of_nat (length chunk) =? 4 then
    (* Convert 4 bytes to float *)
    let float_val := unpack_f chunk in
    (* Normalize to [-1, 1] range *)
    quotient ← float_div float_val 1e6%float;
    let normalized := float_max (-1)%float (float_min 1%float quotient) in
    Ret (embedding ++ [normalized])%list
  else Ret embedding.

(** [while len(embedding) < self.embedding_dimension: embedding.append(0.0)];
    [None] means the fuel ran out before the loop ended. *)
Fixpoint pad_zeros (fuel : nat) (embedding : list float) : option (list float) :=
  match fuel with
  | O => None
  | S fuel' =>
      if Z.of_nat (length embedding) <? embedding_dimension
      then pad_zeros fuel' (embedding ++ [0%float])%list
      else Some embedding
  end.

(** [MockEmbeddingsService.encode_text] *)
Definition encode_text (fuel : nat) (text : string) : option (res (list float)) :=
  (* Generate deterministic mock embedding based on text hash *)
  let text_hash := md5_digest text in
  (* Convert hash to float values *)
  match (starts ← range_step
                    (Z.min (Z.of_nat (length text_hash)) (embedding_dimension * 4)) 4;
         for_each (hash_step text_hash) starts []) with
  | Raise e => Some (Raise e)
  | Ret embedding =>
      (* Pad with zeros if needed *)
      match pad_zeros fuel embedding with
      | None => None
      | Some embedding => Some (Ret (slice_to embedding embedding_dimension))
      end
  end.

(** [MockEmbeddingsService.encode_batch]:
    [[self.encode_text(text) for text in texts]]. *)
Fixpoint encode_batch (fuel : nat) (texts : list string)
    : option (res (list (list float))) :=
  match texts with
  | [] => Some (Ret [])
  | text :: rest =>
      match encode_text fuel text with
      | None => None
      | Some (Raise e) => Some (Raise e)
      | Some (Ret embedding) =>
          match encode_batch fuel rest with
          | None => None
          | Some (Raise e) => Some (Raise e)
          | Some (Ret embeddings) => Some (Ret (embedding :: embeddings))
          end
      end
  end.
End MockEmbeddingsService.

End mock_embeddings.

(* ===================================================================== *)
(** * More concrete objects for the examples *)
(* ===================================================================== *)

Module more_fixtures.
Import Py PyMore.

(** ** A full in-memory cache of strings *)

Definition fx_memory : memory_cache.InMemoryCache string :=
  {| memory_cache.max_size := 4;
     memory_cache.default_ttl_seconds := 300;
     memory_cache.cache :=
       [("a", ("alpha", 1300%float)); ("b", ("beta", 1100%float));
        ("c", ("gamma", 1200%float)); ("d", ("delta", 1100%float))] |}.

(** The same cache after [_cleanup_lru]: ["b"] is the first of the two
    entries that expire earliest. *)
Definition fx_memory_cleaned : memory_cache.InMemoryCache string :=
  {| memory_cache.max_size := 4;
     memory_cache.default_ttl_seconds := 300;
     memory_cache.cache :=
       [("a", ("alpha", 1300%float)); ("c", ("gamma", 1200%float));
        ("d", ("delta", 1100%float))] |}.

(** ... and after [put("e", "epsilon")] at time 1000. *)
Definition fx_memory_after : memory_cache.InMemoryCache string :=
  {| memory_cache.max_size := 4;
     memory_cache.default_ttl_seconds := 300;
     memory_cache.cache :=
       [("a", ("alpha", 1300%float)); ("c", ("gamma", 1200%float));
        ("d", ("delta", 1100%float)); ("e", ("epsilon", 1300%float))] |}.

(** ** A table of three rows with distinct ids, and a cache of two *)

Definition fx_entry (rid : string) (accessed expires : Z) : cache.Row :=
  {| cache.row_id := rid; cache.query_hash := rid;
     cache.query_text := "q"; cache.query_embedding := [1%float; 0%float];
     cache.response := "r"; cache.model_used := "m";
     cache.context_hash := "{}"; cache.created_at := 0;
     cache.last_accessed := accessed; cache.access_count := 1;
     cache.ttl_seconds := 3600; cache.expires_at := expires |}.

(** The second row expired a second before the first clock reading. *)
Definition fx_table : list cache.Row :=
  [fx_entry "r1" 30 1700000000000010; fx_entry "r2" 10 1699999999000000;
   fx_entry "r3" 20 1700000000000020].

Definition fx_tiny_cache : cache.SemanticCache :=
  {| cache.similarity_threshold := 0.5%float;
     cache.default_ttl_seconds := 3600;
     cache.max_cache_size := 2 |}.

(** ** A digest and an unpacking for the mock embeddings *)

Definition fx_md5_digest (text : string) : list Byte.byte := replicate 16 Byte.x2a.
Definition fx_unpack_f (chunk : list Byte.byte) : float := 500000%float.

(** ** Titles as text *)

Definition fx_str_of (v : models.mvalue) : string :=
  match v with models.MStr s => s | _ => "" end.

End more_fixtures.

#[local] Open Scope list_scope.

(* ===================================================================== *)
(** * Facts about the runtime model *)
(* ===================================================================== *)

Module PyFacts.
Import Py.

Lemma length_string_of_list_ascii (l : list ascii) :
  String.length (string_of_list_ascii l) = length l.
Proof. induction l as [|c l IH]; simpl; congruence. Qed.

Lemma get_string_of_list_ascii (l : list ascii) (n : nat) :
  String.get n (string_of_list_ascii l) = l !! n.
Proof.
  revert n; induction l as [|c l IH]; intros [|n]; simpl; auto.
Qed.

(** What is left after [lstrip_chars] does not start with whitespace. *)
Lemma lstrip_chars_head (l : list ascii) (c : ascii) (l' : list ascii) :
  lstrip_chars l = c :: l' -> isspace c = false.
Proof.
  induction l as [|d l IH]; simpl; [discriminate|].
  destruct (isspace d) eqn:Hd; auto.
  intros [= <- _]. exact Hd.
Qed.

(** ... and so what is left after [strip_chars] does not end with it. *)
Lemma strip_chars_last (l : list ascii) (c : ascii) :
  last (strip_chars l) = Some c -> isspace c = false.
Proof.
  unfold strip_chars, rstrip_chars.
  destruct (lstrip_chars (rev (lstrip_chars l))) as [|d m] eqn:E.
  - discriminate.
  - simpl. rewrite last_snoc. intros [= <-].
    eapply lstrip_chars_head; eauto.
Qed.

Lemma get_lookup (s : string) (n : nat) :
  String.get n s = list_ascii_of_string s !! n.
Proof. revert n; induction s as [|c s IH]; intros [|n]; simpl; auto. Qed.

Lemma length_list_ascii_of_string (s : string) :
  length (list_ascii_of_string s) = String.length s.
Proof. induction s; simpl; congruence. Qed.

Lemma getitem_in_range (s : string) (i : Z) :
  0 <= i < len s -> exists c, getitem s i = Ret c /\ String.get (Z.to_nat i) s = Some c.
Proof.
  intros Hi. unfold getitem.
  destruct (Z.ltb_spec i 0); [lia|].
  destruct (Z.leb_spec 0 i); [|lia].
  destruct (Z.ltb_spec i (len s)); [|lia]. simpl.
  destruct (String.get (Z.to_nat i) s) as [c|] eqn:E; eauto.
  exfalso. rewrite get_lookup in E. apply lookup_ge_None in E.
  rewrite length_list_ascii_of_string in E. unfold len in Hi. lia.
Qed.

(** The last character of a stripped string is not whitespace. *)
Lemma strip_last_not_space (s : string) (c : ascii) :
  getitem (strip s) (len (strip s) - 1) = Ret c -> isspace c = false.
Proof.
  intros H. apply (strip_chars_last (list_ascii_of_string s)).
  unfold getitem, strip, len in *.
  rewrite length_string_of_list_ascii in *.
  set (l := strip_chars (list_ascii_of_string s)) in *.
  destruct (Z.ltb_spec (Z.of_nat (length l) - 1) 0).
  - destruct l; simpl in *; [discriminate | lia].
  - destruct (_ && _); [|discriminate].
    rewrite get_string_of_list_ascii in H.
    rewrite last_lookup.
    replace (Init.Nat.pred (length l)) with (Z.to_nat (Z.of_nat (length l) - 1)) by lia.
    destruct (l !! _); congruence.
Qed.

(** A two-character slice that equals a two-character string fits in the
    text, and its second character is read by [getitem]. *)
Lemma slice_two_chars (s : string) (i : Z) (c1 c2 : ascii) :
  0 <= i ->
  slice s i (i + 2) = String c1 (String c2 "") ->
  i + 1 < len s /\ getitem s (i + 1) = Ret c2.
Proof.
  intros Hi Hs. unfold slice in Hs.
  set (a := adjust (len s) i) in *. set (b := adjust (len s) (i + 2)) in *.
  assert (Hlen : 0 <= len s) by (unfold len; lia).
  assert (Ha : a = Z.min i (len s)).
  { unfold a, adjust. destruct (Z.ltb_spec i 0); lia. }
  assert (Hb : b = Z.min (i + 2) (len s)).
  { unfold b, adjust. destruct (Z.ltb_spec (i + 2) 0); lia. }
  assert (Hget : String.get 1 (substring (Z.to_nat a) (Z.to_nat (b - a)) s) = Some c2)
    by (rewrite Hs; reflexivity).
  destruct (le_lt_dec (Z.to_nat (b - a)) 1) as [Hm|Hm].
  - rewrite substring_correct2 in Hget by exact Hm. discriminate.
  - rewrite substring_correct1 in Hget by exact Hm.
    assert (i + 2 <= len s) by lia.
    split; [lia|].
    destruct (getitem_in_range s (i + 1)) as (c & Hc & Hg); [lia|].
    replace (1 + Z.to_nat a)%nat with (Z.to_nat (i + 1)) in Hget by lia.
    congruence.
Qed.

Lemma elem_of_range_down (hi lo i : Z) :
  In i (range_down hi lo) -> lo < i <= hi.
Proof.
  unfold range_down. rewrite in_map_iff.
  intros (k & <- & Hk). apply in_seq in Hk. lia.
Qed.

(** A loop whose body neither raises nor returns a value outside [P] ends
    without raising, with a value in [P] if it returns one. *)
Lemma for_return_inv {A} (P : A -> Prop) (body : Z -> res (option A)) (l : list Z) :
  (forall i, In i l -> exists r, body i = Ret r /\ forall a, r = Some a -> P a) ->
  exists r, for_return body l = Ret r /\ forall a, r = Some a -> P a.
Proof.
  induction l as [|i l IH]; intros Hbody; simpl.
  - exists None. split; [reflexivity | discriminate].
  - destruct (Hbody i) as (r & -> & Hr); [now left|].
    destruct r as [a|].
    + exists (Some a). auto.
    + apply IH. intros j Hj. apply Hbody. now right.
Qed.

End PyFacts.

(* ===================================================================== *)
(** * The chunker *)
(* ===================================================================== *)

Module chunker.
Import Py PyFacts pdf_processor.

Lemma isspace_newline : isspace newline = true.
Proof. reflexivity. Qed.

(** Inside a text that does not end with whitespace, a break point searched
    below [end_ < len text] is found without an exception and lies strictly
    inside the text. *)
Section BreakPoint.
Variables (text : string) (start end_ : Z).
Hypothesis Hstart : 0 <= start.
Hypothesis Hend : end_ < len text.
Hypothesis Hlast : forall c, getitem text (len text - 1) = Ret c -> isspace c = false.

(** What a scan may return: a position strictly inside the text. *)
Let inside (r : res (option Z)) : Prop :=
  exists o, r = Ret o /\ forall bp, o = Some bp -> bp < len text.

Lemma scan_inside (body : Z -> res (option Z)) :
  (forall i, start <= i < end_ -> inside (body i)) ->
  inside (for_return body (range_down (end_ - 1) (start - 1))).
Proof.
  intros Hbody. apply (for_return_inv (fun bp => bp < len text)).
  intros i Hi%elem_of_range_down. apply Hbody. lia.
Qed.

Lemma paragraph_at_inside (i : Z) : start <= i < end_ -> inside (paragraph_at text i).
Proof.
  intros Hi. unfold paragraph_at.
  destruct (String.eqb_spec (slice text i (i + 2)) paragraph_break) as [E|_].
  - eexists; split; [reflexivity|]. intros a [= <-].
    apply slice_two_chars in E as [Hlt Hget]; [|lia].
    destruct (Z.eq_dec (i + 1) (len text - 1)) as [Heq|]; [|lia].
    rewrite Heq in Hget. apply Hlast in Hget.
    rewrite isspace_newline in Hget. discriminate.
  - eexists; split; [reflexivity | discriminate].
Qed.

Lemma sentence_end_at_inside (i : Z) : start <= i < end_ -> inside (sentence_end_at text i).
Proof.
  intros Hi. unfold sentence_end_at.
  destruct (getitem_in_range text i) as (c & -> & _); [lia|]. simpl.
  destruct (char_in c ".!?" && (i + 1 <? len text)) eqn:E.
  - apply andb_true_iff in E as [_ E%Z.ltb_lt].
    destruct (getitem_in_range text (i + 1)) as (c' & -> & _); [lia|]. simpl.
    destruct (isspace c').
    + eexists; split; [reflexivity|]. intros a [= <-]. lia.
    + eexists; split; [reflexivity | discriminate].
  - eexists; split; [reflexivity | discriminate].
Qed.

Lemma word_boundary_at_inside (i : Z) : start <= i < end_ -> inside (word_boundary_at text i).
Proof.
  intros Hi. unfold word_boundary_at.
  destruct (getitem_in_range text i) as (c & -> & _); [lia|]. simpl.
  destruct (isspace c).
  - eexists; split; [reflexivity|]. intros a [= <-]. lia.
  - eexists; split; [reflexivity | discriminate].
Qed.

(** Inside a text that does not end with whitespace, a break point searched
    below [end_ < len text] is found without an exception and lies strictly
    inside the text. *)
Lemma find_break_point_in_text :
  exists bp, _find_break_point text start end_ = Ret bp /\ bp < len text.
Proof.
  unfold _find_break_point.
  destruct (scan_inside _ paragraph_at_inside) as (r1 & -> & H1). simpl.
  destruct r1 as [bp|]; [eauto|].
  destruct (scan_inside _ sentence_end_at_inside) as (r2 & -> & H2). simpl.
  destruct r2 as [bp|]; [eauto|].
  destruct (scan_inside _ word_boundary_at_inside) as (r3 & -> & H3). simpl.
  destruct r3 as [bp|]; eauto.
Qed.
End BreakPoint.

Lemma truthy_len (s : string) : 0 < len s -> truthy s = true.
Proof. destruct s; simpl; [unfold len; simpl; lia | reflexivity]. Qed.

(** On a stripped text longer than [chunk_size] the first pass through the
    loop ends in the comparison of [start] with the list [chunks]. *)
Lemma chunk_text_TypeError (self : PDFProcessor) (text : string) (fuel : nat) :
  0 <= chunk_overlap self < chunk_size self ->
  chunk_size self < len (strip text) ->
  chunk_text (S fuel) self text = Some (Raise TypeError).
Proof.
  intros Hov Hlen. unfold chunk_text.
  rewrite truthy_len by lia. simpl.
  destruct (Z.leb_spec (len (strip text)) (chunk_size self)); [lia|].
  cbn -[_find_break_point strip len Z.add Z.sub Z.max].
  destruct (Z.ltb_spec 0 (len (strip text))); [|lia].
  cbn -[_find_break_point strip len Z.add Z.sub Z.max].
  destruct (Z.ltb_spec (0 + chunk_size self) (len (strip text))); [|lia].
  destruct (find_break_point_in_text (strip text)
              (Z.max (0 + chunk_size self - chunk_overlap self) 0) (0 + chunk_size self))
    as (bp & -> & Hbp); [lia | lia | apply strip_last_not_space |].
  cbn -[strip len Z.add Z.sub Z.max].
  set (end_ := if bp >? 0 then bp else 0 + chunk_size self).
  assert (Hend : end_ < len (strip text)) by (unfold end_; destruct (bp >? 0); lia).
  destruct (Z.geb_spec end_ (len (strip text))); [lia|].
  reflexivity.
Qed.

Lemma chunk_text_no_fuel (self : PDFProcessor) (text : string) :
  chunk_size self < len (strip text) -> 0 < chunk_size self ->
  chunk_text O self text = None.
Proof.
  intros Hlen Hcs. unfold chunk_text. rewrite truthy_len by lia. simpl.
  destruct (Z.leb_spec (len (strip text)) (chunk_size self)); [lia | reflexivity].
Qed.

(** C2 (the code breaks the claim).  The claim: for a text whose stripped
    length exceeds [chunk_size], with [chunk_size > chunk_overlap >= 0],
    [chunk_text] terminates, raises nothing and returns the list of chunks,
    each window starting after the previous one.  The code: in the first
    pass through the loop the window end stays inside the text, so the
    loop does not [break], and the progress check [start <= chunks]
    compares an integer with a list.  On every such text [chunk_text]
    raises [TypeError] as soon as the loop may run, and no amount of fuel
    makes it return a list. *)
Theorem chunk_text_raises_TypeError (self : PDFProcessor) (text : string) :
  0 <= chunk_overlap self < chunk_size self ->
  chunk_size self < len (strip text) ->
  (forall fuel, fuel <> O -> chunk_text fuel self text = Some (Raise TypeError))
  /\ (forall fuel chunks, chunk_text fuel self text <> Some (Ret chunks)).
Proof.
  intros Hov Hlen. split.
  - intros [|fuel] Hfuel; [congruence|]. now apply chunk_text_TypeError.
  - intros [|fuel] chunks.
    + rewrite chunk_text_no_fuel by lia. discriminate.
    + rewrite chunk_text_TypeError by assumption. discriminate.
Qed.

(** A 20-character text, windows of 10 characters with an overlap of 2. *)
Lemma chunk_text_raises_TypeError_witness :
  chunk_text 1 {| chunk_size := 10; chunk_overlap := 2; min_chunk_size := 1 |}
    "aaaaaaaaaaaaaaaaaaaa" = Some (Raise TypeError).
Proof.
  apply (chunk_text_raises_TypeError
           {| chunk_size := 10; chunk_overlap := 2; min_chunk_size := 1 |}
           "aaaaaaaaaaaaaaaaaaaa").
  - simpl. lia.
  - vm_compute. reflexivity.
  - discriminate.
Defined.

(** The same failure on prose with sentence and paragraph breaks, where a
    break point is found before the window end. *)
Example chunk_text_prose :
  chunk_text 8 {| chunk_size := 24; chunk_overlap := 8; min_chunk_size := 4 |}
    "Solar panels. Battery storage systems keep the lights on."
  = Some (Raise TypeError).
Proof. vm_compute. reflexivity. Qed.

(** A text that fits in one window is returned whole when it reaches the
    minimum size, and dropped otherwise. *)
Lemma chunk_text_short (self : PDFProcessor) (text : string) (fuel : nat) :
  len (strip text) <= chunk_size self ->
  chunk_text fuel self text =
    Some (Ret (if truthy (strip text) && (len (strip text) >=? min_chunk_size self)
               then [strip text] else [])).
Proof.
  intros Hlen. unfold chunk_text.
  destruct (truthy (strip text)); simpl; [|reflexivity].
  destruct (Z.leb_spec (len (strip text)) (chunk_size self)); [|lia].
  destruct (len (strip text) >=? min_chunk_size self); reflexivity.
Qed.

End chunker.

(* ===================================================================== *)
(** * The order on floats *)
(* ===================================================================== *)

(** Comparisons of binary64 values, read off the specification of the
    primitive operations: away from NaN, [<=] is a total preorder and [<]
    its strict part. *)
Module FloatOrder.
Import Py.
#[local] Open Scope float_scope.

Ltac sf_compare_cases :=
  repeat match goal with
  | H : context [Pos.compare_cont Eq ?a ?b] |- _ =>
      change (Pos.compare_cont Eq a b) with (Pos.compare a b) in H
  | |- context [Pos.compare_cont Eq ?a ?b] =>
      change (Pos.compare_cont Eq a b) with (Pos.compare a b)
  end;
  repeat match goal with
  | H : context [Z.compare ?a ?b] |- _ =>
      destruct (Z.compare_spec a b); simpl in H; try discriminate H
  | |- context [Z.compare ?a ?b] =>
      destruct (Z.compare_spec a b); simpl
  | H : context [Pos.compare ?a ?b] |- _ =>
      destruct (Pos.compare_spec a b); simpl in H; try discriminate H
  | |- context [Pos.compare ?a ?b] =>
      destruct (Pos.compare_spec a b); simpl
  end;
  subst; try reflexivity; try discriminate; try lia.

Ltac sf_order :=
  unfold SFleb, SFltb, SFeqb;
  repeat match goal with
  | x : spec_float |- _ => destruct x as [[]|[]| |[] ? ?]
  end;
  simpl; intros; try reflexivity; try discriminate; sf_compare_cases.

Lemma SFleb_trans (x y z : spec_float) :
  SFleb x y = true -> SFleb y z = true -> SFleb x z = true.
Proof. sf_order. Qed.

Lemma SFltb_leb_trans (x y z : spec_float) :
  SFltb x y = true -> SFleb y z = true -> SFltb x z = true.
Proof. sf_order. Qed.

Lemma SFleb_ltb_trans (x y z : spec_float) :
  SFleb x y = true -> SFltb y z = true -> SFltb x z = true.
Proof. sf_order. Qed.

Lemma SFleb_total (x y : spec_float) :
  SFeqb x x = true -> SFeqb y y = true -> SFltb x y = false -> SFleb y x = true.
Proof. sf_order. Qed.

Lemma SFleb_not_nan (x y : spec_float) :
  SFleb x y = true -> SFeqb x x = true /\ SFeqb y y = true.
Proof. sf_order; split; sf_compare_cases. Qed.

Lemma SFltb_leb (x y : spec_float) : SFltb x y = true -> SFleb x y = true.
Proof. sf_order. Qed.

Lemma SFleb_not_ltb (x y : spec_float) : SFleb x y = true -> SFltb y x = false.
Proof. sf_order. Qed.

Lemma SFeqb_ltb (x y v : spec_float) :
  SFeqb x v = true -> SFltb x y = true -> SFeqb y v = false.
Proof. sf_order. Qed.

Lemma SFeqb_leb (t x v : spec_float) :
  SFeqb x v = true -> SFleb t x = SFleb t v.
Proof. sf_order. Qed.

Ltac to_spec := unfold not_nan, float_ge, float_gt; rewrite ?FloatAxioms.ltb_spec, ?FloatAxioms.leb_spec, ?FloatAxioms.eqb_spec.

Lemma leb_trans (a b c : float) :
  (a <=? b) = true -> (b <=? c) = true -> (a <=? c) = true.
Proof. to_spec. apply SFleb_trans. Qed.

Lemma ltb_leb_trans (a b c : float) :
  (a <? b) = true -> (b <=? c) = true -> (a <? c) = true.
Proof. to_spec. apply SFltb_leb_trans. Qed.

Lemma leb_ltb_trans (a b c : float) :
  (a <=? b) = true -> (b <? c) = true -> (a <? c) = true.
Proof. to_spec. apply SFleb_ltb_trans. Qed.

Lemma leb_total (a b : float) :
  not_nan a -> not_nan b -> (a <? b) = false -> (b <=? a) = true.
Proof. to_spec. apply SFleb_total. Qed.

Lemma leb_not_nan (a b : float) :
  (a <=? b) = true -> not_nan a /\ not_nan b.
Proof. to_spec. apply SFleb_not_nan. Qed.

Lemma ltb_leb (a b : float) : (a <? b) = true -> (a <=? b) = true.
Proof. to_spec. apply SFltb_leb. Qed.

Lemma leb_not_ltb (a b : float) : (a <=? b) = true -> (b <? a) = false.
Proof. to_spec. apply SFleb_not_ltb. Qed.

Lemma eqb_ltb (a b v : float) :
  (a =? v) = true -> (a <? b) = true -> (b =? v) = false.
Proof. to_spec. apply SFeqb_ltb. Qed.

Lemma eqb_leb (t a v : float) : (a =? v) = true -> (t <=? a) = (t <=? v).
Proof. to_spec. apply SFeqb_leb. Qed.

End FloatOrder.

(* ===================================================================== *)
(** * [list.sort(key=..., reverse=True)] and slices *)
(* ===================================================================== *)

Module SortFacts.
Import Py FloatOrder.
#[local] Open Scope float_scope.

Section Sort.
Context {A : Type} (key : A -> float).

Lemma insert_desc_perm (x : A) (l : list A) : insert_desc key x l ≡ₚ x :: l.
Proof.
  induction l as [|y l IH]; simpl; [reflexivity|].
  destruct (key x <? key y); [|reflexivity].
  rewrite IH. apply Permutation_swap.
Qed.

Lemma sort_desc_perm (l : list A) : sort_desc key l ≡ₚ l.
Proof.
  induction l as [|x l IH]; simpl; [reflexivity|].
  rewrite insert_desc_perm. now rewrite IH.
Qed.

Lemma sort_desc_length (l : list A) : length (sort_desc key l) = length l.
Proof. apply Permutation_length, sort_desc_perm. Qed.

Lemma sort_desc_not_nan (l : list A) : keys_not_nan key l -> keys_not_nan key (sort_desc key l).
Proof. unfold keys_not_nan. now rewrite sort_desc_perm. Qed.

(** An element that is not below any other stays in front. *)
Lemma insert_desc_front (x : A) (l : list A) :
  Forall (fun z => (key x <? key z) = false) l -> insert_desc key x l = x :: l.
Proof.
  destruct l as [|y l]; simpl; [reflexivity|].
  intros H. inversion_clear H as [|? ? Hy _]. now rewrite Hy.
Qed.

Lemma insert_desc_sorted (x : A) (l : list A) :
  not_nan (key x) -> keys_not_nan key l ->
  StronglySorted (desc key) l -> StronglySorted (desc key) (insert_desc key x l).
Proof.
  intros Hx Hl Hs. induction Hs as [|y l Hs IH Hy]; simpl.
  - repeat constructor.
  - inversion_clear Hl as [|? ? Hny Hnl].
    destruct (key x <? key y) eqn:E.
    + constructor; [auto|].
      rewrite insert_desc_perm. constructor; [|exact Hy].
      now apply ltb_leb.
    + assert (Hyx : desc key x y) by (now apply leb_total).
      constructor; [now constructor|].
      constructor; [exact Hyx|].
      eapply Forall_impl; [exact Hy|].
      intros z Hz. unfold desc in *. eapply leb_trans; eauto.
Qed.

(** The result is in descending order of the key. *)
Lemma sort_desc_sorted (l : list A) :
  keys_not_nan key l -> StronglySorted (desc key) (sort_desc key l).
Proof.
  induction l as [|x l IH]; simpl; intros Hl; [constructor|].
  inversion_clear Hl.
  apply insert_desc_sorted; auto. now apply sort_desc_not_nan.
Qed.

Lemma filter_insert_desc_eq (v : float) (x : A) (l : list A) :
  List.filter (fun c => key c =? v) (insert_desc key x l)
  = List.filter (fun c => key c =? v) (x :: l).
Proof.
  induction l as [|y l IH]; [reflexivity|].
  cbn [insert_desc]. destruct (key x <? key y) eqn:E; [|reflexivity].
  cbn [List.filter] in *. rewrite IH.
  destruct (key x =? v) eqn:Ex; [|reflexivity].
  now rewrite (eqb_ltb _ _ _ Ex E).
Qed.

(** Stability: the elements with a given key keep their order. *)
Lemma sort_desc_stable (v : float) (l : list A) :
  List.filter (fun c => key c =? v) (sort_desc key l)
  = List.filter (fun c => key c =? v) l.
Proof.
  induction l as [|x l IH]; [reflexivity|].
  cbn [sort_desc]. rewrite filter_insert_desc_eq. cbn [List.filter].
  now rewrite IH.
Qed.

Lemma filter_insert_desc (p : A -> bool) (x : A) (l : list A) :
  not_nan (key x) -> keys_not_nan key l -> StronglySorted (desc key) l ->
  List.filter p (insert_desc key x l)
  = if p x then insert_desc key x (List.filter p l) else List.filter p l.
Proof.
  intros Hx Hl Hs. induction Hs as [|y l Hs IH Hy].
  - simpl. now destruct (p x).
  - inversion_clear Hl as [|? ? Hny Hnl].
    cbn [insert_desc]. destruct (key x <? key y) eqn:E.
    + cbn [List.filter]. rewrite IH by assumption.
      destruct (p x), (p y); cbn [insert_desc]; rewrite ?E; reflexivity.
    + cbn [List.filter]. destruct (p x); [|reflexivity].
      rewrite insert_desc_front; [reflexivity|].
      assert (Hyx : (key y <=? key x) = true) by (now apply leb_total).
      assert (Hall : Forall (fun z => (key x <? key z) = false) (y :: l)).
      { constructor; [exact E|].
        eapply Forall_impl; [exact Hy|]. intros z Hz.
        apply leb_not_ltb. eapply leb_trans; eauto. }
      destruct (p y).
      * inversion_clear Hall. constructor; [assumption|].
        rewrite List.Forall_forall in *. intros z [Hz _]%filter_In. auto.
      * inversion_clear Hall.
        rewrite List.Forall_forall in *. intros z [Hz _]%filter_In. auto.
Qed.

(** Sorting commutes with filtering. *)
Lemma filter_sort_desc (p : A -> bool) (l : list A) :
  keys_not_nan key l ->
  List.filter p (sort_desc key l) = sort_desc key (List.filter p l).
Proof.
  induction l as [|x l IH]; intros Hl; [reflexivity|].
  inversion_clear Hl as [|? ? Hx Hl'].
  cbn [sort_desc List.filter].
  rewrite filter_insert_desc;
    [| assumption | now apply sort_desc_not_nan | now apply sort_desc_sorted].
  rewrite IH by assumption. now destruct (p x).
Qed.

(** In a descending list the elements that reach a threshold come first. *)
Lemma filter_ge_take (t : float) (l : list A) :
  StronglySorted (desc key) l ->
  exists n, List.filter (fun c => float_ge (key c) t) l = take n l.
Proof.
  induction 1 as [|y l Hs [n IH] Hy].
  - exists O. reflexivity.
  - cbn [List.filter]. destruct (float_ge (key y) t) eqn:E.
    + exists (S n). simpl. now rewrite IH.
    + exists O. simpl. clear IH Hs.
      induction Hy as [|z l Hz Hy IH]; [reflexivity|].
      cbn [List.filter]. destruct (float_ge (key z) t) eqn:Ez; [|exact IH].
      unfold float_ge, desc in *.
      rewrite (leb_trans _ _ _ Ez Hz) in E. discriminate.
Qed.
End Sort.

(** ** Slices *)

Lemma take_prefix_le {A} (l : list A) (i j : nat) :
  (i <= j)%nat -> take i l `prefix_of` take j l.
Proof.
  intros Hij. replace i with (Nat.min i j) by lia.
  rewrite <- take_take. apply prefix_take.
Qed.

(** [l[:k]] of a prefix is a prefix of [l[:k]]. *)
Lemma slice_to_take {A} (l : list A) (n : nat) (k : Z) :
  slice_to (take n l) k `prefix_of` slice_to l k.
Proof.
  unfold slice_to. rewrite take_take, length_take.
  apply take_prefix_le. unfold adjust.
  destruct (Z.ltb_spec k 0); lia.
Qed.

Lemma slice_to_length {A} (l : list A) (k : Z) :
  (0 <= k)%Z -> (Z.of_nat (length (slice_to l k)) <= k)%Z.
Proof.
  intros Hk. unfold slice_to, adjust. rewrite length_take.
  destruct (Z.ltb_spec k 0); lia.
Qed.

Lemma slice_to_prefix {A} (l : list A) (k : Z) : slice_to l k `prefix_of` l.
Proof. apply prefix_take. Qed.

Lemma prefix_In {A} (l1 l2 : list A) (x : A) :
  l1 `prefix_of` l2 -> In x l1 -> In x l2.
Proof. intros [k ->] H. apply in_or_app. now left. Qed.

Lemma prefix_filter {A} (p : A -> bool) (l1 l2 : list A) :
  l1 `prefix_of` l2 -> List.filter p l1 `prefix_of` List.filter p l2.
Proof. intros [k ->]. rewrite List.filter_app. now apply prefix_app_r. Qed.

Lemma prefix_StronglySorted {A} (R : A -> A -> Prop) (l1 l2 : list A) :
  l1 `prefix_of` l2 -> StronglySorted R l2 -> StronglySorted R l1.
Proof.
  intros [k ->]. induction l1 as [|x l1 IH]; simpl; intros H; [constructor|].
  inversion_clear H as [|? ? Hs Hx]. constructor; [auto|].
  rewrite Forall_app in Hx. tauto.
Qed.

End SortFacts.

(* ===================================================================== *)
(** * The vector store *)
(* ===================================================================== *)

Module vector_store_spec.
Import Py models vector_store fixtures.
#[local] Open Scope float_scope.

(** A loop that appends one element per iteration returns its accumulator
    extended by one element per item, in order. *)
Lemma for_each_append {A B} (R : A -> B -> Prop)
    (body : A -> list B -> res (list B)) (l : list A) :
  (forall x acc acc', body x acc = Ret acc' -> exists y, acc' = (acc ++ [y])%list /\ R x y) ->
  forall acc out, for_each body l acc = Ret out ->
  exists ys, out = (acc ++ ys)%list /\ Forall2 R l ys.
Proof.
  intros Hbody. induction l as [|x l IH]; simpl; intros acc out Hout.
  - injection Hout as <-. exists []. rewrite app_nil_r. split; [reflexivity | constructor].
  - destruct (body x acc) as [acc'|e] eqn:Hx; [|discriminate].
    apply Hbody in Hx as (y & -> & Hy).
    apply IH in Hout as (ys & -> & Hys).
    exists (y :: ys). rewrite <- app_assoc. split; [reflexivity | now constructor].
Qed.

Lemma KnowledgeChunk_init_fields uid doc_id title document emb md ca ua ci score c :
  KnowledgeChunk_init uid doc_id title document emb md ca ua ci score = Ret c ->
  id c = uid /\ embedding c = emb /\ relevance_score c = score
  /\ document = Some (content c).
Proof.
  unfold KnowledgeChunk_init.
  destruct (negb (mvalue_truthy doc_id)); [discriminate|].
  destruct document as [d|]; [|discriminate].
  destruct (negb (truthy d)); [discriminate|].
  destruct (mvalue_negative ci) as [[]|]; simpl; try discriminate.
  intros [= <-]. simpl. auto.
Qed.

Section ChromaVectorStore.
Variable collection_query :
  list float -> Z -> option (gmap string mvalue) -> res QueryResult.
Variable collection_get : string -> res GetResult.
Variable UUID : string -> res string.


Lemma lookup_enumerate {A} (l : list A) (start i j : nat) (x : A) :
  combine (seq start (length l)) l !! i = Some (j, x) -> j = (start + i)%nat.
Proof.
  revert start i. induction l as [|y l IH]; intros start [|i]; simpl; try discriminate.
  - intros [= <- _]. lia.
  - intros H%IH. lia.
Qed.

Lemma list_getitem_Ret {A} (l : list A) (i : nat) (x : A) :
  list_getitem l i = Ret x -> l !! i = Some x.
Proof. unfold list_getitem. destruct (l !! i); congruence. Qed.

Lemma search_row_spec results query_embedding row acc acc' :
  search_row UUID results query_embedding row acc = Ret acc' ->
  exists cs, acc' = (acc ++ [cs])%list /\ row_chunk results query_embedding row cs.
Proof.
  destruct row as [i chunk_id]. unfold search_row.
  destruct (list_getitem (metadatas results) 0) as [ms|]; simpl; [|discriminate].
  destruct (list_getitem ms i) as [metadata|]; simpl; [|discriminate].
  destruct (list_getitem (documents results) 0) as [docs|]; simpl; [|discriminate].
  destruct (list_getitem docs i) as [document|]; simpl; [|discriminate].
  assert (Hd : forall (k : float -> res (list (KnowledgeChunk * float))),
     (match distances results with
      | Some d => ds ← list_getitem d 0; list_getitem ds i
      | None => Ret 0
      end ≫= k) = Ret acc' ->
     exists distance, reported_distance results i = Some distance /\ k distance = Ret acc').
  { intros k. unfold reported_distance. destruct (distances results) as [d|]; simpl.
    - destruct (list_getitem d 0) as [ds|] eqn:E0; simpl; [|discriminate].
      destruct (list_getitem ds i) as [x|] eqn:Ei; simpl; [|discriminate].
      apply list_getitem_Ret in E0, Ei. rewrite E0. simpl. eauto.
    - eauto. }
  intros H. apply Hd in H as (distance & Hdist & H). clear Hd.
  destruct (UUID chunk_id) as [uid|]; simpl in H; [|discriminate].
  destruct (dict_getitem metadata "document_id") as [doc_id|]; simpl in H; [|discriminate].
  destruct (dict_getitem metadata "title") as [title|]; simpl in H; [|discriminate].
  destruct (KnowledgeChunk_init _ _ _ _ _ _ _ _ _ _) as [c|] eqn:Hc; simpl in H; [|discriminate].
  injection H as <-.
  apply KnowledgeChunk_init_fields in Hc as (_ & Hemb & Hscore & _).
  eexists; split; [reflexivity|]. exists distance. simpl. auto.
Qed.

(** [search_similar] catches every exception. *)
Lemma search_similar_returns query_embedding n_results metadata_filter :
  exists l, search_similar collection_query UUID query_embedding n_results metadata_filter = Ret l.
Proof.
  unfold search_similar, try_except.
  destruct (_ ≫= _); eauto.
Qed.

(** Row by row, what [search_similar] returns from a query result. *)
Lemma search_similar_rows query_embedding n_results metadata_filter l :
  search_similar collection_query UUID query_embedding n_results metadata_filter = Ret l ->
  l = [] \/
  exists results ids0,
    collection_query query_embedding n_results metadata_filter = Ret results
    /\ head (ids results) = Some ids0
    /\ Forall2 (row_chunk results query_embedding)
         (combine (seq 0 (length ids0)) ids0) l.
Proof.
  unfold search_similar, try_except.
  destruct (collection_query _ _ _) as [results|]; simpl; [|intros [= <-]; now left].
  destruct (ids results) as [|ids0 rest] eqn:Hids; [intros [= <-]; now left|].
  destruct ids0 as [|i0 ids0]; [intros [= <-]; now left|].
  destruct (for_each _ _ _) as [out|] eqn:Hloop; [|intros [= <-]; now left].
  intros [= <-]. right. exists results, (i0 :: ids0).
  split; [reflexivity|]. split; [now rewrite Hids|].
  eapply for_each_append in Hloop as (ys & -> & Hys); [exact Hys|].
  intros row acc acc'. apply search_row_spec.
Qed.

(** C3 (amended).  For every row of the query result, the score paired with
    the returned chunk, which is also the chunk's [relevance_score], is
    [1.0 - distance] as computed in binary64, where [distance] is what the
    index reports for the row ([0.0] when it reports no distances).  The
    value is not clamped. *)
Theorem search_similar_score query_embedding n_results metadata_filter l i c s :
  search_similar collection_query UUID query_embedding n_results metadata_filter = Ret l ->
  l !! i = Some (c, s) ->
  exists results distance,
    collection_query query_embedding n_results metadata_filter = Ret results
    /\ reported_distance results i = Some distance
    /\ s = 1 - distance
    /\ relevance_score c = s.
Proof.
  intros Hl Hi. apply search_similar_rows in Hl as [-> | (results & ids0 & Hq & _ & Hrows)].
  - discriminate.
  - exists results.
    destruct (Forall2_lookup_r _ _ _ _ _ Hrows Hi) as ([j cid] & Hj & d & Hd & Hs & Hr & _).
    apply lookup_enumerate in Hj as ->. simpl in *. eauto.
Qed.

(** The [embedding] field of a reconstructed chunk: the query vector for
    [search_similar], the empty list for [get_chunk]. *)
Lemma search_similar_embedding query_embedding n_results metadata_filter l c s :
  search_similar collection_query UUID query_embedding n_results metadata_filter = Ret l ->
  In (c, s) l -> embedding c = query_embedding.
Proof.
  intros Hl Hin. apply search_similar_rows in Hl as [-> | (results & ids0 & _ & _ & Hrows)].
  - destruct Hin.
  - apply list_elem_of_In, list_elem_of_lookup in Hin as [i Hi].
    destruct (Forall2_lookup_r _ _ _ _ _ Hrows Hi) as (row & _ & d & _ & _ & _ & He).
    exact He.
Qed.

Lemma get_chunk_embedding chunk_id c :
  get_chunk collection_get chunk_id = Ret (Some c) -> embedding c = [].
Proof.
  unfold get_chunk, try_except.
  destruct (collection_get chunk_id) as [results|]; simpl; [|discriminate].
  destruct (get_ids results); [discriminate|].
  destruct (list_getitem (get_metadatas results) 0) as [metadata|]; simpl; [|discriminate].
  destruct (list_getitem (get_documents results) 0) as [document|]; simpl; [|discriminate].
  destruct (dict_getitem metadata "document_id") as [doc_id|]; simpl; [|discriminate].
  destruct (dict_getitem metadata "title") as [title|]; simpl; [|discriminate].
  destruct (KnowledgeChunk_init _ _ _ _ _ _ _ _ _ _) as [c'|] eqn:Hc; simpl; [|discriminate].
  intros [= <-]. now apply KnowledgeChunk_init_fields in Hc as (_ & Hemb & _).
Qed.
End ChromaVectorStore.

(** The first row of the example index, reported at distance 1.5. *)
Lemma search_similar_score_witness :
  exists results distance,
    fx_collection_query [1; 0] 8%Z None = Ret results
    /\ reported_distance results 0 = Some distance
    /\ -0.5 = 1 - distance
    /\ relevance_score (fx_solar [1; 0] (-0.5)) = -0.5.
Proof.
  apply (search_similar_score fx_collection_query fx_UUID [1; 0] 8%Z None
           (fx_hits [1; 0]) 0).
  - vm_compute. reflexivity.
  - reflexivity.
Defined.

(** C3 (counterexample).  The index reports the distance 1.5 for its first
    row.  Clamping [1 - 1.5] to [0, 1] gives 0.0; [search_similar] returns
    the chunk with the score -0.5, which is below 0. *)
Lemma search_similar_score_not_clamped :
  search_similar fx_collection_query fx_UUID [1; 0] 8%Z None = Ret (fx_hits [1; 0])
  /\ fx_hits [1; 0] !! O = Some (fx_solar [1; 0] (-0.5), -0.5)
  /\ reported_distance fx_results 0 = Some 1.5
  /\ float_max 0 (float_min 1 (1 - 1.5)) = 0
  /\ float_ge (-0.5) 0 = false.
Proof. vm_compute. repeat split; reflexivity. Qed.

End vector_store_spec.

(* ===================================================================== *)
(** * The retriever *)
(* ===================================================================== *)

Module retriever_spec.
Import Py models retriever FloatOrder SortFacts fixtures.
#[local] Open Scope float_scope.

Lemma relevance_score_set (c : KnowledgeChunk) (s : float) :
  relevance_score (set_relevance_score c s) = s.
Proof. reflexivity. Qed.

Lemma filter_by_threshold_scores (t : float) (results : list (KnowledgeChunk * float)) :
  Forall (fun c => float_ge (relevance_score c) t = true) (filter_by_threshold t results).
Proof.
  unfold filter_by_threshold. rewrite List.Forall_forall.
  intros c ([c0 s] & <- & [_ Hs]%filter_In)%in_map_iff. exact Hs.
Qed.

Lemma filter_by_threshold_not_nan (t : float) (results : list (KnowledgeChunk * float)) :
  keys_not_nan relevance_score (filter_by_threshold t results).
Proof.
  eapply Forall_impl; [apply filter_by_threshold_scores|].
  intros c Hc. now apply leb_not_nan in Hc as [_ ?].
Qed.

(** Raising the threshold filters the chunks kept at the lower one. *)
Lemma filter_by_threshold_mono (t1 t2 : float) (results : list (KnowledgeChunk * float)) :
  (t1 <? t2) = true ->
  filter_by_threshold t2 results
  = List.filter (fun c => float_ge (relevance_score c) t2) (filter_by_threshold t1 results).
Proof.
  intros Ht. unfold filter_by_threshold.
  induction results as [|[c s] results IH]; [reflexivity|].
  cbn [List.filter snd fst]. destruct (float_ge s t2) eqn:E2.
  - assert (E1 : float_ge s t1 = true).
    { unfold float_ge in *. eapply leb_trans; [apply ltb_leb|]; eassumption. }
    rewrite E1. cbn [map List.filter fst snd]. rewrite relevance_score_set, E2.
    now rewrite IH.
  - destruct (float_ge s t1); [|exact IH].
    cbn [map List.filter fst snd]. rewrite relevance_score_set, E2. exact IH.
Qed.

(** The chunks with a given score, before and after the threshold filter. *)
Lemma filter_by_threshold_eqb (t v : float) (results : list (KnowledgeChunk * float)) :
  List.filter (fun c => relevance_score c =? v) (filter_by_threshold t results)
  = if t <=? v
    then List.filter (fun c => relevance_score c =? v)
           (map (fun p => set_relevance_score (fst p) (snd p)) results)
    else [].
Proof.
  unfold filter_by_threshold.
  induction results as [|[c s] results IH].
  - simpl. now destruct (t <=? v).
  - cbn [List.filter map fst snd]. rewrite relevance_score_set.
    destruct (s =? v) eqn:Ev.
    + unfold float_ge at 1. rewrite (eqb_leb t _ _ Ev).
      destruct (t <=? v) eqn:Et.
      * cbn [map List.filter fst snd]. rewrite relevance_score_set, Ev. now rewrite IH.
      * exact IH.
    + destruct (float_ge s t); [|exact IH].
      cbn [map List.filter fst snd]. rewrite relevance_score_set, Ev. exact IH.
Qed.

Section Retriever.
Variable encode_query : string -> res (list float).
Variable search_similar :
  list float -> Z -> option (gmap string mvalue) ->
  res (list (KnowledgeChunk * float)).

(** [search] on a non-blank query, case by case. *)
Lemma search_cases (self : RAGRetriever) (query : string) (top_k : option Z)
    (metadata_filter : option (gmap string mvalue)) (threshold : option float) :
  truthy (strip query) = true ->
  search encode_query search_similar self query top_k metadata_filter threshold
  = match encode_query query with
    | Raise _ => Ret []
    | Ret query_embedding =>
        match search_similar query_embedding
                (default (default_top_k self) top_k * 2) metadata_filter with
        | Raise _ => Ret []
        | Ret results =>
            Ret (ranked (default (similarity_threshold self) threshold)
                   (default (default_top_k self) top_k) results)
        end
    end.
Proof.
  intros Hq. unfold search, try_except, ranked. rewrite Hq. simpl.
  destruct (encode_query query); simpl; [|reflexivity].
  destruct (search_similar _ _ _); reflexivity.
Qed.

Lemma search_blank (self : RAGRetriever) (query : string) (top_k : option Z)
    (metadata_filter : option (gmap string mvalue)) (threshold : option float) :
  truthy (strip query) = false ->
  search encode_query search_similar self query top_k metadata_filter threshold = Ret [].
Proof. intros Hq. unfold search. now rewrite Hq. Qed.

(** C4.  Whatever the embeddings service and the vector store do, [search]
    returns a list; it returns the empty list when the service raises on
    the query and when the store raises on the query embedding. *)
Theorem search_never_raises (self : RAGRetriever) (query : string) (top_k : option Z)
    (metadata_filter : option (gmap string mvalue)) (threshold : option float) :
  (exists l,
     search encode_query search_similar self query top_k metadata_filter threshold = Ret l)
  /\ (raises (encode_query query) ->
      search encode_query search_similar self query top_k metadata_filter threshold = Ret [])
  /\ (forall query_embedding,
        encode_query query = Ret query_embedding ->
        raises (search_similar query_embedding
                  (default (default_top_k self) top_k * 2) metadata_filter) ->
        search encode_query search_similar self query top_k metadata_filter threshold = Ret []).
Proof.
  destruct (truthy (strip query)) eqn:Hq.
  - rewrite search_cases by exact Hq. repeat split.
    + destruct (encode_query query); [|eauto].
      destruct (search_similar _ _ _); eauto.
    + intros [e ->]. reflexivity.
    + intros qe -> [e ->]. reflexivity.
  - rewrite search_blank by exact Hq. eauto.
Qed.

Lemma ranked_prefix (t : float) (k : Z) (results : list (KnowledgeChunk * float)) :
  ranked t k results `prefix_of` sort_desc relevance_score (filter_by_threshold t results).
Proof. apply slice_to_prefix. Qed.

Lemma ranked_scores (t : float) (k : Z) (results : list (KnowledgeChunk * float)) :
  Forall (fun c => float_ge (relevance_score c) t = true) (ranked t k results).
Proof.
  rewrite List.Forall_forall. intros c Hc.
  apply (prefix_In _ _ _ (ranked_prefix t k results)) in Hc.
  apply (Permutation_in _ (sort_desc_perm _ _)) in Hc.
  revert c Hc. rewrite <- List.Forall_forall. apply filter_by_threshold_scores.
Qed.

Lemma ranked_sorted (t : float) (k : Z) (results : list (KnowledgeChunk * float)) :
  StronglySorted (desc relevance_score) (ranked t k results).
Proof.
  eapply prefix_StronglySorted; [apply ranked_prefix|].
  apply sort_desc_sorted, filter_by_threshold_not_nan.
Qed.

Lemma ranked_stable (t : float) (k : Z) (results : list (KnowledgeChunk * float)) (v : float) :
  List.filter (fun c => relevance_score c =? v) (ranked t k results)
  `prefix_of`
  List.filter (fun c => relevance_score c =? v)
    (map (fun p => set_relevance_score (fst p) (snd p)) results).
Proof.
  etransitivity; [apply prefix_filter, ranked_prefix|].
  rewrite sort_desc_stable, filter_by_threshold_eqb.
  destruct (t <=? v); [reflexivity | apply prefix_nil].
Qed.

(** A higher threshold yields a prefix of the ranking at a lower one. *)
Lemma ranked_mono (t1 t2 : float) (k : Z) (results : list (KnowledgeChunk * float)) :
  (t1 <? t2) = true -> ranked t2 k results `prefix_of` ranked t1 k results.
Proof.
  intros Ht. unfold ranked.
  rewrite (filter_by_threshold_mono t1 t2) by exact Ht.
  rewrite <- filter_sort_desc by apply filter_by_threshold_not_nan.
  destruct (filter_ge_take relevance_score t2
              (sort_desc relevance_score (filter_by_threshold t1 results))) as [n ->].
  - apply sort_desc_sorted, filter_by_threshold_not_nan.
  - apply slice_to_take.
Qed.

(** C5.  A blank query returns the empty list.  For a non-blank query and
    an effective [top_k >= 0], [search] returns a list in which every chunk
    has a score at or above the effective threshold, of length at most
    [top_k], in descending order of score, and in which the chunks of any
    one score stand in the order the store returned them. *)
Theorem search_postcondition (self : RAGRetriever) (query : string) (top_k : option Z)
    (metadata_filter : option (gmap string mvalue)) (threshold : option float) :
  let k := default (default_top_k self) top_k in
  let t := default (similarity_threshold self) threshold in
  (truthy (strip query) = false ->
   search encode_query search_similar self query top_k metadata_filter threshold = Ret [])
  /\ (truthy (strip query) = true -> (0 <= k)%Z ->
      exists l,
        search encode_query search_similar self query top_k metadata_filter threshold = Ret l
        /\ Forall (fun c => float_ge (relevance_score c) t = true) l
        /\ (Z.of_nat (length l) <= k)%Z
        /\ StronglySorted (desc relevance_score) l
        /\ forall query_embedding results v,
             encode_query query = Ret query_embedding ->
             search_similar query_embedding (k * 2) metadata_filter = Ret results ->
             List.filter (fun c => relevance_score c =? v) l
             `prefix_of`
             List.filter (fun c => relevance_score c =? v)
               (map (fun p => set_relevance_score (fst p) (snd p)) results)).
Proof.
  intros k t. split; [apply search_blank|].
  intros Hq Hk. rewrite search_cases by exact Hq. fold k t.
  assert (Hnil : exists l : list KnowledgeChunk,
    Ret [] = Ret l
    /\ Forall (fun c => float_ge (relevance_score c) t = true) l
    /\ (Z.of_nat (length l) <= k)%Z
    /\ StronglySorted (desc relevance_score) l
    /\ forall v (others : list KnowledgeChunk),
         List.filter (fun c => relevance_score c =? v) l
         `prefix_of` List.filter (fun c => relevance_score c =? v) others).
  { exists []. repeat split; try constructor; try (simpl; lia).
    intros; apply prefix_nil. }
  destruct (encode_query query) as [qe|e] eqn:Eq.
  - destruct (search_similar qe (k * 2)%Z metadata_filter) as [results|e] eqn:Es.
    + exists (ranked t k results). repeat split.
      * apply ranked_scores.
      * apply slice_to_length, Hk.
      * apply ranked_sorted.
      * intros qe' results' v [= <-] Hs'. rewrite Es in Hs'.
        injection Hs' as <-. apply ranked_stable.
    + destruct Hnil as (l & Hl & H1 & H2 & H3 & H4). exists l.
      repeat split; auto.
  - destruct Hnil as (l & Hl & H1 & H2 & H3 & H4). exists l.
    repeat split; auto.
Qed.

(** C6.  With the same query, [top_k] and filter, and thresholds
    [t1 < t2], what [search] returns at [t2] is a leading part of what it
    returns at [t1]; in particular every chunk returned at [t2] is returned
    at [t1]. *)
Theorem search_threshold_monotone (self : RAGRetriever) (query : string)
    (top_k : option Z) (metadata_filter : option (gmap string mvalue))
    (t1 t2 : float) :
  (t1 <? t2) = true ->
  exists l1 l2,
    search encode_query search_similar self query top_k metadata_filter (Some t1) = Ret l1
    /\ search encode_query search_similar self query top_k metadata_filter (Some t2) = Ret l2
    /\ l2 `prefix_of` l1
    /\ forall c, In c l2 -> In c l1.
Proof.
  intros Ht.
  assert (Hsub : forall l1 l2 : list KnowledgeChunk,
            l2 `prefix_of` l1 -> l2 `prefix_of` l1 /\ forall c, In c l2 -> In c l1).
  { intros l1 l2 H. split; [exact H|]. intros c. now apply prefix_In. }
  destruct (truthy (strip query)) eqn:Hq.
  - rewrite !search_cases by exact Hq. simpl.
    destruct (encode_query query) as [qe|e];
      [|exists [], []; repeat split; auto].
    destruct (search_similar qe _ metadata_filter) as [results|e];
      [|exists [], []; repeat split; auto].
    eexists _, _. split; [reflexivity|]. split; [reflexivity|].
    apply Hsub, ranked_mono, Ht.
  - rewrite !search_blank by exact Hq. exists [], []. repeat split; auto.
Qed.
End Retriever.

(** With the store down, [search] returns the empty list. *)
Lemma search_never_raises_witness :
  search fx_encode_query fx_failing_search_similar fx_retriever
    "battery storage" None None None = Ret [].
Proof.
  apply (proj2 (proj2 (search_never_raises fx_encode_query fx_failing_search_similar
                         fx_retriever "battery storage" None None None)) [1; 0]).
  - reflexivity.
  - exists (RuntimeError "index unavailable"). reflexivity.
Defined.

(** The example index at the default threshold 0.5 and [top_k] 5. *)
Lemma search_postcondition_witness :
  exists l,
    search fx_encode_query fx_search_similar fx_retriever "battery" None None None = Ret l
    /\ Forall (fun c => float_ge (relevance_score c) 0.5 = true) l
    /\ (Z.of_nat (length l) <= 5)%Z
    /\ StronglySorted (desc relevance_score) l
    /\ forall query_embedding results v,
         fx_encode_query "battery" = Ret query_embedding ->
         fx_search_similar query_embedding (5 * 2)%Z None = Ret results ->
         List.filter (fun c => relevance_score c =? v) l
         `prefix_of`
         List.filter (fun c => relevance_score c =? v)
           (map (fun p => set_relevance_score (fst p) (snd p)) results).
Proof.
  apply (proj2 (search_postcondition fx_encode_query fx_search_similar fx_retriever
                  "battery" None None None)).
  - reflexivity.
  - simpl. lia.
Defined.

(** The row at distance 1.5 is dropped; the two rows at distance 0.25 tie
    and keep the order in which the index returned them. *)
Example search_example :
  search fx_encode_query fx_search_similar fx_retriever "battery" None None None
  = Ret [fx_inverter [1; 0] 0.875; fx_battery [1; 0] 0.75; fx_tariff [1; 0] 0.75].
Proof. vm_compute. reflexivity. Qed.

Example search_top_k_2 :
  search fx_encode_query fx_search_similar fx_retriever "battery" (Some 2%Z) None None
  = Ret [fx_inverter [1; 0] 0.875; fx_battery [1; 0] 0.75].
Proof. vm_compute. reflexivity. Qed.

(** A negative [top_k] is a slice bound counted from the end, not a
    length: with all four rows kept and [top_k = -1] three chunks are
    returned. *)
Example search_negative_top_k :
  search fx_encode_query fx_search_similar fx_retriever "battery"
    (Some (-1)%Z) None (Some (-1))
  = Ret [fx_inverter [1; 0] 0.875; fx_battery [1; 0] 0.75; fx_tariff [1; 0] 0.75].
Proof. vm_compute. reflexivity. Qed.

(** Thresholds 0.5 and 0.8125 on the example index. *)
Lemma search_threshold_monotone_witness :
  exists l1 l2,
    search fx_encode_query fx_search_similar fx_retriever "battery" None None (Some 0.5)
      = Ret l1
    /\ search fx_encode_query fx_search_similar fx_retriever "battery" None None (Some 0.8125)
      = Ret l2
    /\ l2 `prefix_of` l1
    /\ forall c, In c l2 -> In c l1.
Proof.
  apply (search_threshold_monotone fx_encode_query fx_search_similar fx_retriever
           "battery" None None 0.5 0.8125).
  reflexivity.
Defined.

Example search_threshold_example :
  search fx_encode_query fx_search_similar fx_retriever "battery" None None (Some 0.8125)
  = Ret [fx_inverter [1; 0] 0.875].
Proof. vm_compute. reflexivity. Qed.

End retriever_spec.

(* ===================================================================== *)
(** * Rounding in binary64: [1.0 - w + w] *)
(* ===================================================================== *)

Module FloatRound.








Section Shift.
Variable M : Z.
Hypothesis M_not_negative : 0 <= M.





End Shift.



















End FloatRound.

(* ===================================================================== *)
(** * Hybrid scoring and similar-chunk lookup *)
(* ===================================================================== *)

Module hybrid_spec.
Import Py models retriever FloatOrder SortFacts retriever_spec fixtures.
#[local] Open Scope float_scope.



Section Retriever.
Variable encode_query : string -> res (list float).
Variable search_similar :
  list float -> Z -> option (gmap string mvalue) ->
  res (list (KnowledgeChunk * float)).

End Retriever.

Section SimilarChunks.
Variable collection_query :
  list float -> Z -> option (gmap string mvalue) -> res vector_store.QueryResult.
Variable collection_get : string -> res vector_store.GetResult.
Variable UUID : string -> res string.

(** C10.  A chunk returned by [search_similar] carries the query embedding
    that was passed in, not its stored one, and a chunk returned by
    [get_chunk] carries the empty list.  So [get_similar_chunks] applied to
    a chunk that came out of [search_similar] queries the store with the
    original query vector. *)
Theorem returned_chunks_embedding :
  (forall query_embedding n_results metadata_filter l c s,
     vector_store.search_similar collection_query UUID
       query_embedding n_results metadata_filter = Ret l ->
     In (c, s) l ->
     embedding c = query_embedding
     /\ forall top_k exclude_same_document,
          get_similar_chunks (vector_store.search_similar collection_query UUID)
            c top_k exclude_same_document
          = match query_embedding with
            | [] => Ret []
            | _ =>
              try_except
                (results ← vector_store.search_similar collection_query UUID
                             query_embedding
                             (if exclude_same_document then top_k * 2 else top_k)%Z
                             None;
                 Ret (collect_similar c top_k exclude_same_document results []))
                (fun _ => Ret [])
            end)
  /\ (forall chunk_id c,
        vector_store.get_chunk collection_get chunk_id = Ret (Some c) ->
        embedding c = []).
Proof.
  split.
  - intros qe n f l c s Hl Hin.
    pose proof (vector_store_spec.search_similar_embedding _ _ _ _ _ _ _ _ Hl Hin) as He.
    split; [exact He|]. intros k ex. unfold get_similar_chunks. now rewrite He.
  - intros cid c. apply vector_store_spec.get_chunk_embedding.
Qed.
End SimilarChunks.



(** At the default [keyword_weight = 0.3] the two weights sum to 1.0. *)
Example default_weights_sum :
  semantic_weight (HybridRetriever_init 5 0.7 0.3)
  + keyword_weight (HybridRetriever_init 5 0.7 0.3) = 1.
Proof. vm_compute. reflexivity. Qed.

(** Looking for chunks similar to a search result queries the store with
    the vector of the original query. *)
Lemma returned_chunks_embedding_witness :
  embedding (fx_battery [1; 0] 0.75) = [1; 0]
  /\ forall top_k exclude_same_document,
       get_similar_chunks fx_search_similar (fx_battery [1; 0] 0.75)
         top_k exclude_same_document
       = try_except
           (results ← fx_search_similar [1; 0]
                        (if exclude_same_document then top_k * 2 else top_k)%Z None;
            Ret (collect_similar (fx_battery [1; 0] 0.75) top_k
                   exclude_same_document results []))
           (fun _ => Ret []).
Proof.
  apply (proj1 (returned_chunks_embedding fx_collection_query fx_collection_get fx_UUID)
           [1; 0] 8%Z None (fx_hits [1; 0]) (fx_battery [1; 0] 0.75) 0.75).
  - vm_compute. reflexivity.
  - right. left. reflexivity.
Defined.

Example get_chunk_example :
  vector_store.get_chunk fx_collection_get "id-battery"
  = Ret (Some (fx_battery [] 0)).
Proof. vm_compute. reflexivity. Qed.

End hybrid_spec.

(* ===================================================================== *)
(** * The embeddings service *)
(* ===================================================================== *)

Module embeddings_spec.
Import Py embeddings fixtures.

(** ** Assignments into the result list *)

Lemma fold_assign_length {A} (ps : list (A * nat)) (r : list A) :
  length (fold_left assign ps r) = length r.
Proof.
  revert r. induction ps as [|p ps IH]; intros r; simpl; [reflexivity|].
  rewrite IH. apply length_insert.
Qed.

Lemma fold_assign_other {A} (ps : list (A * nat)) (r : list A) (j : nat) :
  ~ In j (map snd ps) -> fold_left assign ps r !! j = r !! j.
Proof.
  revert r. induction ps as [|p ps IH]; intros r Hj; simpl in *; [reflexivity|].
  rewrite IH by tauto. apply list_lookup_insert_ne. tauto.
Qed.

Lemma fold_assign_app_l {A} (ps : list (A * nat)) (r r' : list A) :
  Forall (fun p => (snd p < length r)%nat) ps ->
  fold_left assign ps (r ++ r') = (fold_left assign ps r ++ r')%list.
Proof.
  revert r. induction ps as [|p ps IH]; intros r Hps; simpl; [reflexivity|].
  inversion_clear Hps as [|? ? Hp Hps'].
  unfold assign at 2 4. rewrite insert_app_l by exact Hp.
  apply IH. eapply Forall_impl; [exact Hps'|].
  intros q Hq. simpl. now rewrite length_insert.
Qed.

(** ** The non-blank texts and their positions *)

(** [zip] of two lists of equal length, each extended by one element. *)
Lemma combine_snoc {X Y} (xs : list X) (ys : list Y) (x : X) (y : Y) :
  length xs = length ys ->
  combine (xs ++ [x]) (ys ++ [y]) = combine xs ys ++ [(x, y)].
Proof.
  revert ys. induction xs as [|x0 xs IH]; intros [|y0 ys] Hlen; simpl in *;
    try discriminate; [reflexivity|].
  f_equal. apply IH. lia.
Qed.

Lemma non_empty_snoc (texts : list string) (t : string) :
  non_empty (texts ++ [t])
  = (non_empty texts
     ++ if truthy (strip t) then [(length texts, t)] else [])%list.
Proof.
  unfold non_empty. rewrite length_app. simpl.
  rewrite Nat.add_1_r, seq_S. simpl.
  rewrite combine_snoc by (now rewrite length_seq).
  rewrite List.filter_app. simpl. now destruct (truthy (strip t)).
Qed.

Lemma non_empty_In (texts : list string) (i : nat) (t : string) :
  In (i, t) (non_empty texts) ->
  texts !! i = Some t /\ truthy (strip t) = true.
Proof.
  induction texts as [|u texts IH] using rev_ind; [intros []|].
  rewrite non_empty_snoc. intros [H|H]%in_app_or.
  - apply IH in H as [H1 H2]. split; [|exact H2].
    now apply lookup_app_l_Some.
  - destruct (truthy (strip u)) eqn:E; [|destruct H].
    destruct H as [[= <- <-]|[]]. split; [|exact E].
    rewrite lookup_app_r by lia. now rewrite Nat.sub_diag.
Qed.

Lemma non_empty_bound (texts : list string) :
  Forall (fun p => (fst p < length texts)%nat) (non_empty texts).
Proof.
  rewrite List.Forall_forall. intros [i t] [H _]%non_empty_In.
  now apply lookup_lt_Some in H.
Qed.

(** ** Slices of the list of texts *)

Lemma take_list_slice {A} (l : list A) (i w : Z) :
  0 <= i -> 0 <= w ->
  (take (Z.to_nat i) l ++ list_slice l i (i + w))%list = take (Z.to_nat (i + w)) l.
Proof.
  intros Hi Hw. unfold list_slice, adjust.
  destruct (Z.ltb_spec (i + w) 0); [lia|].
  destruct (Z.ltb_spec i 0); [lia|].
  set (n := Z.of_nat (length l)).
  destruct (Z.le_gt_cases i n).
  - rewrite (Z.min_l i n) by lia.
    rewrite take_take_drop.
    replace (Z.to_nat i + Z.to_nat (Z.min (i + w) n - i))%nat
      with (Z.to_nat (Z.min (i + w) n)) by lia.
    destruct (Z.le_gt_cases (i + w) n).
    + now rewrite Z.min_l by lia.
    + rewrite Z.min_r by lia. rewrite !take_ge by lia. reflexivity.
  - rewrite (Z.min_r i n), (Z.min_r (i + w) n) by lia.
    rewrite Z.sub_diag. simpl. rewrite app_nil_r.
    rewrite !take_ge by lia. reflexivity.
Qed.

Section EmbeddingsService.
Variable model_encode_batch : list string -> Z -> res (list (list float)).
Variable embedding_dimension : Z.

Ltac zeros_length := eexists; split; [reflexivity | apply length_replicate].

(** [encode_batch] never raises and returns as many vectors as texts. *)
Lemma encode_batch_length (texts : list string) (batch_size : Z) :
  exists l, encode_batch model_encode_batch embedding_dimension texts batch_size = Ret l
            /\ length l = length texts.
Proof.
  unfold encode_batch. destruct texts as [|t texts]; [now exists []|].
  set (all := t :: texts).
  destruct (map snd (non_empty all)); [zeros_length|].
  unfold try_except.
  destruct (range_step _ _) as [starts|]; cbn [mbind res_bind]; [|zeros_length].
  destruct (for_each _ _ _) as [embeddings|]; cbn [mbind res_bind]; [|zeros_length].
  eexists; split; [reflexivity|].
  rewrite fold_assign_length. apply length_replicate.
Qed.

(** A blank text is mapped to the zero vector, whatever the model does. *)
Lemma encode_batch_blank (texts : list string) (batch_size : Z)
    (l : list (list float)) (i : nat) (t : string) :
  encode_batch model_encode_batch embedding_dimension texts batch_size = Ret l ->
  texts !! i = Some t -> truthy (strip t) = false ->
  l !! i = Some (zero_vector embedding_dimension).
Proof.
  intros Hl Hi Ht.
  assert (Hz : replicate (length texts) (zero_vector embedding_dimension) !! i
               = Some (zero_vector embedding_dimension)).
  { apply lookup_replicate_2. now apply lookup_lt_Some in Hi. }
  unfold encode_batch in Hl. destruct texts as [|t0 texts0]; [discriminate|].
  set (all := t0 :: texts0) in *.
  destruct (map snd (non_empty all)); [now injection Hl as <-|].
  unfold try_except in Hl.
  destruct (range_step _ _) as [starts|]; cbn [mbind res_bind] in Hl;
    [|now injection Hl as <-].
  destruct (for_each _ _ _) as [embeddings|]; cbn [mbind res_bind] in Hl;
    [|now injection Hl as <-].
  injection Hl as <-.
  rewrite fold_assign_other; [exact Hz|].
  intros Hin. apply in_map_iff in Hin as ([v j] & Hj & Hin). simpl in Hj. subst j.
  apply in_combine_r in Hin.
  apply in_map_iff in Hin as ([j u] & Hj & Hin). simpl in Hj. subst j.
  apply non_empty_In in Hin as [Hu Hu']. congruence.
Qed.

(** The loop raises as soon as the model raises on one of its batches. *)
Lemma for_each_batches_raise (non_empty_texts : list string) (batch_size : Z)
    (starts : list Z) (acc : list (list float)) :
  Exists (fun i => raises (model_encode_batch
                             (list_slice non_empty_texts i (i + batch_size)) batch_size))
    starts ->
  raises (for_each (batch_step model_encode_batch non_empty_texts batch_size) starts acc).
Proof.
  revert acc. induction starts as [|i starts IH]; intros acc H; [inversion H|].
  simpl. unfold batch_step at 1.
  destruct (model_encode_batch _ _) as [b|e] eqn:E; simpl.
  - apply IH. inversion_clear H as [? ? H'|]; [|assumption].
    destruct H' as [e' He']. congruence.
  - now exists e.
Qed.

(** When the model raises on one batch, every item becomes the zero vector. *)
Lemma encode_batch_failure (texts : list string) (batch_size : Z) :
  Exists (fun batch => raises (model_encode_batch batch batch_size))
    (batches texts batch_size) ->
  encode_batch model_encode_batch embedding_dimension texts batch_size
  = Ret (replicate (length texts) (zero_vector embedding_dimension)).
Proof.
  intros H. unfold encode_batch, batches in *.
  destruct texts as [|t texts]; [reflexivity|].
  set (all := t :: texts) in *.
  destruct (map snd (non_empty all)) as [|u us] eqn:Hne; [reflexivity|].
  unfold try_except.
  destruct (range_step _ _) as [starts|]; cbn [mbind res_bind]; [|reflexivity].
  apply (proj1 (Exists_map _ _ _)) in H.
  apply (for_each_batches_raise (u :: us) batch_size starts []) in H as [e He].
  now rewrite He.
Qed.

(** The loop over the batch starts, when the model encodes item by item. *)
Lemma for_each_batches_ok (e : string -> list float) (non_empty_texts : list string)
    (batch_size : Z) :
  0 < batch_size ->
  (forall batch, model_encode_batch batch batch_size = Ret (map e batch)) ->
  forall (m a : nat),
    for_each (batch_step model_encode_batch non_empty_texts batch_size)
      (map (fun k => Z.of_nat k * batch_size) (seq a m))
      (map e (take (Z.to_nat (Z.of_nat a * batch_size)) non_empty_texts))
    = Ret (map e (take (Z.to_nat (Z.of_nat (a + m) * batch_size)) non_empty_texts)).
Proof.
  intros Hbs Hmodel. induction m as [|m IH]; intros a; simpl.
  - now rewrite Nat.add_0_r.
  - unfold batch_step at 1. rewrite Hmodel. simpl.
    rewrite <- map_app, take_list_slice by lia.
    replace (Z.of_nat a * batch_size + batch_size) with (Z.of_nat (S a) * batch_size) by lia.
    rewrite IH. do 3 f_equal. lia.
Qed.

(** Writing the embeddings of the non-blank texts over the zero vectors
    gives, position by position, the embedding or the zero vector. *)
Lemma assign_embeddings (e : string -> list float) (z : list float) (texts : list string) :
  fold_left assign
    (combine (map e (map snd (non_empty texts))) (map fst (non_empty texts)))
    (replicate (length texts) z)
  = map (fun t => if truthy (strip t) then e t else z) texts.
Proof.
  induction texts as [|t texts IH] using rev_ind; [reflexivity|].
  rewrite non_empty_snoc, length_app, !map_app. simpl length.
  rewrite Nat.add_1_r, replicate_S_end.
  assert (Hb : Forall (fun p : list float * nat => (snd p < length (replicate (length texts) z))%nat)
                 (combine (map e (map snd (non_empty texts))) (map fst (non_empty texts)))).
  { rewrite List.Forall_forall. intros [v j] Hin%in_combine_r.
    apply in_map_iff in Hin as ([j' u] & <- & Hin).
    rewrite length_replicate. simpl.
    pose proof (non_empty_bound texts) as Hbound.
    rewrite List.Forall_forall in Hbound. now apply Hbound in Hin. }
  destruct (truthy (strip t)) eqn:E; simpl; rewrite ?E.
  - rewrite combine_snoc by (now rewrite !length_map).
    rewrite fold_left_app. simpl. rewrite fold_assign_app_l by exact Hb.
    rewrite IH. unfold assign. simpl.
    rewrite insert_app_r_alt by (now rewrite length_map).
    now rewrite length_map, Nat.sub_diag.
  - rewrite !app_nil_r. rewrite fold_assign_app_l by exact Hb. now rewrite IH.
Qed.

(** When every batch is encoded item by item, an item is the embedding of
    its text, or the zero vector for a blank text. *)
Lemma encode_batch_success (e : string -> list float) (texts : list string)
    (batch_size : Z) :
  0 < batch_size ->
  (forall batch, model_encode_batch batch batch_size = Ret (map e batch)) ->
  encode_batch model_encode_batch embedding_dimension texts batch_size
  = Ret (map (fun t => if truthy (strip t) then e t
                       else zero_vector embedding_dimension) texts).
Proof.
  intros Hbs Hmodel. unfold encode_batch.
  destruct texts as [|t0 texts0]; [reflexivity|].
  set (texts := t0 :: texts0).
  rewrite <- (assign_embeddings e (zero_vector embedding_dimension) texts).
  destruct (map snd (non_empty texts)) as [|u us] eqn:Hne; [reflexivity|].
  rewrite <- Hne. unfold try_except, range_step.
  destruct (Z.eqb_spec batch_size 0) as [?|_]; [lia|].
  destruct (Z.ltb_spec batch_size 0) as [?|_]; [lia|].
  cbn [mbind res_bind].
  set (len_ne := Z.of_nat (length (map snd (non_empty texts)))).
  pose proof (for_each_batches_ok e (map snd (non_empty texts)) batch_size Hbs Hmodel
                (Z.to_nat ((len_ne + batch_size - 1) / batch_size)) 0) as Hloop.
  change (Z.of_nat 0 * batch_size) with 0 in Hloop.
  change (map e (take (Z.to_nat 0) (map snd (non_empty texts))))
    with (@nil (list float)) in Hloop.
  rewrite Hloop.
  cbn [mbind res_bind]. rewrite take_ge; [reflexivity|].
  assert (0 <= len_ne) by (unfold len_ne; lia).
  assert (0 <= (len_ne + batch_size - 1) / batch_size) by (apply Z.div_pos; lia).
  pose proof (Z.mul_succ_div_gt (len_ne + batch_size - 1) batch_size Hbs).
  fold len_ne. nia.
Qed.

(** C9 (amended).  [encode_batch] returns one vector per text and maps
    every blank text to the zero vector of dimension [D].  When the model
    encodes every batch item by item, each other text gets its own
    embedding at its own position.  When the model raises on one of the
    batches, every item of the result is the zero vector: the failure is
    not isolated to the items of that batch. *)
Theorem encode_batch_spec (texts : list string) (batch_size : Z) :
  (exists l,
     encode_batch model_encode_batch embedding_dimension texts batch_size = Ret l
     /\ length l = length texts
     /\ forall i t, texts !! i = Some t -> truthy (strip t) = false ->
          l !! i = Some (zero_vector embedding_dimension))
  /\ (forall e : string -> list float,
        0 < batch_size ->
        (forall batch, model_encode_batch batch batch_size = Ret (map e batch)) ->
        encode_batch model_encode_batch embedding_dimension texts batch_size
        = Ret (map (fun t => if truthy (strip t) then e t
                             else zero_vector embedding_dimension) texts))
  /\ (Exists (fun batch => raises (model_encode_batch batch batch_size))
        (batches texts batch_size) ->
      encode_batch model_encode_batch embedding_dimension texts batch_size
      = Ret (replicate (length texts) (zero_vector embedding_dimension))).
Proof.
  split; [|split].
  - destruct (encode_batch_length texts batch_size) as (l & Hl & Hlen).
    exists l. split; [exact Hl|]. split; [exact Hlen|].
    intros i t. exact (encode_batch_blank texts batch_size l i t Hl).
  - intros e. apply encode_batch_success.
  - apply encode_batch_failure.
Qed.
End EmbeddingsService.

(** C9 (counterexample).  Two texts encoded in batches of one; the model
    encodes ["a"] and raises on ["b"].  Isolating the failure would give
    [[fx_embed "a"; zero]]; the code returns the zero vector for both. *)
Lemma encode_batch_failure_not_isolated :
  fx_model_encode_batch ["a"] 1 = Ret [fx_embed "a"]
  /\ raises (fx_model_encode_batch ["b"] 1)
  /\ encode_batch fx_model_encode_batch 1 ["a"; "b"] 1 = Ret [[0%float]; [0%float]]
  /\ fx_embed "a" <> [0%float].
Proof.
  split; [reflexivity|]. split; [eexists; reflexivity|].
  split; [reflexivity|]. vm_compute. discriminate.
Qed.

(** The same model on the same texts: the batch ["b"] fails and the
    theorem gives zero vectors for both items. *)
Lemma encode_batch_spec_witness :
  encode_batch fx_model_encode_batch 1 ["a"; "b"] 1
  = Ret (replicate 2 (zero_vector 1)).
Proof.
  apply (proj2 (proj2 (encode_batch_spec fx_model_encode_batch 1 ["a"; "b"] 1))).
  right. left. eexists. reflexivity.
Defined.

(** Without a failing text every item is encoded in place, batch by batch. *)
Example encode_batch_in_order :
  encode_batch fx_model_encode_batch 1 ["a"; "  "; "cc"; "ddd"] 2
  = Ret [fx_embed "a"; [0%float]; fx_embed "cc"; fx_embed "ddd"].
Proof. vm_compute. reflexivity. Qed.

End embeddings_spec.

(* ===================================================================== *)
(** * The semantic cache *)
(* ===================================================================== *)

Module cache_spec.
Import Py models cache fixtures.

(** The keyword arguments [put] passes do not fit [CacheEntry]. *)
Lemma CacheEntry_init_put (now : Z) (entry_id query_hash : string)
    (query_embedding : list float) (response model_used context_hash : string)
    (ttl : Z) :
  CacheEntry_init now
    [("id", PStr entry_id); ("query_hash", PStr query_hash);
     ("query_embedding", PFloats query_embedding);
     ("response", PStr response); ("model_used", PStr model_used);
     ("context_hash", PStr context_hash);
     ("created_at", PDatetime now); ("last_accessed", PDatetime now);
     ("access_count", PInt 1); ("ttl_seconds", PInt ttl)]
  = Raise TypeError.
Proof. reflexivity. Qed.

Section SemanticCache.
Variable encode_text : string -> res (list float).
Variable hash : string -> Z.
Variable json_dumps : gmap string string -> string.
Variable md5_hexdigest : string -> string.
Variable sha256_hexdigest : string -> string.
Variable str : pyval -> string.

(** [put] never reaches its [INSERT]: whatever it is given, it returns
    [False] and leaves the table and the clock as they were. *)
Lemma put_fails (self : SemanticCache) (query response : string)
    (context : option (gmap string string)) (model_used : string)
    (ttl_seconds : option Z) (w : world) :
  exists w',
    put encode_text json_dumps md5_hexdigest sha256_hexdigest str
      self query response context model_used ttl_seconds w = (Ret false, w')
    /\ rows w' = rows w
    /\ clock w' = clock w.
Proof.
  unfold put.
  destruct (negb (truthy (strip query)) || negb (truthy (strip response)));
    [now exists w|].
  unfold try_exceptM, mbind, M_bind, lift.
  destruct (encode_text query) as [query_embedding|]; [|now exists w].
  cbn [utcnow rows clock].
  destruct (add_seconds _ _) as [expires|]; [|eexists; split; [reflexivity|]; now simpl].
  cbn [uuid4 rows clock]. rewrite CacheEntry_init_put.
  eexists; split; [reflexivity|]; now simpl.
Qed.

(** C1 (the code breaks the claim).  The claim: [put(q, r, ...)] with
    non-blank [q] and [r] returns [True] and a following [get(q, ...)]
    returns [r].  The code: [put] builds a [CacheEntry] with keyword
    arguments the dataclass does not have; the [TypeError] is caught, so
    [put] returns [False] on every input and stores nothing. *)
Theorem put_returns_false (self : SemanticCache) (query response : string)
    (context : option (gmap string string)) (model_used : string)
    (ttl_seconds : option Z) (w : world) :
  exists w',
    put encode_text json_dumps md5_hexdigest sha256_hexdigest str
      self query response context model_used ttl_seconds w = (Ret false, w')
    /\ rows w' = rows w.
Proof.
  destruct (put_fails self query response context model_used ttl_seconds w)
    as (w' & H1 & H2 & _).
  eauto.
Qed.

(** ** What [get] returns *)

(** The best match found by the candidate loop is one of the candidates. *)
Lemma best_match_from_candidates (self : SemanticCache) (query_embedding : list float)
    (candidates : list Row) :
  forall best out,
    for_each (best_match_step self query_embedding) candidates best = Ret out ->
    forall entry_id resp count,
      fst out = Some (entry_id, resp, count) ->
      fst best = Some (entry_id, resp, count)
      \/ exists entry, In entry candidates /\ response entry = resp.
Proof.
  induction candidates as [|entry candidates IH]; simpl; intros best out Hout i r a Hbest.
  - injection Hout as <-. now left.
  - destruct (best_match_step self query_embedding entry best) as [best'|] eqn:Hstep;
      [|discriminate].
    destruct (IH _ _ Hout _ _ _ Hbest) as [H|(e & He & Hr)]; [|right; eauto].
    unfold best_match_step in Hstep.
    destruct (_calculate_similarity _ _) as [similarity|]; simpl in Hstep; [|discriminate].
    destruct (_ && _); injection Hstep as <-; [|now left].
    simpl in H. injection H as <- <- <-. right. eauto.
Qed.

Lemma cleanup_expired_world (w : world) :
  exists n w',
    _cleanup_expired w = (Ret n, w')
    /\ (forall r, In r (rows w') -> In r (rows w))
    /\ clock w' = clock w
    /\ clock_reads w' = S (clock_reads w).
Proof.
  unfold _cleanup_expired, mbind, M_bind, utcnow, select_rows, set_rows, mret, M_ret.
  simpl. eexists _, _. split; [reflexivity|]. simpl.
  split; [|auto]. intros r [H _]%filter_In. exact H.
Qed.

(** A response served by [get] is the response of a row whose [expires_at]
    lies strictly after the time of the lookup, in the partition of the
    given context and model. *)
Lemma get_serves_unexpired (self : SemanticCache) (query : string)
    (context : option (gmap string string)) (model : string)
    (w w' : world) (resp : string) :
  get encode_text hash json_dumps md5_hexdigest self query context model w
    = (Ret (Some resp), w') ->
  exists entry,
    In entry (rows w)
    /\ response entry = resp
    /\ expires_at entry > lookup_time hash query w
    /\ context_hash entry = _generate_context_hash json_dumps md5_hexdigest (default ∅ context)
    /\ model_used entry = model.
Proof.
  unfold get. destruct (negb (truthy (strip query))); [discriminate|].
  unfold mbind at 1, M_bind at 1.
  assert (Hsweep : exists n w1,
    (if hash query `mod` 100 =? 0 then _cleanup_expired else mret 0) w = (Ret n, w1)
    /\ (forall r, In r (rows w1) -> In r (rows w))
    /\ clock w1 (clock_reads w1) = lookup_time hash query w).
  { unfold lookup_time. destruct (hash query `mod` 100 =? 0).
    - destruct (cleanup_expired_world w) as (n & w1 & -> & Hsub & Hc & Hr).
      exists n, w1. split; [reflexivity|]. split; [exact Hsub|].
      rewrite Hc, Hr. f_equal. lia.
    - exists 0, w. split; [reflexivity|]. split; [auto|]. f_equal. lia. }
  destruct Hsweep as (n & w1 & -> & Hsub & Hnow).
  unfold try_exceptM, mbind, M_bind, lift.
  destruct (encode_text query) as [query_embedding|]; [|discriminate].
  cbn [utcnow select_rows rows clock clock_reads].
  set (ch := _generate_context_hash json_dumps md5_hexdigest (default ∅ context)).
  set (now := clock w1 (clock_reads w1)) in *.
  destruct (for_each _ _ _) as [[best sim]|] eqn:Hloop; [|discriminate].
  cbn [fst]. destruct best as [[[entry_id r] count]|]; [|discriminate].
  cbn [utcnow select_rows set_rows mret M_ret rows clock clock_reads].
  intros [= <- _].
  eapply best_match_from_candidates in Hloop as [H|(entry & Hin & Hr)];
    [discriminate H | | reflexivity].
  apply filter_In in Hin as [Hin Hc]. unfold is_candidate in Hc.
  apply andb_true_iff in Hc as [[Hc1 Hc2]%andb_true_iff Hc3].
  exists entry. split; [now apply Hsub|]. split; [exact Hr|].
  split; [rewrite <- Hnow; fold now; lia|].
  split; [now apply String.eqb_eq | now apply String.eqb_eq].
Qed.

(** With no row in the partition of the context and model, [get] misses. *)
Lemma get_misses_empty_partition (self : SemanticCache) (query : string)
    (context : option (gmap string string)) (model : string) (w : world) :
  (forall entry, In entry (rows w) ->
     context_hash entry = _generate_context_hash json_dumps md5_hexdigest (default ∅ context) ->
     model_used entry <> model) ->
  fst (get encode_text hash json_dumps md5_hexdigest self query context model w) = Ret None.
Proof.
  intros Hpart.
  destruct (get encode_text hash json_dumps md5_hexdigest self query context model w)
    as [[[resp|]|e] w'] eqn:Hget; [|reflexivity|].
  - apply get_serves_unexpired in Hget as (entry & Hin & _ & _ & Hc & Hm).
    now destruct (Hpart entry Hin Hc).
  - exfalso. revert Hget. unfold get.
    destruct (negb (truthy (strip query))); [discriminate|].
    unfold mbind at 1, M_bind at 1.
    destruct ((if hash query `mod` 100 =? 0 then _cleanup_expired else mret 0) w)
      as [[n|e'] w1] eqn:Hs.
    + unfold try_exceptM.
      match goal with |- context [match ?body with _ => _ end] =>
        destruct body as [[a|e''] w2] end; discriminate.
    + destruct (hash query `mod` 100 =? 0); [|discriminate].
      destruct (cleanup_expired_world w) as (n & w1' & Heq & _). congruence.
Qed.

(** C7.  A response served by [get] belongs to a row whose [expires_at] is
    strictly later than the clock reading of the lookup.  And right after
    [put] with [ttl_seconds = 0], a [get] for which the table holds no
    other row of the same context and model returns [None]. *)
Theorem expired_never_served (self : SemanticCache) (query response : string)
    (context : option (gmap string string)) (model : string) (w : world) :
  (forall resp w',
     get encode_text hash json_dumps md5_hexdigest self query context model w
       = (Ret (Some resp), w') ->
     exists entry,
       In entry (rows w) /\ cache.response entry = resp
       /\ expires_at entry > lookup_time hash query w)
  /\ ((forall entry, In entry (rows w) ->
         context_hash entry
           = _generate_context_hash json_dumps md5_hexdigest (default ∅ context) ->
         model_used entry <> model) ->
      fst (get encode_text hash json_dumps md5_hexdigest self query context model
             (snd (put encode_text json_dumps md5_hexdigest sha256_hexdigest str
                     self query response context model (Some 0) w)))
      = Ret None).
Proof.
  split.
  - intros resp w' Hget.
    apply get_serves_unexpired in Hget as (entry & H1 & H2 & H3 & _). eauto.
  - intros Hpart.
    destruct (put_fails self query response context model (Some 0) w)
      as (w1 & -> & Hrows & _).
    apply get_misses_empty_partition. simpl. rewrite Hrows. exact Hpart.
Qed.
End SemanticCache.

(** A time to live of [0] selects the default of one hour. *)
Example effective_ttl_zero : effective_ttl fx_cache (Some 0) = 3600.
Proof. reflexivity. Qed.

(** The round trip of the specification's example on an empty table: [put]
    returns [False], the table stays empty and the [get] that follows
    misses. *)
Example put_then_get_misses :
  let after_put :=
    put fx_encode_text fx_json_dumps fx_digest fx_digest fx_str fx_cache
      "capital of France?" "Paris" None "m" (Some 3600) fx_world in
  fst after_put = Ret false
  /\ rows (snd after_put) = []
  /\ fst (get fx_encode_text fx_hash fx_json_dumps fx_digest fx_cache
            "capital of France?" None "m" (snd after_put)) = Ret None.
Proof. vm_compute. repeat split; reflexivity. Qed.

(** The query matches a stored row with similarity 1.0.  The row is served
    while its [expires_at] is ahead of the clock, and not when its
    [expires_at] equals the time of the lookup. *)
Example get_live_and_expired :
  fst (get fx_encode_text fx_hash fx_json_dumps fx_digest fx_cache
         "capital of France?" None "m" (fx_world_of [fx_live_row])) = Ret (Some "Paris")
  /\ fst (get fx_encode_text fx_hash fx_json_dumps fx_digest fx_cache
            "capital of France?" None "m" (fx_world_of [fx_expired_row])) = Ret None.
Proof. vm_compute. split; reflexivity. Qed.

(** Both halves of the theorem on the example table: the served row is the
    live one, and [get] right after [put] with [ttl_seconds = 0] on a table
    without rows for the context and model misses. *)
Lemma expired_never_served_witness :
  (exists entry,
     In entry (rows (fx_world_of [fx_live_row])) /\ response entry = "Paris"
     /\ expires_at entry
        > lookup_time fx_hash "capital of France?" (fx_world_of [fx_live_row]))
  /\ fst (get fx_encode_text fx_hash fx_json_dumps fx_digest fx_cache
            "capital of France?" None "m"
            (snd (put fx_encode_text fx_json_dumps fx_digest fx_digest fx_str fx_cache
                    "capital of France?" "Paris" None "m" (Some 0) fx_world)))
     = Ret None.
Proof.
  split.
  - apply (proj1 (expired_never_served fx_encode_text fx_hash fx_json_dumps fx_digest
                    fx_digest fx_str fx_cache "capital of France?" "Paris" None "m"
                    (fx_world_of [fx_live_row]))
             "Paris"
             (snd (get fx_encode_text fx_hash fx_json_dumps fx_digest fx_cache
                     "capital of France?" None "m" (fx_world_of [fx_live_row])))).
    rewrite (surjective_pairing (get _ _ _ _ _ _ _ _ _)) at 1.
    f_equal; vm_compute; reflexivity.
  - apply (proj2 (expired_never_served fx_encode_text fx_hash fx_json_dumps fx_digest
                    fx_digest fx_str fx_cache "capital of France?" "Paris" None "m"
                    fx_world)).
    intros entry [].
Defined.

End cache_spec.

(* ===================================================================== *)
(** * Facts about dictionaries and [sorted] *)
(* ===================================================================== *)

Module DictFacts.
Import Py PyMore.

Section Dict.
Context {V : Type}.
Implicit Types (d : odict V) (k : string) (v : V).

Lemma has_key_eq k (kv : string * V) : has_key k kv = true <-> fst kv = k.
Proof. unfold has_key. apply String.eqb_eq. Qed.

Lemma has_key_neq k (kv : string * V) : has_key k kv = false <-> fst kv <> k.
Proof. unfold has_key. apply String.eqb_neq. Qed.

Lemma contains_In d k : odict_contains d k = true <-> In k (map fst d).
Proof.
  unfold odict_contains. rewrite existsb_exists, in_map_iff. split.
  - intros (kv & Hin & H%has_key_eq). eauto.
  - intros (kv & H & Hin). exists kv. split; [assumption | now apply has_key_eq].
Qed.

Lemma getitem_Ret_In d k v : odict_getitem d k = Ret v -> In (k, v) d.
Proof.
  unfold odict_getitem. destruct (find (has_key k) d) as [[k' v']|] eqn:E; [|discriminate].
  intros [= <-]. apply find_some in E as [Hin Hk%has_key_eq].
  simpl in Hk. now subst k'.
Qed.

Lemma getitem_contains d k :
  odict_contains d k = true -> exists v, odict_getitem d k = Ret v.
Proof.
  unfold odict_contains, odict_getitem. intros (kv & Hin & Hk)%existsb_exists.
  destruct (find (has_key k) d) as [kv'|] eqn:E; [eauto|].
  eapply find_none in E; [|exact Hin]. congruence.
Qed.

Lemma getitem_not_contains d k :
  odict_contains d k = false -> odict_getitem d k = Raise KeyError.
Proof.
  unfold odict_contains, odict_getitem. intros Hc.
  destruct (find (has_key k) d) as [kv|] eqn:E; [|reflexivity].
  apply find_some in E as [Hin Hk].
  assert (existsb (has_key k) d = true) by (apply existsb_exists; eauto). congruence.
Qed.

Lemma getitem_In d k v : distinct_keys d -> In (k, v) d -> odict_getitem d k = Ret v.
Proof.
  unfold distinct_keys, odict_getitem.
  induction d as [|[k' v'] d IH]; simpl; intros Hnd Hin; [destruct Hin|].
  apply NoDup_cons_iff in Hnd as [Hk' Hnd].
  destruct (has_key k (k', v')) eqn:E.
  - apply has_key_eq in E. simpl in E. subst k'.
    destruct Hin as [[= ->]|Hin]; [reflexivity|].
    exfalso. apply Hk'. apply in_map_iff. exists (k, v). auto.
  - apply has_key_neq in E. simpl in E.
    destruct Hin as [[= -> ->]|Hin]; [congruence|]. auto.
Qed.

(** *** [d[k] = v] *)

Lemma getitem_set_same d k v : odict_getitem (odict_set d k v) k = Ret v.
Proof.
  unfold odict_getitem. induction d as [|kv d IH]; simpl.
  - unfold has_key. simpl. now rewrite String.eqb_refl.
  - destruct (has_key k kv) eqn:E; simpl.
    + unfold has_key at 1. simpl. now rewrite String.eqb_refl.
    + rewrite E. exact IH.
Qed.

Lemma getitem_set_other d k k' v :
  k' <> k -> odict_getitem (odict_set d k v) k' = odict_getitem d k'.
Proof.
  intros Hne. unfold odict_getitem. induction d as [|kv d IH]; simpl.
  - replace (has_key k' (k, v)) with false; [reflexivity|].
    symmetry. apply has_key_neq. simpl. congruence.
  - destruct (has_key k kv) eqn:E; simpl.
    + apply has_key_eq in E.
      replace (has_key k' (k, v)) with false
        by (symmetry; apply has_key_neq; simpl; congruence).
      replace (has_key k' kv) with false
        by (symmetry; apply has_key_neq; congruence).
      reflexivity.
    + destruct (has_key k' kv); [reflexivity | exact IH].
Qed.

Lemma keys_set d k v :
  map fst (odict_set d k v)
  = if odict_contains d k then map fst d else map fst d ++ [k].
Proof.
  unfold odict_contains. induction d as [|kv d IH]; simpl; [reflexivity|].
  destruct (has_key k kv) eqn:E; simpl.
  - apply has_key_eq in E. now rewrite E.
  - rewrite IH. now destruct (existsb (has_key k) d).
Qed.

Lemma length_set d k v :
  length (odict_set d k v)
  = if odict_contains d k then length d else S (length d).
Proof.
  rewrite <- (length_map fst), keys_set.
  destruct (odict_contains d k); rewrite ?length_app, length_map; simpl; lia.
Qed.

Lemma distinct_keys_set d k v : distinct_keys d -> distinct_keys (odict_set d k v).
Proof.
  unfold distinct_keys. rewrite keys_set. intros Hnd.
  destruct (odict_contains d k) eqn:E; [assumption|].
  apply List.NoDup_app; [assumption | |].
  - apply List.NoDup_cons; [intros [] | apply List.NoDup_nil].
  - intros x Hx [->|[]]. apply contains_In in Hx. congruence.
Qed.

(** *** [del d[k]] *)

Lemma del_Ret d k :
  odict_contains d k = true ->
  odict_del d k = Ret (List.filter (fun kv => negb (has_key k kv)) d).
Proof. unfold odict_del. now intros ->. Qed.

Lemma del_inv d k d' :
  odict_del d k = Ret d' ->
  odict_contains d k = true /\ d' = List.filter (fun kv => negb (has_key k kv)) d.
Proof. unfold odict_del. destruct (odict_contains d k); [|discriminate]. now intros [= <-]. Qed.

Lemma contains_del_same d k d' : odict_del d k = Ret d' -> odict_contains d' k = false.
Proof.
  intros [_ ->]%del_inv. apply not_true_iff_false. intros Hc%contains_In.
  apply in_map_iff in Hc as (kv & Hk & Hin). apply filter_In in Hin as [_ Hin].
  apply has_key_eq in Hk. rewrite Hk in Hin. discriminate.
Qed.

Lemma getitem_del_other d k k' d' :
  odict_del d k = Ret d' -> k' <> k -> odict_getitem d' k' = odict_getitem d k'.
Proof.
  intros [_ ->]%del_inv Hne. unfold odict_getitem.
  induction d as [|kv d IH]; simpl; [reflexivity|].
  destruct (has_key k kv) eqn:E; simpl.
  - apply has_key_eq in E.
    replace (has_key k' kv) with false by (symmetry; apply has_key_neq; congruence).
    exact IH.
  - destruct (has_key k' kv); [reflexivity | exact IH].
Qed.

Lemma keys_del d k d' :
  odict_del d k = Ret d' ->
  map fst d' = List.filter (fun k' => negb (String.eqb k' k)) (map fst d).
Proof.
  intros [_ ->]%del_inv. induction d as [|kv d IH]; simpl; [reflexivity|].
  unfold has_key at 1. destruct (String.eqb (fst kv) k); simpl; congruence.
Qed.

Lemma distinct_keys_del d k d' :
  distinct_keys d -> odict_del d k = Ret d' -> distinct_keys d'.
Proof.
  unfold distinct_keys. intros Hnd Hdel. rewrite (keys_del _ _ _ Hdel).
  now apply List.NoDup_filter.
Qed.

Lemma filter_absent_key d k :
  ~ In k (map fst d) -> List.filter (fun kv => negb (has_key k kv)) d = d.
Proof.
  induction d as [|kv d IH]; simpl; intros Hk; [reflexivity|].
  destruct (has_key k kv) eqn:E; simpl.
  - apply has_key_eq in E. tauto.
  - f_equal. tauto.
Qed.

Lemma length_del d k d' :
  distinct_keys d -> odict_del d k = Ret d' -> length d = S (length d').
Proof.
  unfold distinct_keys. intros Hnd [Hc ->]%del_inv. apply contains_In in Hc.
  induction d as [|kv d IH]; simpl in *; [destruct Hc|].
  apply NoDup_cons_iff in Hnd as [Hkv Hnd].
  destruct (has_key k kv) eqn:E; simpl.
  - apply has_key_eq in E. rewrite filter_absent_key; congruence.
  - f_equal. apply IH; [assumption|].
    destruct Hc as [Hc|Hc]; [|assumption]. apply has_key_neq in E. congruence.
Qed.
End Dict.

End DictFacts.

Module SortAscFacts.
Import Py PyMore FloatOrder.
#[local] Open Scope float_scope.

Section Sort.
Context {A : Type} (key : A -> float).

Lemma insert_asc_perm (x : A) (l : list A) : insert_asc key x l ≡ₚ x :: l.
Proof.
  induction l as [|y l IH]; simpl; [reflexivity|].
  destruct (key y <? key x); [|reflexivity].
  rewrite IH. apply Permutation_swap.
Qed.

Lemma sort_asc_perm (l : list A) : sort_asc key l ≡ₚ l.
Proof.
  induction l as [|x l IH]; simpl; [reflexivity|].
  rewrite insert_asc_perm. now rewrite IH.
Qed.

Lemma sort_asc_length (l : list A) : length (sort_asc key l) = length l.
Proof. apply Permutation_length, sort_asc_perm. Qed.

Lemma insert_asc_sorted (x : A) (l : list A) :
  not_nan (key x) -> keys_not_nan key l ->
  StronglySorted (asc key) l -> StronglySorted (asc key) (insert_asc key x l).
Proof.
  intros Hx Hl Hs. induction Hs as [|y l Hs IH Hy]; simpl.
  - repeat constructor.
  - inversion_clear Hl as [|? ? Hny Hnl].
    destruct (key y <? key x) eqn:E.
    + constructor; [auto|].
      rewrite insert_asc_perm. constructor; [|exact Hy].
      now apply ltb_leb.
    + assert (Hxy : asc key x y) by (now apply leb_total).
      constructor; [now constructor|].
      constructor; [exact Hxy|].
      eapply Forall_impl; [exact Hy|].
      intros z Hz. unfold asc in *. eapply leb_trans; eauto.
Qed.

(** The result is in ascending order of the key. *)
Lemma sort_asc_sorted (l : list A) :
  keys_not_nan key l -> StronglySorted (asc key) (sort_asc key l).
Proof.
  induction l as [|x l IH]; simpl; intros Hl; [constructor|].
  inversion_clear Hl as [|? ? Hx Hl'].
  apply insert_asc_sorted; auto.
  unfold keys_not_nan. now rewrite sort_asc_perm.
Qed.
End Sort.

(** In a sorted list every element of a front part is related to every
    element of the rest. *)
Lemma StronglySorted_app_inv {A} (R : A -> A -> Prop) (l1 l2 : list A) (x y : A) :
  StronglySorted R (l1 ++ l2) -> In x l1 -> In y l2 -> R x y.
Proof.
  induction l1 as [|z l1 IH]; simpl; intros Hs Hx Hy; [destruct Hx|].
  inversion_clear Hs as [|? ? Hs' Hz].
  destruct Hx as [->|Hx]; [|auto].
  rewrite List.Forall_forall in Hz. apply Hz, in_or_app. now right.
Qed.

End SortAscFacts.

(* ===================================================================== *)
(** * The in-memory cache *)
(* ===================================================================== *)

Module memory_cache_spec.
Import Py PyMore DictFacts SortAscFacts FloatOrder memory_cache.

Section InMemoryCache.
Context {V : Type}.
Implicit Types (self : InMemoryCache V) (c : odict (V * float)).

Lemma filter_filter {A} (f g : A -> bool) (l : list A) :
  List.filter f (List.filter g l) = List.filter (fun x => g x && f x) l.
Proof.
  induction l as [|x l IH]; simpl; [reflexivity|].
  destruct (g x); simpl; [destruct (f x)|]; congruence.
Qed.

(** The loop of [_cleanup_lru] walks over the first [n] sorted items. *)
Lemma remove_by_index (sorted : list (string * (V * float))) (n a : nat) c :
  (a + n <= length sorted)%nat ->
  for_each (remove_sorted_item sorted) (seq a n) c
  = for_each (fun item c => odict_del c (fst item)) (take n (drop a sorted)) c.
Proof.
  revert a c. induction n as [|n IH]; intros a c Hlen; simpl; [reflexivity|].
  destruct (lookup_lt_is_Some_2 sorted a) as [x Hx]; [lia|].
  rewrite (drop_S _ _ _ Hx). simpl.
  unfold remove_sorted_item at 1, list_getitem. rewrite Hx. simpl.
  destruct (odict_del c (fst x)) as [c'|e]; [|reflexivity].
  apply IH. lia.
Qed.

(** Deleting the keys of [vs], which are distinct and present, leaves the
    other items in place. *)
Lemma remove_items (vs : list (string * (V * float))) c :
  List.NoDup (map fst vs) -> incl (map fst vs) (map fst c) -> distinct_keys c ->
  exists c',
    for_each (fun item c => odict_del c (fst item)) vs c = Ret c'
    /\ c' = List.filter (fun kv => negb (existsb (String.eqb (fst kv)) (map fst vs))) c
    /\ length c = (length vs + length c')%nat
    /\ distinct_keys c'.
Proof.
  revert c. induction vs as [|v vs IH]; intros c Hnd Hincl Hc; simpl.
  - exists c. repeat split; [|assumption].
    induction c as [|kv c IHc]; simpl; [reflexivity|]. f_equal. apply IHc.
    + intros k [].
    + now apply NoDup_cons_iff in Hc.
  - apply NoDup_cons_iff in Hnd as [Hv Hnd].
    assert (Hin : odict_contains c (fst v) = true)
      by (apply contains_In, Hincl; now left).
    pose proof (del_Ret _ _ Hin) as Hdel. rewrite Hdel.
    destruct (IH (List.filter (fun kv => negb (has_key (fst v) kv)) c))
      as (c' & Hloop & Hc' & Hlen & Hd); [assumption | | |].
    + intros k Hk. rewrite (keys_del _ _ _ Hdel). apply filter_In. split.
      * apply Hincl. now right.
      * apply negb_true_iff, String.eqb_neq. intros ->. contradiction.
    + eapply distinct_keys_del; eauto.
    + exists c'. split; [exact Hloop|]. split; [|split; [|exact Hd]].
      * rewrite Hc', filter_filter. apply filter_ext. intros kv.
        unfold has_key. now rewrite negb_orb.
      * rewrite (length_del _ _ _ Hc Hdel). lia.
Qed.

(** What [_cleanup_lru] does to a cache with distinct keys: nothing below
    [max_size], and otherwise it drops the first quarter of the items in
    order of expiry. *)
Lemma cleanup_lru_spec self :
  distinct_keys (cache self) ->
  exists c',
    _cleanup_lru self = Ret (with_cache self c')
    /\ distinct_keys c'
    /\ if Z.of_nat (length (cache self)) <? max_size self then c' = cache self
       else
         let n := Z.to_nat (Z.of_nat (length (cache self)) / 4) in
         let victims := take n (sort_asc expires_at (cache self)) in
         c' = List.filter
                (fun kv => negb (existsb (String.eqb (fst kv)) (map fst victims)))
                (cache self)
         /\ length (cache self) = (n + length c')%nat.
Proof.
  intros Hd. unfold _cleanup_lru.
  destruct (Z.of_nat (length (cache self)) <? max_size self).
  - exists (cache self). destruct self; simpl in *. auto.
  - set (n := Z.to_nat (Z.of_nat (length (cache self)) / 4)).
    set (sorted := sort_asc expires_at (cache self)).
    assert (Hn : (n <= length sorted)%nat).
    { unfold n, sorted. rewrite sort_asc_length.
      pose proof (Z.div_le_upper_bound (Z.of_nat (length (cache self))) 4
                    (Z.of_nat (length (cache self)))). lia. }
    rewrite (remove_by_index sorted n 0) by lia. rewrite drop_0.
    pose proof (sort_asc_perm expires_at (cache self)) as Hperm. fold sorted in Hperm.
    destruct (remove_items (take n sorted) (cache self)) as (c' & -> & Hc' & Hlen & Hd').
    + apply (NoDup_app_remove_r _ (map fst (drop n sorted))).
      rewrite <- map_app, take_drop.
      eapply Permutation_NoDup; [|exact Hd]. symmetry. now apply Permutation_map.
    + intros k Hk. eapply Permutation_in; [apply Permutation_map, Hperm|].
      rewrite <- (take_drop n sorted), map_app. apply in_or_app. now left.
    + assumption.
    + exists c'. simpl. repeat split; try assumption.
      rewrite length_take in Hlen. lia.
Qed.

Lemma float_add_int_Ret (now t : float) (ttl : Z) :
  float_of_int ttl = Ret t -> float_add_int now ttl = Ret (now + t)%float.
Proof. unfold float_add_int. now intros ->. Qed.

(** [put] on a cache with distinct keys: the cleanup, if any, then the
    assignment. *)
Lemma put_spec self (now : float) (key : string) (value : V)
    (ttl_seconds : option Z) (t : float) :
  distinct_keys (cache self) ->
  float_of_int (effective_ttl self ttl_seconds) = Ret t ->
  exists c1,
    (if Z.of_nat (length (cache self)) >=? max_size self
     then _cleanup_lru self = Ret (with_cache self c1) else c1 = cache self)
    /\ distinct_keys c1
    /\ put self now key value ttl_seconds
       = Ret (with_cache self (odict_set c1 key (value, (now + t)%float))).
Proof.
  intros Hd Ht. unfold put. rewrite (float_add_int_Ret _ _ _ Ht). simpl.
  destruct (Z.of_nat (length (cache self)) >=? max_size self).
  - destruct (cleanup_lru_spec self Hd) as (c1 & Hc1 & Hd1 & _).
    exists c1. rewrite Hc1. auto.
  - exists (cache self). auto.
Qed.

(** X1.  A value stored by [put] is what [get] returns for the same key
    until the clock passes [now + ttl], and [None] after that.  The time to
    live is [ttl_seconds or default_ttl_seconds]: a [ttl_seconds] of [0]
    selects the default, it does not mean "expire at once".  [put] itself
    never fails on a cache with distinct keys as long as the time to live
    fits in a float. *)
Theorem put_then_get self (now : float) (key : string) (value : V)
    (ttl_seconds : option Z) (t : float) :
  distinct_keys (cache self) ->
  float_of_int (effective_ttl self ttl_seconds) = Ret t ->
  exists self',
    put self now key value ttl_seconds = Ret self'
    /\ distinct_keys (cache self')
    /\ forall now',
         (float_gt now' (now + t)%float = false ->
          get self' now' key = Ret (Some value, self'))
         /\ (float_gt now' (now + t)%float = true ->
             exists self'', get self' now' key = Ret (None, self'')
                            /\ odict_contains (cache self'') key = false).
Proof.
  intros Hd Ht. destruct (put_spec self now key value ttl_seconds t Hd Ht)
    as (c1 & _ & Hd1 & ->).
  eexists. split; [reflexivity|]. split; [now apply distinct_keys_set|].
  intros now'. unfold get. simpl.
  assert (Hc : odict_contains (odict_set c1 key (value, (now + t)%float)) key = true).
  { apply not_false_iff_true. intros Hc%getitem_not_contains.
    rewrite getitem_set_same in Hc. discriminate. }
  rewrite Hc, getitem_set_same. simpl. split; intros ->; [reflexivity|].
  rewrite (del_Ret _ _ Hc). simpl. eexists. split; [reflexivity|]. simpl.
  eapply contains_del_same, del_Ret, Hc.
Qed.

(** X2.  [put] changes no entry but the one it writes: another key that is
    still present afterwards has the value and the expiry it had before,
    and when the cache was below [max_size] every other key is still
    there. *)
Theorem put_keeps_other_entries self (now : float) (key : string) (value : V)
    (ttl_seconds : option Z) self' (key' : string) :
  distinct_keys (cache self) ->
  put self now key value ttl_seconds = Ret self' ->
  key' <> key ->
  (forall entry, odict_getitem (cache self') key' = Ret entry ->
                 odict_getitem (cache self) key' = Ret entry)
  /\ (Z.of_nat (length (cache self)) < max_size self ->
      odict_getitem (cache self') key' = odict_getitem (cache self) key').
Proof.
  intros Hd Hput Hne.
  assert (exists t, float_of_int (effective_ttl self ttl_seconds) = Ret t) as [t Ht].
  { unfold put, float_add_int in Hput.
    destruct (float_of_int (effective_ttl self ttl_seconds)); [eauto | discriminate]. }
  destruct (put_spec self now key value ttl_seconds t Hd Ht) as (c1 & Hc1 & Hd1 & Hp).
  rewrite Hp in Hput. injection Hput as <-. simpl.
  rewrite getitem_set_other by assumption. split.
  - intros entry Hget. apply getitem_Ret_In in Hget.
    apply getitem_In; [assumption|].
    destruct (Z.of_nat (length (cache self)) >=? max_size self).
    + destruct (cleanup_lru_spec self Hd) as (c' & Hc' & _ & Hcase).
      rewrite Hc' in Hc1. injection Hc1 as <-.
      destruct (Z.of_nat (length (cache self)) <? max_size self); [now subst|].
      destruct Hcase as [-> _]. now apply filter_In in Hget.
    + now subst c1.
  - intros Hlt. destruct (Z.geb_spec (Z.of_nat (length (cache self))) (max_size self)); [lia|].
    now subst c1.
Qed.

(** X3.  [get] never raises, and the entry under the key decides what it
    does.  It takes [return value], with the stored value, exactly when
    the key is present and the clock has not passed its expiry, and then
    it changes nothing, not even the position or the expiry of the entry.
    Otherwise it takes [return None], and the key is absent afterwards (an
    expired entry is removed).  No other key is affected.  Any object can
    be stored, [None] too, so the object returned does not tell a miss
    from a hit: when the call evaluates to [None], either the key is
    absent afterwards or [None] itself is stored under it, unexpired, and
    stays. *)
Theorem get_spec (none : V) self (now : float) (key : string) :
  exists r self',
    get self now key = Ret (r, self')
    /\ (forall v, r = Some v <->
          exists e, odict_getitem (cache self) key = Ret (v, e)
                    /\ float_gt now e = false)
    /\ (r = None -> odict_contains (cache self') key = false)
    /\ (r <> None -> self' = self)
    /\ (forall key', key' <> key ->
          odict_getitem (cache self') key' = odict_getitem (cache self) key')
    /\ (returned none r = none ->
        odict_contains (cache self') key = false
        \/ (self' = self
            /\ exists e, odict_getitem (cache self) key = Ret (none, e)
                         /\ float_gt now e = false)).
Proof.
  unfold get. destruct (odict_contains (cache self) key) eqn:Hc; simpl.
  - destruct (getitem_contains _ _ Hc) as ([v e] & Hget). rewrite Hget. simpl.
    destruct (float_gt now e) eqn:Hgt.
    + pose proof (del_Ret _ _ Hc) as Hdel. rewrite Hdel. simpl.
      eexists None, _. split; [reflexivity|]. simpl. repeat split.
      * discriminate.
      * intros (e' & [= <- <-] & He). congruence.
      * intros _. eapply contains_del_same; eauto.
      * congruence.
      * intros key' Hne. eapply getitem_del_other; eauto.
      * intros _. left. eapply contains_del_same; eauto.
    + eexists (Some v), self. split; [reflexivity|]. repeat split.
      * intros [= <-]. eauto.
      * intros (e' & [= <- <-] & _). reflexivity.
      * discriminate.
      * simpl. intros ->. right. split; [reflexivity|]. eauto.
  - exists None, self. split; [reflexivity|]. repeat split.
    + discriminate.
    + intros (e & Hget & _). rewrite getitem_not_contains in Hget by assumption.
      discriminate.
    + intros _. exact Hc.
    + intros _. left. exact Hc.
Qed.

(** X4.  [delete] never raises and returns [True] exactly when the key was
    present.  Afterwards the key is absent, so a second [delete] returns
    [False] and a [get] returns [None]; every other key is untouched, and
    the number of entries drops by one exactly when [True] was returned. *)
Theorem delete_spec self (key : string) :
  distinct_keys (cache self) ->
  exists self',
    delete self key = Ret (odict_contains (cache self) key, self')
    /\ delete self' key = Ret (false, self')
    /\ (forall now, get self' now key = Ret (None, self'))
    /\ (forall key', key' <> key ->
          odict_getitem (cache self') key' = odict_getitem (cache self) key')
    /\ Z.of_nat (length (cache self'))
       = Z.of_nat (length (cache self))
         - (if odict_contains (cache self) key then 1 else 0).
Proof.
  intros Hd. unfold delete at 1. destruct (odict_contains (cache self) key) eqn:Hc.
  - pose proof (del_Ret _ _ Hc) as Hdel. rewrite Hdel. simpl.
    eexists. split; [reflexivity|].
    pose proof (contains_del_same _ _ _ Hdel) as Hc'.
    unfold delete, get. simpl. rewrite Hc'. simpl. repeat split.
    + intros key' Hne. eapply getitem_del_other; eauto.
    + rewrite (length_del _ _ _ Hd Hdel). lia.
  - exists self. unfold delete, get. rewrite Hc. simpl. repeat split. lia.
Qed.

(** X5.  The size bound [put] maintains is [max(max_size, 4)], not
    [max_size]: the cleanup removes a quarter of the entries rounded down,
    which is nothing for a cache of fewer than four entries. *)
Theorem put_size_bound self (now : float) (key : string) (value : V)
    (ttl_seconds : option Z) self' :
  distinct_keys (cache self) ->
  put self now key value ttl_seconds = Ret self' ->
  Z.of_nat (length (cache self)) <= Z.max (max_size self) 4 ->
  max_size self' = max_size self
  /\ Z.of_nat (length (cache self')) <= Z.max (max_size self) 4.
Proof.
  intros Hd Hput Hlen.
  assert (exists t, float_of_int (effective_ttl self ttl_seconds) = Ret t) as [t Ht].
  { unfold put, float_add_int in Hput.
    destruct (float_of_int (effective_ttl self ttl_seconds)); [eauto | discriminate]. }
  destruct (put_spec self now key value ttl_seconds t Hd Ht) as (c1 & Hc1 & Hd1 & Hp).
  rewrite Hp in Hput. injection Hput as <-. simpl. split; [reflexivity|].
  assert (Hset : (length (odict_set c1 key (value, (now + t)%float)) <= S (length c1))%nat).
  { rewrite length_set. destruct (odict_contains c1 key); lia. }
  destruct (Z.geb_spec (Z.of_nat (length (cache self))) (max_size self)) as [Hge|Hlt].
  - destruct (cleanup_lru_spec self Hd) as (c' & Hc' & _ & Hcase).
    rewrite Hc' in Hc1. injection Hc1 as <-.
    destruct (Z.ltb_spec (Z.of_nat (length (cache self))) (max_size self)); [lia|].
    destruct Hcase as [_ Hn].
    set (len := Z.of_nat (length (cache self))) in *.
    assert (Hpos : 0 <= len / 4) by (apply Z.div_pos; lia).
    assert (Hq : Z.of_nat (length c') = len - len / 4).
    { unfold len at 1. rewrite Hn. lia. }
    destruct (Z.lt_ge_cases len 4) as [Hsmall|Hbig].
    + assert (len / 4 = 0) by (apply Z.div_small; lia). lia.
    + assert (1 <= len / 4) by (apply Z.div_le_lower_bound; lia). lia.
  - subst c1. lia.
Qed.

(** X6.  What [_cleanup_lru] evicts when the cache is full is decided by
    expiry time alone, not by use: a quarter of the entries (rounded down)
    goes, the survivors keep their order, and no evicted entry expires
    later than an entry that stays. *)
Theorem cleanup_lru_evicts_earliest_expiry self self' :
  distinct_keys (cache self) ->
  keys_not_nan expires_at (cache self) ->
  max_size self <= Z.of_nat (length (cache self)) ->
  _cleanup_lru self = Ret self' ->
  Z.of_nat (length (cache self'))
  = Z.of_nat (length (cache self)) - Z.of_nat (length (cache self)) / 4
  /\ (exists keep, cache self' = List.filter keep (cache self))
  /\ forall gone kept,
       In gone (cache self) -> ~ In gone (cache self') -> In kept (cache self') ->
       (expires_at gone <=? expires_at kept)%float = true.
Proof.
  intros Hd Hnan Hfull Hclean.
  destruct (cleanup_lru_spec self Hd) as (c' & Hc' & _ & Hcase).
  rewrite Hc' in Hclean. injection Hclean as <-. simpl.
  destruct (Z.ltb_spec (Z.of_nat (length (cache self))) (max_size self)); [lia|].
  destruct Hcase as [Hfilter Hn].
  set (n := Z.to_nat (Z.of_nat (length (cache self)) / 4)) in *.
  set (sorted := sort_asc expires_at (cache self)) in *.
  pose proof (sort_asc_perm expires_at (cache self)) as Hperm. fold sorted in Hperm.
  split; [|split].
  - assert (0 <= Z.of_nat (length (cache self)) / 4) by (apply Z.div_pos; lia).
    unfold n in Hn. lia.
  - eexists. exact Hfilter.
  - intros gone kept Hgone Hnot Hkept.
    apply (StronglySorted_app_inv (asc expires_at) (take n sorted) (drop n sorted)).
    + rewrite take_drop. now apply sort_asc_sorted.
    + (* an evicted item is one of the first [n] sorted items *)
      assert (Hk : existsb (String.eqb (fst gone)) (map fst (take n sorted)) = true).
      { apply not_false_iff_true. intros Hk. apply Hnot. rewrite Hfilter.
        apply filter_In. split; [assumption | now rewrite Hk]. }
      apply existsb_exists in Hk as (k & Hk & Heq%String.eqb_eq). subst k.
      apply in_map_iff in Hk as ([k' x] & Hkx & Hin). simpl in Hkx. subst k'.
      assert (Hin' : In (fst gone, x) (cache self)).
      { eapply Permutation_in; [exact Hperm|].
        rewrite <- (take_drop n sorted). apply in_or_app. now left. }
      destruct gone as [k y]. simpl in *.
      apply (getitem_In _ _ _ Hd) in Hin'. apply (getitem_In _ _ _ Hd) in Hgone.
      assert (x = y) as -> by congruence. exact Hin.
    + (* an item that stays is not one of them *)
      rewrite Hfilter in Hkept. apply filter_In in Hkept as [Hkept Hk].
      apply negb_true_iff in Hk.
      assert (Hs : In kept sorted) by (eapply Permutation_in; [symmetry; exact Hperm | exact Hkept]).
      rewrite <- (take_drop n sorted) in Hs. apply in_app_or in Hs as [Hs|Hs]; [|exact Hs].
      exfalso. apply not_true_iff_false in Hk. apply Hk.
      apply existsb_exists. exists (fst kept). split; [|apply String.eqb_refl].
      apply in_map_iff. eauto.
Qed.

Lemma filter_negb_length {A} (f : A -> bool) (l : list A) :
  (length (List.filter f l) + length (List.filter (fun x => negb (f x)) l))%nat = length l.
Proof.
  induction l as [|x l IH]; simpl; [reflexivity|].
  destruct (f x); simpl; lia.
Qed.

(** X7.  The statistics agree with [get]: the entries counted as active at
    a time are exactly those whose key [get] would serve at that time, and
    the active and expired counts add up to the total. *)
Theorem get_stats_counts_served self (now : float) :
  distinct_keys (cache self) ->
  active_entries (get_stats self now)
  = Z.of_nat (length (List.filter
       (fun item => match get self now (fst item) with
                    | Ret (Some _, _) => true
                    | _ => false
                    end) (cache self)))
  /\ active_entries (get_stats self now) + expired_entries (get_stats self now)
     = total_entries (get_stats self now)
  /\ 0 <= active_entries (get_stats self now).
Proof.
  intros Hd. unfold get_stats. cbn [total_entries active_entries expired_entries].
  pose proof (filter_negb_length (fun item => (expires_at item <? now)%float) (cache self)) as Hlen.
  cbv beta in Hlen. apply (f_equal Z.of_nat) in Hlen. rewrite Nat2Z.inj_add in Hlen.
  split; [|split; lia].
  match goal with |- _ = Z.of_nat (length (List.filter ?f _)) =>
    rewrite (filter_ext_in f (fun item => negb (expires_at item <? now)%float))
  end; [lia|].
  intros [k [v e]] Hin. unfold get. simpl.
  assert (Hc : odict_contains (cache self) k = true).
  { apply contains_In, in_map_iff. exists (k, (v, e)). auto. }
  rewrite Hc, (getitem_In _ _ _ Hd Hin). simpl.
  unfold float_gt, expires_at. simpl. destruct (e <? now)%float; [|reflexivity].
  now rewrite (del_Ret _ _ Hc).
Qed.
End InMemoryCache.

Import more_fixtures.

Ltac distinct_keys_by_computation :=
  unfold distinct_keys; simpl;
  repeat (apply List.NoDup_cons; [simpl; intuition discriminate|]);
  apply List.NoDup_nil.

(** A fresh cache, a [put] with [ttl_seconds=0] at time 1000: the entry is
    served for the default 300 seconds. *)
Lemma put_then_get_witness :
  exists self',
    put (InMemoryCache_init 2 300) 1000%float "k" "v" (Some 0) = Ret self'
    /\ distinct_keys (cache self')
    /\ forall now',
         (float_gt now' (1000 + 300)%float = false ->
          get self' now' "k" = Ret (Some "v", self'))
         /\ (float_gt now' (1000 + 300)%float = true ->
             exists self'', get self' now' "k" = Ret (None, self'')
                            /\ odict_contains (cache self'') "k" = false).
Proof.
  apply (put_then_get (InMemoryCache_init 2 300) 1000%float "k" "v" (Some 0) 300%float).
  - distinct_keys_by_computation.
  - vm_compute. reflexivity.
Defined.

Example put_ttl_zero_is_served :
  exists self',
    put (InMemoryCache_init 2 300) 1000%float "k" "v" (Some 0) = Ret self'
    /\ get self' 1299.5%float "k" = Ret (Some "v", self').
Proof. eexists. split; vm_compute; reflexivity. Qed.

Lemma put_keeps_other_entries_witness :
  (forall entry, odict_getitem (cache fx_memory_after) "c" = Ret entry ->
                 odict_getitem (cache fx_memory) "c" = Ret entry)
  /\ (Z.of_nat (length (cache fx_memory)) < max_size fx_memory ->
      odict_getitem (cache fx_memory_after) "c" = odict_getitem (cache fx_memory) "c").
Proof.
  apply (put_keeps_other_entries fx_memory 1000%float "e" "epsilon" None fx_memory_after "c").
  - distinct_keys_by_computation.
  - vm_compute. reflexivity.
  - discriminate.
Defined.

Lemma delete_spec_witness :
  exists self',
    delete fx_memory "b" = Ret (odict_contains (cache fx_memory) "b", self')
    /\ delete self' "b" = Ret (false, self')
    /\ (forall now, get self' now "b" = Ret (None, self'))
    /\ (forall key', key' <> "b" ->
          odict_getitem (cache self') key' = odict_getitem (cache fx_memory) key')
    /\ Z.of_nat (length (cache self'))
       = Z.of_nat (length (cache fx_memory))
         - (if odict_contains (cache fx_memory) "b" then 1 else 0).
Proof. apply (delete_spec fx_memory "b"). distinct_keys_by_computation. Defined.

Lemma put_size_bound_witness :
  max_size fx_memory_after = max_size fx_memory
  /\ Z.of_nat (length (cache fx_memory_after)) <= Z.max (max_size fx_memory) 4.
Proof.
  apply (put_size_bound fx_memory 1000%float "e" "epsilon" None fx_memory_after).
  - distinct_keys_by_computation.
  - vm_compute. reflexivity.
  - simpl. lia.
Defined.

(** With [max_size = 2] the third [put] leaves three entries, and the
    fourth leaves four. *)
Example put_exceeds_max_size :
  exists s1 s2 s3 s4,
    put (InMemoryCache_init 2 300) 1000%float "a" "1" None = Ret s1
    /\ put s1 1001%float "b" "2" None = Ret s2
    /\ put s2 1002%float "c" "3" None = Ret s3
    /\ put s3 1003%float "d" "4" None = Ret s4
    /\ map fst (cache s3) = ["a"; "b"; "c"]
    /\ map fst (cache s4) = ["a"; "b"; "c"; "d"].
Proof. do 4 eexists. repeat split; vm_compute; reflexivity. Qed.

Lemma cleanup_lru_evicts_earliest_expiry_witness :
  Z.of_nat (length (cache fx_memory_cleaned))
  = Z.of_nat (length (cache fx_memory)) - Z.of_nat (length (cache fx_memory)) / 4
  /\ (exists keep, cache fx_memory_cleaned = List.filter keep (cache fx_memory))
  /\ forall gone kept,
       In gone (cache fx_memory) -> ~ In gone (cache fx_memory_cleaned) ->
       In kept (cache fx_memory_cleaned) ->
       (expires_at gone <=? expires_at kept)%float = true.
Proof.
  apply (cleanup_lru_evicts_earliest_expiry fx_memory fx_memory_cleaned).
  - distinct_keys_by_computation.
  - repeat constructor.
  - simpl. lia.
  - vm_compute. reflexivity.
Defined.

(** At time 1150 the two entries expiring at 1100 are no longer served. *)
Lemma get_stats_counts_served_witness :
  active_entries (get_stats fx_memory 1150%float)
  = Z.of_nat (length (List.filter
       (fun item => match get fx_memory 1150%float (fst item) with
                    | Ret (Some _, _) => true
                    | _ => false
                    end) (cache fx_memory)))
  /\ active_entries (get_stats fx_memory 1150%float)
     + expired_entries (get_stats fx_memory 1150%float)
     = total_entries (get_stats fx_memory 1150%float)
  /\ 0 <= active_entries (get_stats fx_memory 1150%float).
Proof. apply (get_stats_counts_served fx_memory 1150%float). distinct_keys_by_computation. Defined.

Example get_stats_example :
  active_entries (get_stats fx_memory 1150%float) = 2
  /\ expired_entries (get_stats fx_memory 1150%float) = 2.
Proof. split; vm_compute; reflexivity. Qed.

(** A stored [None] that has not expired: the call evaluates to [None],
    as a miss does, and the key stays in the cache. *)
Example get_returns_stored_None :
  let self := {| max_size := 4; default_ttl_seconds := 300;
                 cache := [("k", (None : option string, 1300%float))] |} in
  get self 1000%float "k" = Ret (Some None, self)
  /\ returned None (Some None : option (option string)) = None
  /\ returned None (None : option (option string)) = None
  /\ odict_contains (cache self) "k" = true.
Proof. repeat split. Qed.

End memory_cache_spec.

(* ===================================================================== *)
(** * Signs of sums of squares, and the clamp *)
(* ===================================================================== *)

Module FloatSign.
Import Py FloatOrder.
#[local] Open Scope float_scope.

(** Rounding with the sign bit clear gives nothing below zero. *)
Lemma binary_round_aux_not_negative (mx ex : Z) (lx : location) :
  SFltb (binary_round_aux prec emax false mx ex lx) (S754_zero false) = false.
Proof.
  unfold binary_round_aux.
  destruct (shr_fexp prec emax mx ex lx) as [mrs' e'].
  destruct (shr_fexp prec emax _ e' loc_Exact) as [mrs'' e''].
  destruct (shr_m mrs''); [reflexivity | | reflexivity].
  destruct (e'' <=? emax - prec)%Z; reflexivity.
Qed.

Lemma SFmul_self_not_negative (x : spec_float) :
  SFltb (SFmul prec emax x x) (S754_zero false) = false.
Proof.
  destruct x as [[]|[]| |[] m e]; try reflexivity; simpl;
    apply binary_round_aux_not_negative.
Qed.

Lemma SFadd_not_negative (x y : spec_float) :
  SFltb x (S754_zero false) = false -> SFltb y (S754_zero false) = false ->
  SFltb (SFadd prec emax x y) (S754_zero false) = false.
Proof.
  destruct x as [[]|[]| |[] mx ex]; destruct y as [[]|[]| |[] my ey];
    try reflexivity; try discriminate; intros _ _.
  unfold SFadd, cond_Zopp, binary_normalize.
  change (Z.pos ?a + Z.pos ?b)%Z with (Z.pos (a + b)).
  unfold binary_round.
  match goal with |- context [shl_align (?a + ?b)%positive ?e ?e'] =>
    destruct (shl_align (a + b)%positive e e') as [mz ez]
  end.
  apply binary_round_aux_not_negative.
Qed.

Lemma SFsqrt_not_negative (x : spec_float) :
  SFltb (SFsqrt prec emax x) (S754_zero false) = false.
Proof.
  destruct x as [[]|[]| |[] m e]; try reflexivity.
  unfold SFsqrt. destruct (SFsqrt_core_binary prec emax (Z.pos m) e) as [[mz ez] lz].
  apply binary_round_aux_not_negative.
Qed.

Lemma zero_spec : Prim2SF 0 = S754_zero false.
Proof. reflexivity. Qed.

Lemma mul_self_not_negative (a : float) : (a * a <? 0) = false.
Proof.
  rewrite FloatAxioms.ltb_spec, FloatAxioms.mul_spec, zero_spec.
  apply SFmul_self_not_negative.
Qed.

Lemma add_not_negative (a b : float) :
  (a <? 0) = false -> (b <? 0) = false -> (a + b <? 0) = false.
Proof.
  rewrite !FloatAxioms.ltb_spec, FloatAxioms.add_spec, zero_spec.
  apply SFadd_not_negative.
Qed.

Lemma sqrt_not_negative (a : float) : (PrimFloat.sqrt a <? 0) = false.
Proof.
  rewrite FloatAxioms.ltb_spec, FloatAxioms.sqrt_spec, zero_spec.
  apply SFsqrt_not_negative.
Qed.

(** A sum of squares is never below zero, so its square root is defined. *)
Lemma sum_of_squares_not_negative (l : list float) :
  (float_sum (map (fun a => a * a) l) <? 0) = false.
Proof.
  unfold float_sum.
  assert (H : forall acc, (acc <? 0) = false ->
                (fold_left PrimFloat.add (map (fun a => a * a) l) acc <? 0) = false).
  { induction l as [|a l IH]; simpl; intros acc Hacc; [exact Hacc|].
    apply IH, add_not_negative; [exact Hacc | apply mul_self_not_negative]. }
  apply H. reflexivity.
Qed.

Lemma math_sqrt_sum_of_squares (l : list float) :
  math_sqrt (float_sum (map (fun a => a * a) l))
  = Ret (PrimFloat.sqrt (float_sum (map (fun a => a * a) l))).
Proof. unfold math_sqrt. now rewrite sum_of_squares_not_negative. Qed.

(** [max(0.0, min(1.0, x))] lies in [0, 1] whatever [x] is, NaN included. *)
Lemma clamp_range (x : float) :
  (0 <=? float_max 0 (float_min 1 x)) = true
  /\ (float_max 0 (float_min 1 x) <=? 1) = true.
Proof.
  unfold float_min. destruct (x <? 1) eqn:H1.
  - unfold float_max. destruct (0 <? x) eqn:H0.
    + split; now apply ltb_leb.
    + split; reflexivity.
  - split; reflexivity.
Qed.

End FloatSign.

(* ===================================================================== *)
(** * The semantic cache: similarity, best match, maintenance *)
(* ===================================================================== *)

Module similarity_spec.
Import Py models cache FloatOrder FloatSign.
#[local] Open Scope float_scope.

(** X8.  The cosine similarity of [_calculate_similarity] is a number
    between 0 and 1 whenever the call returns, also for vectors of
    different lengths, empty vectors and vectors with infinite or NaN
    components.  The two square roots never fail; the only exception the
    function can raise is the [ZeroDivisionError] of its division. *)
Theorem calculate_similarity_range (embedding1 embedding2 : list float) :
  (exists s, _calculate_similarity embedding1 embedding2 = Ret s
             /\ (0 <=? s) = true /\ (s <=? 1) = true)
  \/ _calculate_similarity embedding1 embedding2 = Raise ZeroDivisionError.
Proof.
  unfold _calculate_similarity. rewrite !math_sqrt_sum_of_squares. simpl.
  destruct (_ || _).
  - left. exists 0. repeat split.
  - unfold float_div. destruct (_ =? 0); [now right|]. simpl.
    left. eexists. split; [reflexivity|]. apply clamp_range.
Qed.

Lemma calculate_similarity_not_nan (embedding1 embedding2 : list float) (s : float) :
  _calculate_similarity embedding1 embedding2 = Ret s -> (0 <=? s) = true.
Proof.
  unfold _calculate_similarity. rewrite !math_sqrt_sum_of_squares. simpl.
  destruct (_ || _).
  - now intros [= <-].
  - unfold float_div. destruct (_ =? 0); [discriminate|]. simpl.
    intros [= <-]. apply clamp_range.
Qed.

(** Orthogonal vectors, parallel vectors, and vectors of different
    lengths (the longer one is cut by [zip]). *)
Example calculate_similarity_examples :
  _calculate_similarity [1; 0] [0; 1] = Ret 0
  /\ _calculate_similarity [3; 4] [3; 4] = Ret 1
  /\ _calculate_similarity [1; 0] [-1; 0] = Ret 0
  /\ _calculate_similarity [] [1] = Ret 0
  /\ _calculate_similarity [1] [1; 0; 0] = Ret 1.
Proof. repeat split; vm_compute; reflexivity. Qed.

Lemma ltb_irrefl (a : float) : (a <? a) = false.
Proof.
  rewrite FloatAxioms.ltb_spec. generalize (Prim2SF a). intros x. sf_order.
Qed.

Lemma ltb_trans (a b c : float) : (a <? b) = true -> (b <? c) = true -> (a <? c) = true.
Proof. intros Hab Hbc. eapply leb_ltb_trans; [apply ltb_leb|]; eassumption. Qed.

Section BestMatch.
Variables (self : SemanticCache) (query_embedding : list float).

(** What the candidate loop of [get] knows after the entries [seen]: the
    best similarity is a number, no entry seen reaches the threshold with
    a higher similarity, and the best match, if any, is an entry seen whose
    similarity is the best one, is positive and reaches the threshold. *)
Let found (seen : list Row) (best : option (string * string * Z) * float) : Prop :=
  (0 <=? snd best) = true
  /\ (forall entry s, In entry seen ->
        _calculate_similarity query_embedding (cache.query_embedding entry) = Ret s ->
        float_gt s (snd best) && float_ge s (similarity_threshold self) = false)
  /\ match fst best with
     | None => snd best = 0
     | Some (entry_id, resp, count) =>
         exists entry,
           In entry seen /\ row_id entry = entry_id /\ response entry = resp
           /\ access_count entry = count
           /\ _calculate_similarity query_embedding (cache.query_embedding entry)
              = Ret (snd best)
           /\ float_ge (snd best) (similarity_threshold self) = true
           /\ float_gt (snd best) 0 = true
     end.

Lemma best_match_loop (candidates : list Row) :
  forall seen best out,
    for_each (best_match_step self query_embedding) candidates best = Ret out ->
    found seen best -> found (seen ++ candidates) out.
Proof.
  induction candidates as [|entry candidates IH]; simpl; intros seen best out Hout Hinv.
  - injection Hout as <-. now rewrite app_nil_r.
  - destruct (best_match_step self query_embedding entry best) as [best'|] eqn:Hstep;
      [|discriminate].
    replace (seen ++ entry :: candidates) with ((seen ++ [entry]) ++ candidates)
      by (now rewrite <- app_assoc).
    apply (IH _ _ _ Hout). clear IH Hout.
    unfold best_match_step in Hstep.
    destruct (_calculate_similarity _ _) as [s|] eqn:Hs; simpl in Hstep; [|discriminate].
    pose proof (calculate_similarity_not_nan _ _ _ Hs) as Hs0.
    destruct Hinv as (Hb0 & Hseen & Hbest).
    destruct (float_gt s (snd best) && float_ge s (similarity_threshold self)) eqn:Htest;
      injection Hstep as <-.
    + apply andb_true_iff in Htest as [Hgt Hge]. unfold float_gt in Hgt.
      split; [exact Hs0|]. split.
      * intros e' s' [Hin|[<-|[]]]%in_app_or Hs'; simpl.
        -- specialize (Hseen e' s' Hin Hs').
           apply andb_false_iff in Hseen as [Hlt|Hthr]; [|now rewrite Hthr, andb_false_r].
           apply andb_false_iff. unfold float_gt in *.
           destruct (s <? s') eqn:E; [|now left].
           rewrite (ltb_trans _ _ _ Hgt E) in Hlt. discriminate.
        -- assert (s' = s) as -> by congruence.
           unfold float_gt. now rewrite ltb_irrefl.
      * simpl. exists entry. repeat split; try assumption; try reflexivity.
        -- apply in_or_app. right. now left.
        -- unfold float_gt. eapply leb_ltb_trans; [exact Hb0 | exact Hgt].
    + split; [exact Hb0|]. split.
      * intros e' s' [Hin|[<-|[]]]%in_app_or Hs'; [now apply (Hseen e' s')|].
        assert (s' = s) as -> by congruence. exact Htest.
      * destruct (fst best) as [[[i r] c]|]; [|exact Hbest].
        destruct Hbest as (e & Hin & H). exists e. split; [|exact H].
        apply in_or_app. now left.
Qed.

(** The outcome of the candidate loop. *)
Lemma best_match_result (candidates : list Row)
    (out : option (string * string * Z) * float) :
  for_each (best_match_step self query_embedding) candidates (None, 0) = Ret out ->
  match fst out with
  | Some (entry_id, resp, count) =>
      exists entry,
        In entry candidates /\ row_id entry = entry_id /\ response entry = resp
        /\ _calculate_similarity query_embedding (cache.query_embedding entry)
           = Ret (snd out)
        /\ float_ge (snd out) (similarity_threshold self) = true
        /\ float_gt (snd out) 0 = true
        /\ forall entry' s',
             In entry' candidates ->
             _calculate_similarity query_embedding (cache.query_embedding entry') = Ret s' ->
             (s' <=? snd out) = true
  | None =>
      forall entry s,
        In entry candidates ->
        _calculate_similarity query_embedding (cache.query_embedding entry) = Ret s ->
        float_gt s 0 && float_ge s (similarity_threshold self) = false
  end.
Proof.
  intros Hloop. apply (best_match_loop _ []) in Hloop.
  - simpl in Hloop. destruct Hloop as (Hb0 & Hseen & Hbest).
    destruct (fst out) as [[[i r] c]|].
    + destruct Hbest as (e & Hin & Hi & Hr & _ & Hs & Hthr & Hpos).
      exists e. repeat split; try assumption.
      intros e' s' Hin' Hs'. specialize (Hseen e' s' Hin' Hs').
      pose proof (calculate_similarity_not_nan _ _ _ Hs') as Hs0.
      apply leb_not_nan in Hs0 as [_ Hn']. apply leb_not_nan in Hb0 as [_ Hn].
      apply andb_false_iff in Hseen as [Hgt|Hge].
      * now apply leb_total.
      * unfold float_ge in *. pose proof (leb_not_nan _ _ Hthr) as [Hnt _].
        apply ltb_leb. eapply ltb_leb_trans; [|exact Hthr].
        destruct (s' <? similarity_threshold self) eqn:E; [reflexivity|].
        rewrite (leb_total _ _ Hn' Hnt E) in Hge. discriminate.
    + rewrite Hbest in Hseen. exact Hseen.
  - split; [reflexivity|]. split; [intros ? ? []|reflexivity].
Qed.
End BestMatch.

End similarity_spec.

Module semantic_cache_spec.
Import Py models cache FloatOrder similarity_spec.

Section SemanticCache.
Variable encode_text : string -> res (list float).
Variable hash : string -> Z.
Variable json_dumps : gmap string string -> string.
Variable md5_hexdigest : string -> string.

(** How [get] runs on a non-blank query when the database answers: the
    sweep, then the lookup among the rows the sweep left. *)
Lemma get_run (self : SemanticCache) (query : string)
    (context : option (gmap string string)) (model : string) (w : world) :
  truthy (strip query) = true ->
  let w1 := snd ((if hash query `mod` 100 =? 0 then _cleanup_expired else mret 0) w) in
  let now := clock w1 (clock_reads w1) in
  let context_hash := _generate_context_hash json_dumps md5_hexdigest (default ∅ context) in
  exists r w',
    get encode_text hash json_dumps md5_hexdigest self query context model w = (Ret r, w')
    /\ match r with
       | None => rows w' = rows w1
       | Some resp =>
           exists query_embedding entry s,
             encode_text query = Ret query_embedding
             /\ In entry (rows w1)
             /\ is_candidate context_hash model now entry = true
             /\ response entry = resp
             /\ _calculate_similarity query_embedding (cache.query_embedding entry) = Ret s
             /\ float_ge s (similarity_threshold self) = true
             /\ float_gt s 0 = true
             /\ (forall entry' s',
                   In entry' (rows w1) ->
                   is_candidate context_hash model now entry' = true ->
                   _calculate_similarity query_embedding (cache.query_embedding entry')
                     = Ret s' ->
                   (s' <=? s)%float = true)
             /\ rows w'
                = map (touch (clock w1 (S (clock_reads w1))) (row_id entry)) (rows w1)
       end.
Proof.
  intros Hquery w1 now ch. unfold get. rewrite Hquery.
  change (negb true) with false. cbv iota.
  unfold mbind at 1, M_bind at 1.
  assert (Hsweep : exists n,
    (if hash query `mod` 100 =? 0 then _cleanup_expired else mret 0) w = (Ret n, w1)).
  { unfold w1. destruct (hash query `mod` 100 =? 0); [|eexists; reflexivity].
    destruct (cache_spec.cleanup_expired_world w) as (n & w' & -> & _). now exists n. }
  destruct Hsweep as (n & ->).
  unfold try_exceptM, mbind, M_bind, lift.
  destruct (encode_text query) as [query_embedding|]; [|now exists None, w1].
  cbn [utcnow select_rows rows clock clock_reads].
  fold now. fold ch.
  destruct (for_each _ _ _) as [[best sim]|] eqn:Hloop; [|eexists None, _; now split].
  apply best_match_result in Hloop. cbn [fst snd] in *.
  destruct best as [[[entry_id resp] count]|]; [|eexists None, _; now split].
  cbn [utcnow select_rows set_rows mret M_ret rows clock clock_reads].
  eexists (Some resp), _. split; [reflexivity|]. cbn [rows].
  destruct Hloop as (entry & [Hin Hcand]%filter_In & <- & <- & Hs & Hthr & Hpos & Hmax).
  exists query_embedding, entry, sim. repeat split; try assumption.
  intros entry' s' Hin' Hcand'. apply Hmax. apply filter_In. now split.
Qed.

(** X9.  What a call of [get] with a non-blank query has done when it
    returns.  After [None] the table is as the periodic sweep left it.  A
    response is that of a row that is a candidate (same context and model,
    not expired) whose stored query has a positive cosine similarity to
    the query, at least [similarity_threshold] and not below that of any
    other candidate; and the only change to the table is the access time
    and the access count of the rows with the served id.  Nothing is said
    of the calls that do not return: the sweep and [json.dumps(context)]
    run before the [try], and what they raise reaches the caller. *)
Theorem get_serves_best_match (self : SemanticCache) (query : string)
    (context : option (gmap string string)) (model : string) (w : world)
    (r : option string) (w' : world) :
  truthy (strip query) = true ->
  get encode_text hash json_dumps md5_hexdigest self query context model w = (Ret r, w') ->
  let w1 := snd ((if hash query `mod` 100 =? 0 then _cleanup_expired else mret 0) w) in
  let now := clock w1 (clock_reads w1) in
  let context_hash := _generate_context_hash json_dumps md5_hexdigest (default ∅ context) in
  match r with
  | None => rows w' = rows w1
  | Some resp =>
      exists query_embedding entry s,
        encode_text query = Ret query_embedding
        /\ In entry (rows w1)
        /\ is_candidate context_hash model now entry = true
        /\ response entry = resp
        /\ _calculate_similarity query_embedding (cache.query_embedding entry) = Ret s
        /\ float_ge s (similarity_threshold self) = true
        /\ float_gt s 0 = true
        /\ (forall entry' s',
              In entry' (rows w1) ->
              is_candidate context_hash model now entry' = true ->
              _calculate_similarity query_embedding (cache.query_embedding entry')
                = Ret s' ->
              (s' <=? s)%float = true)
        /\ rows w'
           = map (touch (clock w1 (S (clock_reads w1))) (row_id entry)) (rows w1)
  end.
Proof.
  intros Hquery Hrun.
  destruct (get_run self query context model w Hquery) as (r0 & w0 & Hrun0 & H).
  rewrite Hrun in Hrun0. injection Hrun0 as <- <-. exact H.
Qed.
End SemanticCache.

Import fixtures.

(** One live row that matches the query with similarity 1.0: the call
    returns its response. *)
Lemma get_serves_best_match_witness :
  let w := fx_world_of [fx_live_row] in
  let w' := snd (get fx_encode_text fx_hash fx_json_dumps fx_digest fx_cache
                   "capital of France?" None "m" w) in
  let w1 := snd ((if fx_hash "capital of France?" `mod` 100 =? 0
                  then _cleanup_expired else mret 0) w) in
  let now := clock w1 (clock_reads w1) in
  let context_hash := _generate_context_hash fx_json_dumps fx_digest (default ∅ None) in
  exists query_embedding entry s,
    fx_encode_text "capital of France?" = Ret query_embedding
    /\ In entry (rows w1)
    /\ is_candidate context_hash "m" now entry = true
    /\ response entry = "Paris"
    /\ _calculate_similarity query_embedding (cache.query_embedding entry) = Ret s
    /\ float_ge s (similarity_threshold fx_cache) = true
    /\ float_gt s 0 = true
    /\ (forall entry' s',
          In entry' (rows w1) ->
          is_candidate context_hash "m" now entry' = true ->
          _calculate_similarity query_embedding (cache.query_embedding entry')
            = Ret s' ->
          (s' <=? s)%float = true)
    /\ rows w'
       = map (touch (clock w1 (S (clock_reads w1))) (row_id entry)) (rows w1).
Proof.
  apply (get_serves_best_match fx_encode_text fx_hash fx_json_dumps fx_digest fx_cache
           "capital of France?" None "m" (fx_world_of [fx_live_row]) (Some "Paris")
           (snd (get fx_encode_text fx_hash fx_json_dumps fx_digest fx_cache
                   "capital of France?" None "m" (fx_world_of [fx_live_row])))).
  - reflexivity.
  - rewrite (surjective_pairing (get _ _ _ _ _ _ _ _ _)) at 1.
    f_equal; vm_compute; reflexivity.
Defined.

(** The hit bumps the access count of the served row from 1 to 2. *)
Example get_bumps_access_count :
  map access_count
    (rows (snd (get fx_encode_text fx_hash fx_json_dumps fx_digest fx_cache
                  "capital of France?" None "m" (fx_world_of [fx_live_row]))))
  = [2].
Proof. vm_compute. reflexivity. Qed.

End semantic_cache_spec.

(* ===================================================================== *)
(** * Maintenance of the semantic cache *)
(* ===================================================================== *)

Module cache_maintenance_spec.
Import Py models cache cache_maintenance SortAscFacts.

(** ** [ORDER BY last_accessed ASC] *)

Lemma insert_by_last_accessed_perm (r : Row) (rs : list Row) :
  insert_by_last_accessed r rs ≡ₚ r :: rs.
Proof.
  induction rs as [|r' rs IH]; simpl; [reflexivity|].
  destruct (last_accessed r' <=? last_accessed r); [|reflexivity].
  rewrite IH. apply Permutation_swap.
Qed.

Lemma insert_by_last_accessed_sorted (r : Row) (rs : list Row) :
  StronglySorted (fun a b => last_accessed a <= last_accessed b) rs ->
  StronglySorted (fun a b => last_accessed a <= last_accessed b)
    (insert_by_last_accessed r rs).
Proof.
  intros Hs. induction Hs as [|r' rs Hs IH Hr']; simpl.
  - repeat constructor.
  - destruct (Z.leb_spec (last_accessed r') (last_accessed r)).
    + constructor; [exact IH|].
      rewrite insert_by_last_accessed_perm. now constructor.
    + constructor; [now constructor|].
      constructor; [lia|].
      eapply Forall_impl; [exact Hr'|]. simpl. intros; lia.
Qed.

Lemma order_by_last_accessed_spec (rs : list Row) :
  order_by_last_accessed rs ≡ₚ rs
  /\ StronglySorted (fun a b => last_accessed a <= last_accessed b)
       (order_by_last_accessed rs).
Proof.
  unfold order_by_last_accessed.
  assert (H : forall acc,
    StronglySorted (fun a b => last_accessed a <= last_accessed b) acc ->
    fold_left (fun acc r => insert_by_last_accessed r acc) rs acc ≡ₚ acc ++ rs
    /\ StronglySorted (fun a b => last_accessed a <= last_accessed b)
         (fold_left (fun acc r => insert_by_last_accessed r acc) rs acc)).
  { induction rs as [|r rs IH]; simpl; intros acc Hacc.
    - rewrite app_nil_r. now split.
    - destruct (IH (insert_by_last_accessed r acc)) as [Hp Hs];
        [now apply insert_by_last_accessed_sorted|].
      split; [|exact Hs].
      rewrite Hp, insert_by_last_accessed_perm. apply Permutation_middle. }
  apply (H []). constructor.
Qed.

(** ** Deleting the rows with the ids of a front part of a permutation *)

Lemma Permutation_filter_length {A} (p : A -> bool) (l l' : list A) :
  l ≡ₚ l' -> length (List.filter p l) = length (List.filter p l').
Proof.
  induction 1 as [|x l l' _ IH|x y l|l l' l'' _ IH1 _ IH2]; simpl.
  - reflexivity.
  - destruct (p x); simpl; congruence.
  - destruct (p x), (p y); reflexivity.
  - congruence.
Qed.

Lemma NoDup_map_In_eq {A B} (f : A -> B) (l : list A) (a b : A) :
  List.NoDup (map f l) -> In a l -> In b l -> f a = f b -> a = b.
Proof.
  induction l as [|x l IH]; simpl; intros Hnd Ha Hb Hf; [destruct Ha|].
  apply NoDup_cons_iff in Hnd as [Hx Hnd].
  destruct Ha as [->|Ha], Hb as [->|Hb]; auto.
  - exfalso. apply Hx. rewrite Hf. now apply in_map.
  - exfalso. apply Hx. rewrite <- Hf. now apply in_map.
Qed.

Lemma filter_none {A} (p : A -> bool) (l : list A) :
  (forall x, In x l -> p x = false) -> List.filter p l = [].
Proof.
  induction l as [|x l IH]; simpl; intros H; [reflexivity|].
  rewrite (H x) by now left. apply IH. intros y Hy. apply H. now right.
Qed.

Lemma filter_all {A} (p : A -> bool) (l : list A) :
  (forall x, In x l -> p x = true) -> List.filter p l = l.
Proof.
  induction l as [|x l IH]; simpl; intros H; [reflexivity|].
  rewrite (H x) by now left. f_equal. apply IH. intros y Hy. apply H. now right.
Qed.

Lemma NoDup_app_disjoint {A} (l1 l2 : list A) (x : A) :
  List.NoDup (l1 ++ l2) -> In x l1 -> In x l2 -> False.
Proof.
  induction l1 as [|y l1 IH]; simpl; intros Hnd H1 H2; [destruct H1|].
  apply NoDup_cons_iff in Hnd as [Hy Hnd].
  destruct H1 as [->|H1]; [|auto].
  apply Hy, in_or_app. now right.
Qed.

Section Victims.
Variables (rs sorted : list Row) (n : nat).
Hypothesis Hids : List.NoDup (map row_id rs).
Hypothesis Hperm : sorted ≡ₚ rs.

(** A row of the table is hit by [DELETE ... WHERE id IN (victims)] exactly
    when it is one of the first [n] rows in the order of the subquery. *)
Lemma victim_iff (r : Row) :
  In r rs ->
  existsb (String.eqb (row_id r)) (map row_id (take n sorted)) = true
  <-> In r (take n sorted).
Proof.
  intros Hr. rewrite existsb_exists. split.
  - intros (k & Hk & Heq%String.eqb_eq). subst k.
    apply in_map_iff in Hk as (v & Hv & Hin).
    assert (v = r) as <-; [|exact Hin].
    apply (NoDup_map_In_eq row_id rs); auto.
    eapply Permutation_in; [exact Hperm|].
    rewrite <- (take_drop n sorted). apply in_or_app. now left.
  - intros Hin. exists (row_id r). split; [now apply in_map | apply String.eqb_refl].
Qed.

Lemma kept_length :
  length (List.filter
            (fun r => negb (existsb (String.eqb (row_id r)) (map row_id (take n sorted))))
            rs)
  = (length rs - n)%nat.
Proof.
  rewrite <- (Permutation_filter_length _ _ _ Hperm).
  set (p := fun r => negb (existsb (String.eqb (row_id r)) (map row_id (take n sorted)))).
  rewrite <- (take_drop n sorted) at 1. rewrite List.filter_app, length_app.
  assert (Hnd : List.NoDup (take n sorted ++ drop n sorted)).
  { rewrite take_drop. apply (NoDup_map_inv row_id).
    eapply Permutation_NoDup; [|exact Hids]. symmetry. now apply Permutation_map. }
  assert (Hin : forall r, In r sorted -> In r rs)
    by (intros r; apply Permutation_in, Hperm).
  rewrite filter_none, filter_all.
  - rewrite length_drop, (Permutation_length Hperm). simpl. lia.
  - intros r Hr. unfold p. apply negb_true_iff, not_true_iff_false. rewrite victim_iff.
    + intros Ht. exact (NoDup_app_disjoint _ _ _ Hnd Ht Hr).
    + apply Hin. rewrite <- (take_drop n sorted). apply in_or_app. now right.
  - intros r Hr. unfold p. apply negb_false_iff, victim_iff; [|exact Hr].
    apply Hin. rewrite <- (take_drop n sorted). apply in_or_app. now left.
Qed.
End Victims.

(** [_cleanup_lru] on a table with distinct ids. *)
Lemma cleanup_lru_run (self : SemanticCache) (w : world) :
  List.NoDup (map row_id (rows w)) ->
  exists n w',
    _cleanup_lru self w = (Ret n, w')
    /\ n = Z.of_nat (length (rows w)) - Z.of_nat (length (rows w'))
    /\ (Z.of_nat (length (rows w)) <= max_cache_size self -> rows w' = rows w)
    /\ (max_cache_size self < Z.of_nat (length (rows w)) ->
        Z.of_nat (length (rows w')) = Z.max 0 (max_cache_size self - 100))
    /\ (exists keep, rows w' = List.filter keep (rows w))
    /\ forall gone kept,
         In gone (rows w) -> ~ In gone (rows w') -> In kept (rows w') ->
         last_accessed gone <= last_accessed kept.
Proof.
  intros Hids. unfold _cleanup_lru, mbind, M_bind, select_rows, set_rows, mret, M_ret.
  destruct (Z.leb_spec (Z.of_nat (length (rows w))) (max_cache_size self)) as [Hle|Hgt].
  - exists 0, w. split; [reflexivity|]. split; [lia|]. split; [auto|]. split; [lia|].
    split.
    + exists (fun _ => true). symmetry. now apply filter_all.
    + intros gone kept Hin Hnot. contradiction.
  - set (n := Z.to_nat (Z.of_nat (length (rows w)) - max_cache_size self + 100)).
    destruct (order_by_last_accessed_spec (rows w)) as [Hperm Hsorted].
    set (sorted := order_by_last_accessed (rows w)) in *.
    eexists _, _. split; [reflexivity|]. cbn [rows].
    pose proof (kept_length (rows w) sorted n Hids Hperm) as Hlen.
    split; [reflexivity|]. split; [lia|]. split; [intros _; rewrite Hlen; unfold n; lia|].
    split; [eexists; reflexivity|].
    intros gone kept Hgone Hnot Hkept.
    apply (StronglySorted_app_inv (fun a b => last_accessed a <= last_accessed b)
             (take n sorted) (drop n sorted)).
    + now rewrite take_drop.
    + apply (victim_iff (rows w) sorted n Hids Hperm gone Hgone).
      apply not_false_iff_true. intros Hv. apply Hnot, filter_In.
      split; [exact Hgone | now rewrite Hv].
    + apply filter_In in Hkept as [Hkept Hv]. apply negb_true_iff in Hv.
      assert (Hs : In kept sorted)
        by (eapply Permutation_in; [symmetry; exact Hperm | exact Hkept]).
      rewrite <- (take_drop n sorted) in Hs. apply in_app_or in Hs as [Hs|Hs]; [|exact Hs].
      apply (victim_iff (rows w) sorted n Hids Hperm kept Hkept) in Hs. congruence.
Qed.

(** X10.  [_cleanup_lru] of the semantic cache, on a table with distinct
    ids: at or below [max_cache_size] it removes nothing; above, it removes
    the least recently accessed rows and leaves [max(0, max_cache_size -
    100)] of them, so with [max_cache_size <= 100] one row too many empties
    the whole table.  The rows left keep their order, no row removed was
    accessed later than a row kept, and the returned count is the number
    of rows removed. *)
Theorem cleanup_lru_leaves_headroom (self : SemanticCache) (w : world) :
  List.NoDup (map row_id (rows w)) ->
  exists n w',
    _cleanup_lru self w = (Ret n, w')
    /\ n = Z.of_nat (length (rows w)) - Z.of_nat (length (rows w'))
    /\ (Z.of_nat (length (rows w)) <= max_cache_size self -> rows w' = rows w)
    /\ (max_cache_size self < Z.of_nat (length (rows w)) ->
        Z.of_nat (length (rows w')) = Z.max 0 (max_cache_size self - 100))
    /\ (exists keep, rows w' = List.filter keep (rows w))
    /\ forall gone kept,
         In gone (rows w) -> ~ In gone (rows w') -> In kept (rows w') ->
         last_accessed gone <= last_accessed kept.
Proof. apply cleanup_lru_run. Qed.

Lemma cleanup_expired_run (w : world) :
  _cleanup_expired w
  = (Ret (Z.of_nat (length (rows w))
          - Z.of_nat (length (List.filter
               (fun r => negb (expires_at r <? clock w (clock_reads w))) (rows w)))),
     {| rows := List.filter (fun r => negb (expires_at r <? clock w (clock_reads w))) (rows w);
        clock := clock w; clock_reads := S (clock_reads w);
        uuids := uuids w; uuid_draws := uuid_draws w |}).
Proof. reflexivity. Qed.

(** How [optimize] runs when the database answers. *)
Lemma optimize_run (self : SemanticCache) (w : world) :
  List.NoDup (map row_id (rows w)) ->
  exists o w',
    optimize self w = (Ret o, w')
    /\ total_removed o = expired_removed o + lru_removed o
    /\ total_removed o = Z.of_nat (length (rows w)) - Z.of_nat (length (rows w'))
    /\ 0 <= expired_removed o /\ 0 <= lru_removed o
    /\ (forall r, In r (rows w') ->
          In r (rows w) /\ clock w (clock_reads w) <= expires_at r)
    /\ Z.of_nat (length (rows w')) <= Z.max 0 (max_cache_size self).
Proof.
  intros Hids. unfold optimize.
  unfold mbind at 1, M_bind at 1. rewrite cleanup_expired_run.
  set (now := clock w (clock_reads w)).
  set (kept := List.filter (fun r => negb (expires_at r <? now)) (rows w)).
  set (w1 := {| rows := kept; clock := clock w; clock_reads := S (clock_reads w);
                uuids := uuids w; uuid_draws := uuid_draws w |}).
  destruct (cleanup_lru_run self w1) as (n & w' & Hlru & Hn & Hsame & Hover & [keep Hkeep] & _).
  { simpl. unfold kept.
    assert (H : forall l, List.NoDup (map row_id l) ->
                List.NoDup (map row_id (List.filter (fun r => negb (expires_at r <? now)) l))).
    { induction l as [|r l IH]; simpl; intros Hnd; [constructor|].
      apply NoDup_cons_iff in Hnd as [Hr Hnd].
      destruct (negb (expires_at r <? now)); simpl; [|auto].
      constructor; [|auto]. intros (r' & Heq & [Hin _]%filter_In)%in_map_iff.
      apply Hr. rewrite <- Heq. now apply in_map. }
    now apply H. }
  unfold mbind, M_bind. rewrite Hlru. cbn [mret M_ret].
  eexists _, w'. split; [reflexivity|]. cbn [total_removed expired_removed lru_removed].
  simpl in Hn, Hsame, Hover, Hkeep.
  pose proof (filter_length_le (fun r => negb (expires_at r <? now)) (rows w)) as Hk.
  fold kept in Hk.
  assert (Hw' : (length (rows w') <= length kept)%nat)
    by (rewrite Hkeep; apply filter_length_le).
  split; [reflexivity|]. split; [lia|]. split; [lia|]. split; [lia|]. split.
  - intros r Hr. rewrite Hkeep in Hr. apply filter_In in Hr as [Hr _].
    apply filter_In in Hr as [Hr Hexp]. split; [exact Hr|].
    apply negb_true_iff, Z.ltb_ge in Hexp. exact Hexp.
  - destruct (Z.le_gt_cases (Z.of_nat (length kept)) (max_cache_size self)) as [Hle|Hgt].
    + rewrite (Hsame Hle). lia.
    + rewrite Hover by lia. lia.
Qed.

(** X11.  What a call of [optimize] has done when it returns, on a table
    with distinct ids: every row left was in the table before and had not
    expired at the time of the sweep, the table holds at most
    [max(0, max_cache_size)] rows, and the counts reported are the rows
    removed by expiry, the rows removed as least recently used, and their
    sum, which is the difference between the row counts before and after.
    Nothing is said of the calls that do not return: the two cleanups run
    outside the [try], and a database error in them reaches the caller. *)
Theorem optimize_spec (self : SemanticCache) (w : world) (o : Optimized) (w' : world) :
  List.NoDup (map row_id (rows w)) ->
  optimize self w = (Ret o, w') ->
  total_removed o = expired_removed o + lru_removed o
  /\ total_removed o = Z.of_nat (length (rows w)) - Z.of_nat (length (rows w'))
  /\ 0 <= expired_removed o /\ 0 <= lru_removed o
  /\ (forall r, In r (rows w') ->
        In r (rows w) /\ clock w (clock_reads w) <= expires_at r)
  /\ Z.of_nat (length (rows w')) <= Z.max 0 (max_cache_size self).
Proof.
  intros Hids Hrun.
  destruct (optimize_run self w Hids) as (o0 & w0 & Hrun0 & H).
  rewrite Hrun in Hrun0. injection Hrun0 as <- <-. exact H.
Qed.

(** [clear] empties the table and reports how many rows it held. *)
Lemma clear_spec (w : world) :
  exists w', clear w = (Ret (Z.of_nat (length (rows w))), w') /\ rows w' = [].
Proof. eexists. split; reflexivity. Qed.

Import fixtures more_fixtures.

Ltac distinct_ids_by_computation :=
  simpl; repeat (apply List.NoDup_cons; [simpl; intuition discriminate|]);
  apply List.NoDup_nil.

(** Three rows in a cache of two. *)
Lemma cleanup_lru_leaves_headroom_witness :
  let w := fx_world_of fx_table in
  exists n w',
    _cleanup_lru fx_tiny_cache w = (Ret n, w')
    /\ n = Z.of_nat (length (rows w)) - Z.of_nat (length (rows w'))
    /\ (Z.of_nat (length (rows w)) <= max_cache_size fx_tiny_cache -> rows w' = rows w)
    /\ (max_cache_size fx_tiny_cache < Z.of_nat (length (rows w)) ->
        Z.of_nat (length (rows w')) = Z.max 0 (max_cache_size fx_tiny_cache - 100))
    /\ (exists keep, rows w' = List.filter keep (rows w))
    /\ forall gone kept,
         In gone (rows w) -> ~ In gone (rows w') -> In kept (rows w') ->
         last_accessed gone <= last_accessed kept.
Proof.
  apply (cleanup_lru_leaves_headroom fx_tiny_cache (fx_world_of fx_table)).
  distinct_ids_by_computation.
Defined.

(** One row over the limit of two, and the table is emptied. *)
Example cleanup_lru_empties_small_cache :
  fst (_cleanup_lru fx_tiny_cache (fx_world_of fx_table)) = Ret 3
  /\ rows (snd (_cleanup_lru fx_tiny_cache (fx_world_of fx_table))) = [].
Proof. split; vm_compute; reflexivity. Qed.

Lemma optimize_spec_witness :
  let w := fx_world_of fx_table in
  let o := {| expired_removed := 1; lru_removed := 0; total_removed := 1 |} in
  let w' := snd (optimize fx_tiny_cache w) in
  total_removed o = expired_removed o + lru_removed o
  /\ total_removed o = Z.of_nat (length (rows w)) - Z.of_nat (length (rows w'))
  /\ 0 <= expired_removed o /\ 0 <= lru_removed o
  /\ (forall r, In r (rows w') ->
        In r (rows w) /\ clock w (clock_reads w) <= expires_at r)
  /\ Z.of_nat (length (rows w')) <= Z.max 0 (max_cache_size fx_tiny_cache).
Proof.
  apply (optimize_spec fx_tiny_cache (fx_world_of fx_table)
           {| expired_removed := 1; lru_removed := 0; total_removed := 1 |}
           (snd (optimize fx_tiny_cache (fx_world_of fx_table)))).
  - distinct_ids_by_computation.
  - rewrite (surjective_pairing (optimize _ _)) at 1.
    f_equal; vm_compute; reflexivity.
Defined.

(** The sweep removes the expired row; the two rows left fit. *)
Example optimize_example :
  fst (optimize fx_tiny_cache (fx_world_of fx_table))
  = Ret {| expired_removed := 1; lru_removed := 0; total_removed := 1 |}
  /\ map row_id (rows (snd (optimize fx_tiny_cache (fx_world_of fx_table))))
     = ["r1"; "r3"].
Proof. split; vm_compute; reflexivity. Qed.

End cache_maintenance_spec.

(* ===================================================================== *)
(** * The retriever: hybrid ranking, similar chunks, context strings *)
(* ===================================================================== *)

Module retriever_more_spec.
Import Py PyMore models retriever retriever_context FloatOrder SortFacts retriever_spec.

Section Retriever.
Variable encode_query : string -> res (list float).
Variable search_similar :
  list float -> Z -> option (gmap string mvalue) ->
  res (list (KnowledgeChunk * float)).

Lemma search_returns (self : RAGRetriever) (query : string) (top_k : option Z)
    (metadata_filter : option (gmap string mvalue)) (threshold : option float) :
  exists l,
    search encode_query search_similar self query top_k metadata_filter threshold = Ret l
    /\ (truthy (strip query) = false -> l = []).
Proof.
  destruct (truthy (strip query)) eqn:Hq.
  - rewrite search_cases by exact Hq.
    destruct (encode_query query); [|eexists; split; [reflexivity | discriminate]].
    destruct (search_similar _ _ _); eexists; (split; [reflexivity | discriminate]).
  - rewrite search_blank by exact Hq. eauto.
Qed.

(** X12.  [HybridRetriever.search] never raises.  Every chunk it returns
    has a combined score at or above the effective threshold, the list is
    in descending order of the combined score and, for an effective
    [top_k >= 0], at most [top_k] long.  A [top_k] of [0] counts as not
    given: the default is used.  A blank query returns the empty list. *)
Theorem hybrid_search_postcondition (self : HybridRetriever) (query : string)
    (top_k : option Z) (metadata_filter : option (gmap string mvalue))
    (threshold : option float) :
  let k := if int_truthy top_k then default 0 top_k else default_top_k (base self) in
  let t := default (similarity_threshold (base self)) threshold in
  exists l,
    hybrid_search encode_query search_similar self query top_k metadata_filter threshold
      = Ret l
    /\ Forall (fun c => float_ge (relevance_score c) t = true) l
    /\ StronglySorted (desc relevance_score) l
    /\ (0 <= k -> Z.of_nat (length l) <= k)
    /\ (truthy (strip query) = false -> l = []).
Proof.
  intros k t. unfold hybrid_search.
  destruct (search_returns (base self) query
              (Some (if int_truthy top_k then default 0 top_k * 2
                     else default_top_k (base self) * 2))
              metadata_filter (Some 0.5%float)) as (sem & -> & Hblank).
  simpl. destruct sem as [|c0 sem].
  - exists []. repeat split; try constructor. simpl. lia.
  - fold k t.
    set (combined := map (combine_scores self _) (c0 :: sem)).
    set (kept := List.filter (fun chunk => float_ge (relevance_score chunk) t) combined).
    exists (slice_to (sort_desc relevance_score kept) k).
    assert (Hkept : Forall (fun c => float_ge (relevance_score c) t = true) kept).
    { rewrite List.Forall_forall. intros c [_ Hc]%filter_In. exact Hc. }
    assert (Hnan : keys_not_nan relevance_score kept).
    { eapply Forall_impl; [exact Hkept|]. intros c Hc.
      now apply leb_not_nan in Hc as [_ ?]. }
    split; [reflexivity|]. split; [|split; [|split]].
    + rewrite List.Forall_forall. intros c Hc.
      apply (prefix_In _ _ _ (slice_to_prefix _ _)) in Hc.
      apply (Permutation_in _ (SortFacts.sort_desc_perm _ _)) in Hc.
      rewrite List.Forall_forall in Hkept. auto.
    + eapply prefix_StronglySorted; [apply slice_to_prefix|].
      now apply sort_desc_sorted.
    + apply slice_to_length.
    + intros Hq. specialize (Hblank Hq). discriminate.
Qed.

(** What [collect_similar] adds to the chunks collected so far. *)
Lemma collect_similar_spec (reference_chunk : KnowledgeChunk) (top_k : Z)
    (exclude_same_document : bool) (results : list (KnowledgeChunk * float)) :
  forall similar_chunks,
    let out := collect_similar reference_chunk top_k exclude_same_document
                 results similar_chunks in
    (forall P : KnowledgeChunk -> Prop,
       Forall P similar_chunks ->
       (forall chunk s, In (chunk, s) results ->
          String.eqb (id chunk) (id reference_chunk) = false ->
          exclude_same_document
          && mvalue_eqb (document_id chunk) (document_id reference_chunk) = false ->
          P (set_relevance_score chunk s)) ->
       Forall P out)
    /\ Z.of_nat (length out) <= Z.max top_k (Z.of_nat (length similar_chunks) + 1).
Proof.
  induction results as [|[chunk s] results IH]; intros acc; simpl.
  - split; [auto | lia].
  - destruct (String.eqb (id chunk) (id reference_chunk)) eqn:Hid.
    { destruct (IH acc) as [HP Hlen]. split; [|exact Hlen].
      intros P Hacc Hres. apply HP; [exact Hacc|]. intros; apply Hres; auto. }
    destruct (exclude_same_document
              && mvalue_eqb (document_id chunk) (document_id reference_chunk)) eqn:Hdoc.
    { destruct (IH acc) as [HP Hlen]. split; [|exact Hlen].
      intros P Hacc Hres. apply HP; [exact Hacc|]. intros; apply Hres; auto. }
    destruct (Z.geb_spec (Z.of_nat (length (acc ++ [set_relevance_score chunk s]))) top_k)
      as [Hfull|Hmore].
    + rewrite length_app in *. simpl in *. split; [|lia].
      intros P Hacc Hres. apply Forall_app. split; [exact Hacc|].
      constructor; [|constructor]. apply Hres; auto.
    + destruct (IH (acc ++ [set_relevance_score chunk s])) as [HP Hlen].
      rewrite length_app in *. simpl in *. split; [|lia].
      intros P Hacc Hres. apply HP.
      * apply Forall_app. split; [exact Hacc|].
        constructor; [|constructor]. apply Hres; auto.
      * intros; apply Hres; auto.
Qed.

(** X13.  [get_similar_chunks] never raises.  It never returns the
    reference chunk itself (a chunk with the same id), with
    [exclude_same_document] it returns no chunk of the reference chunk's
    document, and it returns at most [max(top_k, 1)] chunks: the limit is
    tested after a chunk has been appended, so a [top_k] of [0] or less
    still yields one chunk.  A reference chunk without an embedding gives
    the empty list, and so does a failing store. *)
Theorem get_similar_chunks_spec (reference_chunk : KnowledgeChunk) (top_k : Z)
    (exclude_same_document : bool) :
  exists l,
    get_similar_chunks search_similar reference_chunk top_k exclude_same_document = Ret l
    /\ Forall (fun c => id c <> id reference_chunk) l
    /\ (exclude_same_document = true ->
        Forall (fun c => mvalue_eqb (document_id c) (document_id reference_chunk) = false) l)
    /\ Z.of_nat (length l) <= Z.max top_k 1
    /\ (embedding reference_chunk = [] -> l = [])
    /\ (raises (search_similar (embedding reference_chunk)
                  (if exclude_same_document then top_k * 2 else top_k) None) ->
        l = []).
Proof.
  unfold get_similar_chunks.
  assert (Hnil : exists l : list KnowledgeChunk,
    Ret [] = Ret l
    /\ Forall (fun c => id c <> id reference_chunk) l
    /\ (exclude_same_document = true ->
        Forall (fun c => mvalue_eqb (document_id c) (document_id reference_chunk) = false) l)
    /\ Z.of_nat (length l) <= Z.max top_k 1
    /\ l = []).
  { exists []. repeat split; try constructor. simpl. lia. }
  destruct (embedding reference_chunk) as [|x e] eqn:He.
  - destruct Hnil as (l & Hl & H1 & H2 & H3 & ->). exists []. repeat split; auto.
  - unfold try_except.
    destruct (search_similar _ _ _) as [results|err]; simpl.
    + destruct (collect_similar_spec reference_chunk top_k exclude_same_document results [])
        as [HP Hlen].
      eexists. split; [reflexivity|]. split; [|split; [|split; [|split]]].
      * apply HP; [constructor|]. intros chunk s _ Hid _. simpl.
        now apply String.eqb_neq.
      * intros ->. apply HP; [constructor|]. intros chunk s _ _ Hdoc. exact Hdoc.
      * simpl in Hlen. lia.
      * discriminate.
      * intros [e' H]. discriminate.
    + destruct Hnil as (l & Hl & H1 & H2 & H3 & ->). exists []. repeat split; auto.
Qed.
End Retriever.

(** ** Lengths of strings *)

Lemma len_app (s1 s2 : string) : len (s1 ++ s2)%string = len s1 + len s2.
Proof.
  unfold len. induction s1 as [|c s1 IH]; simpl; [reflexivity|]. lia.
Qed.

Lemma len_nonneg (s : string) : 0 <= len s.
Proof. unfold len. lia. Qed.

Lemma length_substring_le (s : string) (a n : nat) :
  (String.length (substring a n s) <= n)%nat.
Proof.
  revert a n. induction s as [|c s IH]; intros [|a] [|n]; simpl; try lia.
  - specialize (IH O n). lia.
  - apply (IH a O).
  - apply (IH a (S n)).
Qed.

Lemma len_slice_le (s : string) (r : Z) : 0 <= r -> len (slice s 0 r) <= r.
Proof.
  intros Hr. unfold slice, len.
  pose proof (length_substring_le s (Z.to_nat (adjust (Z.of_nat (String.length s)) 0))
    (Z.to_nat (adjust (Z.of_nat (String.length s)) r
               - adjust (Z.of_nat (String.length s)) 0))) as H.
  unfold adjust in *. simpl in *. destruct (Z.ltb_spec r 0); lia.
Qed.

Lemma join_snoc (parts : list string) (p : string) :
  len (join "" (parts ++ [p])) = len (join "" parts) + len p.
Proof.
  induction parts as [|q parts IH]; simpl; [unfold len; simpl; lia|].
  destruct parts as [|q' parts]; simpl in *.
  - rewrite !len_app. unfold len. simpl. lia.
  - rewrite !len_app in *. simpl in *. lia.
Qed.

Lemma join_sep_len (sep : string) (parts : list string) :
  len (join sep parts)
  = len (join "" parts) + len sep * Z.max 0 (Z.of_nat (length parts) - 1).
Proof.
  induction parts as [|p parts IH]; [unfold len; simpl; lia|].
  destruct parts as [|q parts]; [simpl; lia|].
  change (join sep (p :: q :: parts)) with (p ++ sep ++ join sep (q :: parts))%string.
  change (join "" (p :: q :: parts)) with (p ++ "" ++ join "" (q :: parts))%string.
  rewrite !len_app, IH. change (len "") with 0.
  replace (Z.max 0 (Z.of_nat (length (q :: parts)) - 1))
    with (Z.of_nat (length parts)) by (simpl length; lia).
  replace (Z.max 0 (Z.of_nat (length (p :: q :: parts)) - 1))
    with (Z.of_nat (length parts) + 1) by (simpl length; lia).
  lia.
Qed.

Section Context.
Variable encode_query : string -> res (list float).
Variable search_similar :
  list float -> Z -> option (gmap string mvalue) ->
  res (list (KnowledgeChunk * float)).
Variable str : mvalue -> string.

Lemma len_format_chunk (chunk : KnowledgeChunk) (content : string) :
  len (format_chunk str chunk content) = 12 + len (str (title chunk)) + len content.
Proof. unfold format_chunk. rewrite !len_app. unfold nl, len. simpl. lia. Qed.

Lemma len_format_truncated (chunk : KnowledgeChunk) (content : string) :
  len (format_truncated str chunk content) = 15 + len (str (title chunk)) + len content.
Proof. unfold format_truncated. rewrite !len_app. unfold nl, len. simpl. lia. Qed.

(** The loop of [get_context_for_query], from any point on. *)
Lemma build_context_spec (max_context_length : Z) (chunks : list KnowledgeChunk) :
  forall context_parts current_length used_chunks parts used,
    build_context str max_context_length chunks context_parts current_length used_chunks
      = (parts, used) ->
    current_length = len (join "" context_parts) ->
    length context_parts = length used_chunks ->
    exists more,
      used = used_chunks ++ more
      /\ more `prefix_of` chunks
      /\ length parts = length used
      /\ (forall T,
            (forall c, In c chunks -> len (str (title c)) <= T) ->
            current_length <= Z.max 0 max_context_length ->
            len (join "" parts) <= Z.max 0 max_context_length + Z.max 0 (T - 35))
      /\ (current_length
            + len (join "" (map (fun c => format_chunk str c (content c)) chunks))
          <= max_context_length ->
          more = chunks
          /\ parts = context_parts ++ map (fun c => format_chunk str c (content c)) chunks).
Proof.
  induction chunks as [|chunk chunks IH]; cbn [build_context];
    intros context_parts current_length used_chunks parts used Hrun Hcur Hlen.
  - injection Hrun as <- <-. exists []. rewrite !app_nil_r.
    split; [reflexivity|]. split; [reflexivity|]. split; [exact Hlen|].
    split; [intros; lia | auto].
  - set (chunk_text := format_chunk str chunk (content chunk)) in *.
    assert (Hfirst : len (join "" (map (fun c => format_chunk str c (content c)) (chunk :: chunks)))
                     = len chunk_text
                       + len (join "" (map (fun c => format_chunk str c (content c)) chunks))).
    { simpl. fold chunk_text. destruct (map _ chunks); [unfold len at 3; simpl; lia|].
      now rewrite !len_app. }
    destruct (Z.gtb_spec (current_length + len chunk_text) max_context_length) as [Hover|Hfits].
    + destruct (Z.gtb_spec (max_context_length - current_length - 50) 100) as [Hroom|Hnone];
        injection Hrun as <- <-.
      * exists [chunk]. split; [reflexivity|]. split; [now apply prefix_cons, prefix_nil|].
        split; [rewrite !length_app; simpl; lia|]. split.
        -- intros T HT Hc. rewrite join_snoc, len_format_truncated.
           pose proof (len_slice_le (content chunk)
                         (max_context_length - current_length - 50)).
           specialize (HT chunk (or_introl eq_refl)). lia.
        -- intros Hall. rewrite Hfirst in Hall.
           pose proof (len_nonneg (join "" (map (fun c => format_chunk str c (content c)) chunks))).
           lia.
      * exists []. rewrite app_nil_r. split; [reflexivity|]. split; [apply prefix_nil|].
        split; [exact Hlen|]. split; [intros; lia|].
        intros Hall. rewrite Hfirst in Hall.
        pose proof (len_nonneg (join "" (map (fun c => format_chunk str c (content c)) chunks))).
        lia.
    + apply IH in Hrun as (more & -> & Hpre & Hparts & Hbound & Hall).
      * exists (chunk :: more). rewrite <- app_assoc in *. split; [reflexivity|].
        split; [now apply prefix_cons|]. split; [exact Hparts|]. split.
        -- intros T HT Hc. apply Hbound; [|lia]. intros c Hin. apply HT. now right.
        -- intros Hfit. rewrite Hfirst in Hfit. destruct Hall as [-> ->]; [lia|].
           split; [reflexivity|]. now rewrite <- ?app_assoc.
      * now rewrite join_snoc, Hcur.
      * rewrite !length_app. simpl. lia.
Qed.

(** X14.  [get_context_for_query] never raises.  The source chunks it
    returns are a leading part of what [search] returned, in the same
    order, one per part of the context string; when all chunks fit into
    [max_context_length] all of them are used, in full.  The limit is not
    a bound on the string: the separators between the parts are not
    counted, and a truncated last part overshoots by the length of its
    title beyond 35 characters. *)
Theorem get_context_for_query_spec (self : RAGRetriever) (query : string)
    (max_context_length : Z) (top_k : option Z) :
  exists chunks context used,
    search encode_query search_similar self query top_k None None = Ret chunks
    /\ get_context_for_query encode_query search_similar str self query
         max_context_length top_k = Ret (context, used)
    /\ used `prefix_of` chunks
    /\ (used = [] -> context = "")
    /\ (len (join "" (map (fun c => format_chunk str c (content c)) chunks))
          <= max_context_length ->
        used = chunks
        /\ context = join nl (map (fun c => format_chunk str c (content c)) chunks))
    /\ (forall T,
          (forall c, In c chunks -> len (str (title c)) <= T) ->
          len context
          <= Z.max 0 max_context_length + Z.max 0 (T - 35) + Z.of_nat (length used)).
Proof.
  unfold get_context_for_query.
  destruct (search_returns encode_query search_similar self query top_k None None)
    as (chunks & -> & _).
  exists chunks. simpl. destruct chunks as [|c0 chunks].
  - exists "", []. repeat split; auto. intros. unfold len. simpl. lia.
  - destruct (build_context str max_context_length (c0 :: chunks) [] 0 [])
      as [parts used] eqn:Hrun.
    apply build_context_spec in Hrun as (more & -> & Hpre & Hparts & Hbound & Hall);
      [|reflexivity|reflexivity].
    simpl app in *. exists (join nl parts), more.
    split; [reflexivity|]. split; [reflexivity|]. split; [exact Hpre|].
    split; [|split].
    + intros ->. destruct parts; [reflexivity | discriminate].
    + intros Hfit. destruct Hall as [-> ->]; [lia | auto].
    + intros T HT. rewrite join_sep_len. specialize (Hbound T HT).
      change (len nl) with 1. lia.
Qed.
End Context.

Import fixtures more_fixtures.

(** Three chunks whose parts are 60, 42 and 38 characters long fit a limit
    of 140; the string that joins them is 142 characters long. *)
Example get_context_exceeds_limit :
  exists context used,
    get_context_for_query fx_encode_query fx_search_similar fx_str_of fx_retriever
      "battery" 140 None = Ret (context, used)
    /\ map id used = ["id-inverter"; "id-battery"; "id-tariff"]
    /\ len context = 142.
Proof. eexists _, _. repeat split; vm_compute; reflexivity. Qed.

(** With [top_k = 0] the loop of [get_similar_chunks] still appends one
    chunk before it tests the limit. *)
Example get_similar_chunks_top_k_zero :
  exists l,
    get_similar_chunks fx_search_similar (fx_battery [1%float; 0%float] 0%float) 0 false
      = Ret l
    /\ map id l = ["id-solar"].
Proof. eexists. split; vm_compute; reflexivity. Qed.

End retriever_more_spec.

(* ===================================================================== *)
(** * The vector store: what a reconstructed chunk looks like *)
(* ===================================================================== *)

Module vector_store_more_spec.
Import Py models vector_store vector_store_spec.

(** A chunk that passed [__post_init__] and was built from index
    metadata: the document id is truthy, the content is not empty, the
    chunk index is not negative, and the five keys the store keeps for
    itself are not among the chunk's own metadata. *)
Lemma KnowledgeChunk_init_valid uid doc_id title document emb md ca ua ci score c :
  KnowledgeChunk_init uid doc_id title document emb md ca ua ci score = Ret c ->
  id c = uid /\ embedding c = emb /\ relevance_score c = score /\ metadata c = md
  /\ mvalue_truthy (document_id c) = true
  /\ truthy (content c) = true
  /\ mvalue_negative (chunk_index c) = Ret false.
Proof.
  unfold KnowledgeChunk_init.
  destruct (mvalue_truthy doc_id) eqn:Hd; [|discriminate]. simpl.
  destruct document as [d|]; [|discriminate].
  destruct (truthy d) eqn:Ht; [|discriminate]. simpl.
  destruct (mvalue_negative ci) as [[]|] eqn:Hc; simpl; try discriminate.
  intros [= <-]. simpl. auto 10.
Qed.

Lemma user_metadata_reserved (metadata : gmap string mvalue) (k : string) :
  k ∈ reserved_keys -> user_metadata metadata !! k = None.
Proof.
  intros Hk. unfold user_metadata. apply map_lookup_filter_None. right.
  intros v _ Hnot. now apply Hnot.
Qed.

Section ChromaVectorStore.
Variable collection_query :
  list float -> Z -> option (gmap string mvalue) -> res QueryResult.
Variable collection_get : string -> res GetResult.
Variable UUID : string -> res string.

Lemma search_row_valid results query_embedding row acc acc' :
  search_row UUID results query_embedding row acc = Ret acc' ->
  exists cs,
    acc' = acc ++ [cs]
    /\ UUID (snd row) = Ret (id (fst cs))
    /\ relevance_score (fst cs) = snd cs
    /\ mvalue_truthy (document_id (fst cs)) = true
    /\ truthy (content (fst cs)) = true
    /\ mvalue_negative (chunk_index (fst cs)) = Ret false
    /\ forall k, k ∈ reserved_keys -> metadata (fst cs) !! k = None.
Proof.
  destruct row as [i chunk_id]. unfold search_row.
  destruct (list_getitem (metadatas results) 0) as [ms|]; simpl; [|discriminate].
  destruct (list_getitem ms i) as [metadata|]; simpl; [|discriminate].
  destruct (list_getitem (documents results) 0) as [docs|]; simpl; [|discriminate].
  destruct (list_getitem docs i) as [document|]; simpl; [|discriminate].
  destruct (match distances results with
            | Some d => ds ← list_getitem d 0; list_getitem ds i
            | None => Ret 0%float
            end) as [distance|]; simpl; [|discriminate].
  destruct (UUID chunk_id) as [uid|]; simpl; [|discriminate].
  destruct (dict_getitem metadata "document_id") as [doc_id|]; simpl; [|discriminate].
  destruct (dict_getitem metadata "title") as [title|]; simpl; [|discriminate].
  destruct (KnowledgeChunk_init _ _ _ _ _ _ _ _ _ _) as [c|] eqn:Hc; simpl; [|discriminate].
  intros [= <-].
  apply KnowledgeChunk_init_valid in Hc as (Hid & _ & Hscore & Hmd & Hdoc & Hcontent & Hci).
  eexists. split; [reflexivity|]. simpl. rewrite Hid, Hmd.
  repeat split; try assumption. intros k Hk. now apply user_metadata_reserved.
Qed.

Lemma for_each_raises_at {A S} (body : A -> S -> res S) (l : list A) (x : A) :
  In x l -> (forall acc, raises (body x acc)) ->
  forall acc, raises (for_each body l acc).
Proof.
  induction l as [|y l IH]; simpl; intros Hin Hx acc; [destruct Hin|].
  destruct (body y acc) as [acc'|e] eqn:Hy; [|now exists e].
  destruct Hin as [->|Hin]; [|now apply IH].
  destruct (Hx acc) as [e He]. congruence.
Qed.

Lemma In_enumerate {A} (l : list A) (start i : nat) (x : A) :
  l !! i = Some x -> In ((start + i)%nat, x) (combine (seq start (length l)) l).
Proof.
  revert start i. induction l as [|y l IH]; intros start [|i]; simpl; try discriminate.
  - intros [= ->]. left. f_equal. lia.
  - intros H. right. replace (start + S i)%nat with (S start + i)%nat by lia. now apply IH.
Qed.

Lemma Forall2_enumerate {A B} (P : A -> B -> Prop) (l : list A) (start : nat) (ys : list B) :
  Forall2 (fun row y => P (snd row) y) (combine (seq start (length l)) l) ys ->
  Forall2 P l ys.
Proof.
  revert start ys. induction l as [|x l IH]; simpl; intros start ys H.
  - inversion H. constructor.
  - inversion H as [|? ? ? ? Hx Hrest]; subst. constructor; [exact Hx|]. eauto.
Qed.

Lemma Forall2_right {A B} (R : A -> B -> Prop) (Q : B -> Prop) (l : list A) (ys : list B) :
  (forall x y, R x y -> Q y) -> Forall2 R l ys -> Forall Q ys.
Proof. intros HQ. induction 1; constructor; eauto. Qed.

(** X15.  [search_similar] never raises, and its result is all or
    nothing: either one chunk for every id the index returned, in the
    index's order, or the empty list; a failing index and any row that
    cannot be turned into a chunk (no document, no ["document_id"] or
    ["title"] in its metadata, an id that is not a UUID) lose the whole
    result.  Every chunk returned went through [__post_init__]: truthy
    document id, non-empty content, non-negative chunk index; it carries
    its score, and its metadata holds none of the five keys the store
    keeps for itself. *)
Theorem search_similar_all_or_nothing query_embedding n_results metadata_filter :
  exists l,
    search_similar collection_query UUID query_embedding n_results metadata_filter = Ret l
    /\ (raises (collection_query query_embedding n_results metadata_filter) -> l = [])
    /\ (forall results ids0 rest,
          collection_query query_embedding n_results metadata_filter = Ret results ->
          ids results = ids0 :: rest ->
          (l = [] \/ Forall2 (fun chunk_id cs => UUID chunk_id = Ret (id (fst cs))) ids0 l)
          /\ (forall i chunk_id,
                ids0 !! i = Some chunk_id ->
                (forall acc, raises (search_row UUID results query_embedding (i, chunk_id) acc)) ->
                l = []))
    /\ Forall (fun cs =>
                 relevance_score (fst cs) = snd cs
                 /\ mvalue_truthy (document_id (fst cs)) = true
                 /\ truthy (content (fst cs)) = true
                 /\ mvalue_negative (chunk_index (fst cs)) = Ret false
                 /\ forall k, k ∈ reserved_keys -> metadata (fst cs) !! k = None) l.
Proof.
  unfold search_similar, try_except.
  destruct (collection_query _ _ _) as [results|e] eqn:Hq; simpl.
  2:{ exists []. split; [reflexivity|]. split; [auto|]. split; [discriminate | constructor]. }
  destruct (ids results) as [|ids0 rest] eqn:Hids.
  { exists []. split; [reflexivity|]. split; [auto|]. split; [|constructor].
    intros results' ids0 rest [= <-]. congruence. }
  destruct ids0 as [|i0 ids0].
  { exists []. split; [reflexivity|]. split; [auto|]. split; [|constructor].
    intros results' ids0 rest' [= <-] Hids'. split; [now left | auto]. }
  set (ids1 := i0 :: ids0) in *.
  change (combine (seq 0 (length ids1)) ids1) with (combine (seq 0 (length ids1)) ids1).
  destruct (for_each (search_row UUID results query_embedding)
              (combine (seq 0 (length ids1)) ids1) []) as [out|err] eqn:Hloop.
  - pose proof Hloop as Hrows.
    eapply (for_each_append
              (fun row cs =>
                 UUID (snd row) = Ret (id (fst cs))
                 /\ relevance_score (fst cs) = snd cs
                 /\ mvalue_truthy (document_id (fst cs)) = true
                 /\ truthy (content (fst cs)) = true
                 /\ mvalue_negative (chunk_index (fst cs)) = Ret false
                 /\ forall k, k ∈ reserved_keys -> metadata (fst cs) !! k = None))
      in Hrows as (ys & Hout & Hys).
    2:{ intros row a a' Hrow. apply search_row_valid in Hrow as (cs & -> & H). eauto. }
    simpl in Hout. subst ys.
    exists out. split; [reflexivity|]. split; [intros [e' He']; discriminate|]. split.
    + intros results' ids0' rest' [= <-] Hids'. rewrite Hids in Hids'.
      injection Hids' as <- <-. split.
      * right. apply (Forall2_enumerate _ _ 0).
        eapply Forall2_impl; [exact Hys|]. intros row cs H. apply H.
      * intros i chunk_id Hi Hbad. exfalso.
        destruct (for_each_raises_at (search_row UUID results query_embedding)
                    (combine (seq 0 (length ids1)) ids1) (i, chunk_id)
                    (In_enumerate ids1 0 i chunk_id Hi) Hbad [])
          as [e' He'].
        congruence.
    + eapply Forall2_right; [|exact Hys]. intros row cs H. simpl in H. tauto.
  - exists []. split; [reflexivity|]. split; [auto|]. split; [|constructor].
    intros results' ids0' rest' _ _. split; [now left | auto].
Qed.

(** X16.  [get_chunk] never raises.  It returns [None] when the index
    knows no such id, when the index fails and when the stored row cannot
    be turned into a chunk.  A chunk it returns has the id that was asked
    for, an empty embedding and a relevance score of 0.0, went through
    [__post_init__], and its metadata holds none of the five keys the
    store keeps for itself. *)
Theorem get_chunk_spec (chunk_id : string) :
  exists r,
    get_chunk collection_get chunk_id = Ret r
    /\ (raises (collection_get chunk_id) -> r = None)
    /\ (forall results,
          collection_get chunk_id = Ret results -> get_ids results = [] -> r = None)
    /\ forall c, r = Some c ->
         id c = chunk_id /\ embedding c = [] /\ relevance_score c = 0%float
         /\ mvalue_truthy (document_id c) = true
         /\ truthy (content c) = true
         /\ mvalue_negative (chunk_index c) = Ret false
         /\ forall k, k ∈ reserved_keys -> metadata c !! k = None.
Proof.
  unfold get_chunk, try_except.
  assert (Hnone : exists r : option KnowledgeChunk,
    Ret None = Ret r /\ r = None) by eauto.
  destruct (collection_get chunk_id) as [results|e]; simpl.
  2:{ exists None. repeat split; auto; discriminate. }
  destruct (get_ids results) as [|i0 ids0] eqn:Hids.
  { exists None. repeat split; auto; discriminate. }
  assert (Hmiss : forall r : option KnowledgeChunk, r = None ->
    (raises (Ret (A:=GetResult) results) -> r = None)
    /\ (forall results', Ret results = Ret results' -> get_ids results' = [] -> r = None)
    /\ forall c, r = Some c ->
         id c = chunk_id /\ embedding c = [] /\ relevance_score c = 0%float
         /\ mvalue_truthy (document_id c) = true
         /\ truthy (content c) = true
         /\ mvalue_negative (chunk_index c) = Ret false
         /\ forall k, k ∈ reserved_keys -> metadata c !! k = None).
  { intros r ->. repeat split; auto; discriminate. }
  destruct (list_getitem (get_metadatas results) 0) as [metadata|]; simpl;
    [|exists None; split; [reflexivity | now apply Hmiss]].
  destruct (list_getitem (get_documents results) 0) as [document|]; simpl;
    [|exists None; split; [reflexivity | now apply Hmiss]].
  destruct (dict_getitem metadata "document_id") as [doc_id|]; simpl;
    [|exists None; split; [reflexivity | now apply Hmiss]].
  destruct (dict_getitem metadata "title") as [title|]; simpl;
    [|exists None; split; [reflexivity | now apply Hmiss]].
  destruct (KnowledgeChunk_init _ _ _ _ _ _ _ _ _ _) as [c|] eqn:Hc; simpl;
    [|exists None; split; [reflexivity | now apply Hmiss]].
  apply KnowledgeChunk_init_valid in Hc as (Hid & Hemb & Hscore & Hmd & Hdoc & Hcontent & Hci).
  exists (Some c). split; [reflexivity|]. split; [intros [e He]; discriminate|]. split.
  - intros results' [= <-]. congruence.
  - intros c' [= <-]. rewrite Hmd. repeat split; try assumption.
    intros k Hk. now apply user_metadata_reserved.
Qed.
End ChromaVectorStore.

Import fixtures.

(** The four rows of the example index, of which none is malformed. *)
Example search_similar_four_rows :
  map (fun cs => id (fst cs)) (fx_hits [1%float; 0%float])
  = ["id-solar"; "id-battery"; "id-inverter"; "id-tariff"]
  /\ search_similar fx_collection_query fx_UUID [1%float; 0%float] 8 None
     = Ret (fx_hits [1%float; 0%float]).
Proof. split; vm_compute; reflexivity. Qed.

End vector_store_more_spec.

(* ===================================================================== *)
(** * Embeddings: the batch size, and the mock service *)
(* ===================================================================== *)

Module embeddings_more_spec.
Import Py PyMore embeddings FloatOrder.

Section EmbeddingsService.
Variable model_encode_batch : list string -> Z -> res (list (list float)).
Variable embedding_dimension : Z.

(** X17.  With a [batch_size] of [0] or less [encode_batch] gives the zero
    vector for every text, also for texts the model could encode, and
    reports nothing: a step of [0] makes [range] raise inside the [try],
    and a negative step makes the range empty, so no batch is ever sent to
    the model. *)
Theorem encode_batch_nonpositive_batch_size (texts : list string) (batch_size : Z) :
  batch_size <= 0 ->
  encode_batch model_encode_batch embedding_dimension texts batch_size
  = Ret (replicate (length texts) (zero_vector embedding_dimension)).
Proof.
  intros Hb. unfold encode_batch. destruct texts as [|t texts]; [reflexivity|].
  set (all := t :: texts).
  destruct (map snd (non_empty all)) as [|x non_empty_texts]; [reflexivity|].
  unfold try_except, range_step.
  destruct (Z.eqb_spec batch_size 0) as [->|Hne]; [reflexivity|].
  destruct (Z.ltb_spec batch_size 0) as [Hneg|]; [|lia].
  set (n := Z.of_nat (length (x :: non_empty_texts))).
  assert (Hcount : (0 - n + - batch_size - 1) / - batch_size <= 0).
  { assert ((0 - n + - batch_size - 1) / - batch_size < 1); [|lia].
    apply Z.div_lt_upper_bound; unfold n; lia. }
  replace (Z.to_nat ((0 - n + - batch_size - 1) / - batch_size)) with O by lia.
  reflexivity.
Qed.
End EmbeddingsService.

Import fixtures.

(** Two texts the example model encodes, sent with [batch_size = 0]. *)
Lemma encode_batch_nonpositive_batch_size_witness :
  encode_batch fx_model_encode_batch 1 ["a"; "c"] 0
  = Ret (replicate (length ["a"; "c"]) (zero_vector 1)).
Proof. apply (encode_batch_nonpositive_batch_size fx_model_encode_batch 1 ["a"; "c"] 0). lia. Defined.

Example encode_batch_negative_batch_size :
  encode_batch fx_model_encode_batch 1 ["a"; "c"] (-2) = Ret [[0%float]; [0%float]]
  /\ encode_batch fx_model_encode_batch 1 ["a"; "c"] 2 = Ret [fx_embed "a"; fx_embed "c"].
Proof. split; vm_compute; reflexivity. Qed.

#[local] Open Scope float_scope.

(** [max(-1.0, min(1.0, x))] lies in [-1, 1] whatever [x] is, NaN
    included. *)
Lemma clamp_unit (x : float) :
  (-1 <=? float_max (-1) (float_min 1 x)) = true
  /\ (float_max (-1) (float_min 1 x) <=? 1) = true.
Proof.
  unfold float_min. destruct (x <? 1) eqn:H1.
  - unfold float_max. destruct (-1 <? x) eqn:H0.
    + split; now apply ltb_leb.
    + split; reflexivity.
  - split; reflexivity.
Qed.

#[local] Close Scope float_scope.

Section MockEmbeddingsService.
Variable md5_digest : string -> list Byte.byte.
Variable unpack_f : list Byte.byte -> float.
Variable embedding_dimension : Z.

Lemma hash_loop (text_hash : list Byte.byte) (starts : list Z) :
  forall embedding,
    Forall (fun x => (-1 <=? x)%float = true /\ (x <=? 1)%float = true) embedding ->
    exists out,
      for_each (mock_embeddings.hash_step unpack_f text_hash) starts embedding = Ret out
      /\ Forall (fun x => (-1 <=? x)%float = true /\ (x <=? 1)%float = true) out
      /\ (length out <= length embedding + length starts)%nat.
Proof.
  induction starts as [|i starts IH]; simpl; intros embedding Hemb.
  - exists embedding. repeat split; [exact Hemb | lia].
  - unfold mock_embeddings.hash_step at 1.
    destruct (Z.of_nat (length (list_slice text_hash i (i + 4))) =? 4).
    + unfold float_div. change (1e6 =? 0)%float with false. simpl.
      destruct (IH (embedding ++ [float_max (-1)
                                    (float_min 1 (unpack_f (list_slice text_hash i (i + 4))
                                                  / 1e6)%float)]))
        as (out & -> & Hout & Hlen).
      * apply Forall_app. split; [exact Hemb|]. constructor; [apply clamp_unit | constructor].
      * exists out. rewrite length_app in Hlen. simpl in Hlen.
        repeat split; [exact Hout | lia].
    + destruct (IH embedding Hemb) as (out & -> & Hout & Hlen).
      exists out. repeat split; [exact Hout | lia].
Qed.

Lemma pad_zeros_enough (fuel : nat) :
  forall embedding,
    (Z.to_nat embedding_dimension - length embedding < fuel)%nat ->
    mock_embeddings.pad_zeros embedding_dimension fuel embedding
    = Some (embedding
            ++ replicate (Z.to_nat embedding_dimension - length embedding) 0%float).
Proof.
  induction fuel as [|fuel IH]; intros embedding Hfuel; [lia|]. simpl.
  destruct (Z.ltb_spec (Z.of_nat (length embedding)) embedding_dimension) as [Hlt|Hge].
  - rewrite IH by (rewrite length_app; simpl; lia).
    rewrite length_app. simpl. rewrite <- app_assoc. f_equal. f_equal.
    replace (Z.to_nat embedding_dimension - length embedding)%nat
      with (S (Z.to_nat embedding_dimension - (length embedding + 1)))%nat by lia.
    reflexivity.
  - replace (Z.to_nat embedding_dimension - length embedding)%nat with O by lia.
    now rewrite app_nil_r.
Qed.

(** X18.  [MockEmbeddingsService.encode_text] terminates without an
    exception and returns a vector of exactly [embedding_dimension]
    components (none for a dimension of [0] or less), each of them a number
    between -1 and 1, whatever bytes the digest holds.  Since an MD5 digest
    has 16 bytes, at most the first four components depend on the text:
    all the others are [0.0]. *)
Theorem mock_encode_text_spec (fuel : nat) (text : string) :
  (Z.to_nat embedding_dimension < fuel)%nat ->
  exists v,
    mock_embeddings.encode_text md5_digest unpack_f embedding_dimension fuel text
      = Some (Ret v)
    /\ length v = Z.to_nat embedding_dimension
    /\ Forall (fun x => (-1 <=? x)%float = true /\ (x <=? 1)%float = true) v
    /\ (length (md5_digest text) = 16%nat ->
        forall i x, (4 <= i)%nat -> v !! i = Some x -> x = 0%float).
Proof.
  intros Hfuel. unfold mock_embeddings.encode_text, range_step. simpl.
  set (n := Z.min (Z.of_nat (length (md5_digest text))) (embedding_dimension * 4)).
  set (starts := map (fun k => Z.of_nat k * 4) (seq 0 (Z.to_nat ((n + 4 - 1) / 4)))).
  destruct (hash_loop (md5_digest text) starts []) as (emb & -> & Hemb & Hlen);
    [constructor|].
  assert (Hstarts : length starts = Z.to_nat ((n + 4 - 1) / 4))
    by (unfold starts; now rewrite length_map, length_seq).
  assert (Hcount : (n + 4 - 1) / 4 <= Z.max 0 embedding_dimension).
  { assert ((n + 4 - 1) / 4 < Z.max 0 embedding_dimension + 1); [|lia].
    apply Z.div_lt_upper_bound; unfold n; lia. }
  assert (Hle : (length emb <= Z.to_nat embedding_dimension)%nat) by (simpl in Hlen; lia).
  rewrite pad_zeros_enough by lia.
  set (v := emb ++ replicate (Z.to_nat embedding_dimension - length emb) 0%float).
  assert (Hv : length v = Z.to_nat embedding_dimension)
    by (unfold v; rewrite length_app, length_replicate; lia).
  assert (Hslice : slice_to v embedding_dimension = v).
  { unfold slice_to, adjust. rewrite Hv.
    destruct (Z.ltb_spec embedding_dimension 0).
    - destruct v; [apply take_nil | simpl in Hv; lia].
    - apply take_ge. lia. }
  exists v. rewrite Hslice. split; [reflexivity|]. split; [exact Hv|]. split.
  - apply Forall_app. split; [exact Hemb|].
    apply Forall_replicate. split; reflexivity.
  - intros Hdigest i x Hi Hx.
    assert (H4 : (n + 4 - 1) / 4 < 5).
    { apply Z.div_lt_upper_bound; unfold n; lia. }
    unfold v in Hx. rewrite lookup_app_r in Hx by (simpl in Hlen; lia).
    apply lookup_replicate in Hx as [-> _]. reflexivity.
Qed.
End MockEmbeddingsService.

Import more_fixtures.

(** A dimension of six. *)
Lemma mock_encode_text_spec_witness :
  exists v,
    mock_embeddings.encode_text fx_md5_digest fx_unpack_f 6 7 "hello" = Some (Ret v)
    /\ length v = Z.to_nat 6
    /\ Forall (fun x => (-1 <=? x)%float = true /\ (x <=? 1)%float = true) v
    /\ (length (fx_md5_digest "hello") = 16%nat ->
        forall i x, (4 <= i)%nat -> v !! i = Some x -> x = 0%float).
Proof.
  apply (mock_encode_text_spec fx_md5_digest fx_unpack_f 6 7 "hello").
  simpl. lia.
Defined.

Example mock_encode_text_example :
  mock_embeddings.encode_text fx_md5_digest fx_unpack_f 6 7 "hello"
  = Some (Ret [0.5; 0.5; 0.5; 0.5; 0; 0]%float)
  /\ mock_embeddings.encode_text fx_md5_digest fx_unpack_f 2 3 "hello"
     = Some (Ret [0.5; 0.5]%float)
  /\ mock_embeddings.encode_text fx_md5_digest fx_unpack_f (-1) 1 "hello"
     = Some (Ret []).
Proof. repeat split; vm_compute; reflexivity. Qed.

End embeddings_more_spec.

(* ===================================================================== *)
(** * The chunker: break points, and the texts it can chunk *)
(* ===================================================================== *)

Module chunker_more_spec.
Import Py PyFacts pdf_processor break_points chunker.

Lemma range_down_nil (hi lo : Z) : hi <= lo -> range_down hi lo = [].
Proof. intros H. unfold range_down. now replace (Z.to_nat (hi - lo)) with O by lia. Qed.

Lemma range_down_cons (hi lo : Z) :
  lo < hi -> range_down hi lo = hi :: range_down (hi - 1) lo.
Proof.
  intros H. unfold range_down.
  replace (Z.to_nat (hi - lo)) with (S (Z.to_nat (hi - 1 - lo))) by lia.
  simpl. f_equal; [lia|].
  rewrite <- seq_shift, map_map. apply map_ext. intros k. lia.
Qed.

(** A scan downwards whose body never raises either finds nothing
    anywhere, or returns what the body returns at the highest position
    where it returns something. *)
Lemma for_return_range_down {A} (body : Z -> res (option A)) (lo : Z) (n : nat) :
  forall hi,
    Z.to_nat (hi - lo) = n ->
    (forall i, lo < i <= hi -> exists o, body i = Ret o) ->
    (for_return body (range_down hi lo) = Ret None
     /\ forall i, lo < i <= hi -> body i = Ret None)
    \/ exists i a,
         lo < i <= hi /\ body i = Ret (Some a)
         /\ for_return body (range_down hi lo) = Ret (Some a)
         /\ forall j, i < j <= hi -> body j = Ret None.
Proof.
  induction n as [|n IH]; intros hi Hn Hbody.
  - rewrite range_down_nil by lia. left. split; [reflexivity|]. intros i Hi. lia.
  - rewrite range_down_cons by lia. simpl.
    destruct (Hbody hi) as ([a|] & Hhi); [lia | |]; rewrite Hhi.
    + right. exists hi, a. repeat split; try lia; try assumption.
    + destruct (IH (hi - 1)) as [[Hnone Hall]|(i & a & Hi & Hfound & Hret & Hlast)];
        [lia | intros i Hi; apply Hbody; lia | |].
      * left. split; [exact Hnone|]. intros i Hi.
        destruct (Z.eq_dec i hi) as [->|]; [exact Hhi | apply Hall; lia].
      * right. exists i, a. repeat split; try lia; try assumption.
        intros j Hj. destruct (Z.eq_dec j hi) as [->|]; [exact Hhi | apply Hlast; lia].
Qed.

Section BreakPoint.
Variables (text : string) (start end_ : Z).
Hypothesis Hstart : 0 <= start.
Hypothesis Hend : end_ <= len text.

Lemma paragraph_at_returns (i : Z) : exists o, paragraph_at text i = Ret o.
Proof. unfold paragraph_at. destruct (String.eqb _ _); eauto. Qed.

Lemma sentence_end_at_returns (i : Z) :
  start <= i < end_ -> exists o, sentence_end_at text i = Ret o.
Proof.
  intros Hi. unfold sentence_end_at.
  destruct (getitem_in_range text i) as (c & -> & _); [lia|]. simpl.
  destruct (char_in c ".!?" && (i + 1 <? len text)) eqn:E; [|eauto].
  apply andb_true_iff in E as [_ E%Z.ltb_lt].
  destruct (getitem_in_range text (i + 1)) as (c' & -> & _); [lia|]. simpl.
  destruct (isspace c'); eauto.
Qed.

Lemma word_boundary_at_returns (i : Z) :
  start <= i < end_ -> exists o, word_boundary_at text i = Ret o.
Proof.
  intros Hi. unfold word_boundary_at.
  destruct (getitem_in_range text i) as (c & -> & _); [lia|]. simpl.
  destruct (isspace c); eauto.
Qed.

Lemma scan_window (test : Z -> res (option Z)) :
  (forall i, start <= i < end_ -> exists o, test i = Ret o) ->
  (for_return test (range_down (end_ - 1) (start - 1)) = Ret None
   /\ no_hit start end_ test)
  \/ exists bp, for_return test (range_down (end_ - 1) (start - 1)) = Ret (Some bp)
                /\ last_hit start end_ test bp.
Proof.
  intros Htest.
  destruct (for_return_range_down test (start - 1) (Z.to_nat (end_ - 1 - (start - 1)))
              (end_ - 1) eq_refl) as [[Hnone Hall]|(i & bp & Hi & Hfound & Hret & Hlast)].
  - intros i Hi. apply Htest. lia.
  - left. split; [exact Hnone|]. intros j Hj. apply Hall. lia.
  - right. exists bp. split; [exact Hret|]. exists i. repeat split; try lia; try assumption.
    intros j Hj. apply Hlast. lia.
Qed.

(** X19.  Inside the text ([0 <= start], [end <= len(text)])
    [_find_break_point] never raises, and what it returns is decided in
    this order: the position after the last paragraph break that starts in
    the window [start, end); failing that, the position after the last
    sentence end (one of [.!?] followed by whitespace) in the window;
    failing that, the position after the last whitespace character in the
    window; failing that, [end].  The result is [end] or lies in
    (start, end + 1]: a paragraph break that starts at the last position
    of the window puts the break point one past [end]. *)
Theorem find_break_point_spec :
  exists bp,
    _find_break_point text start end_ = Ret bp
    /\ (last_hit start end_ (paragraph_at text) bp
        \/ (no_hit start end_ (paragraph_at text)
            /\ (last_hit start end_ (sentence_end_at text) bp
                \/ (no_hit start end_ (sentence_end_at text)
                    /\ (last_hit start end_ (word_boundary_at text) bp
                        \/ (no_hit start end_ (word_boundary_at text)
                            /\ bp = end_))))))
    /\ (bp = end_ \/ start < bp <= end_ + 1).
Proof.
  unfold _find_break_point.
  destruct (scan_window (paragraph_at text)) as [[-> Hp]|(bp & -> & Hp)];
    [intros; apply paragraph_at_returns | | ]; simpl.
  2:{ exists bp. split; [reflexivity|]. split; [now left|].
      destruct Hp as (i & Hi & Hbp & _). unfold paragraph_at in Hbp.
      destruct (String.eqb _ _); [|discriminate]. injection Hbp as <-. lia. }
  destruct (scan_window (sentence_end_at text)) as [[-> Hs]|(bp & -> & Hs)];
    [apply sentence_end_at_returns | | ]; simpl.
  2:{ exists bp. split; [reflexivity|]. split; [right; split; [exact Hp | now left]|].
      destruct Hs as (i & Hi & Hbp & _). unfold sentence_end_at in Hbp.
      destruct (getitem text i) as [c|]; simpl in Hbp; [|discriminate].
      destruct (char_in c ".!?" && (i + 1 <? len text)); [|discriminate].
      destruct (getitem text (i + 1)) as [c'|]; simpl in Hbp; [|discriminate].
      destruct (isspace c'); [|discriminate]. injection Hbp as <-. lia. }
  destruct (scan_window (word_boundary_at text)) as [[-> Hw]|(bp & -> & Hw)];
    [apply word_boundary_at_returns | | ]; simpl.
  2:{ exists bp. split; [reflexivity|].
      split; [right; split; [exact Hp|]; right; split; [exact Hs | now left]|].
      destruct Hw as (i & Hi & Hbp & _). unfold word_boundary_at in Hbp.
      destruct (getitem text i) as [c|]; simpl in Hbp; [|discriminate].
      destruct (isspace c); [|discriminate]. injection Hbp as <-. lia. }
  exists end_. split; [reflexivity|]. split; [|now left].
  right. split; [exact Hp|]. right. split; [exact Hs|]. right. now split.
Qed.
End BreakPoint.

(** X20.  With [0 <= chunk_overlap < chunk_size], [chunk_text] returns a
    list exactly for the texts whose stripped form fits in one window:
    the stripped text alone when it reaches [min_chunk_size], the empty
    list when it is shorter or blank.  On every longer text it raises
    [TypeError], so no call ever returns more than one chunk. *)
Theorem chunk_text_single_window (self : PDFProcessor) (text : string) (fuel : nat) :
  0 <= chunk_overlap self < chunk_size self ->
  fuel <> O ->
  ((exists chunks, chunk_text fuel self text = Some (Ret chunks))
   <-> len (strip text) <= chunk_size self)
  /\ (len (strip text) <= chunk_size self ->
      chunk_text fuel self text
      = Some (Ret (if truthy (strip text) && (len (strip text) >=? min_chunk_size self)
                   then [strip text] else [])))
  /\ (chunk_size self < len (strip text) ->
      chunk_text fuel self text = Some (Raise TypeError))
  /\ forall chunks,
       chunk_text fuel self text = Some (Ret chunks) ->
       chunks = [] \/ chunks = [strip text].
Proof.
  intros Hov Hfuel. destruct fuel as [|fuel]; [congruence|].
  destruct (Z.le_gt_cases (len (strip text)) (chunk_size self)) as [Hfit|Hlong].
  - rewrite (chunk_text_short self text (S fuel) Hfit).
    split; [split; [auto | eauto]|]. split; [auto|]. split; [lia|].
    intros chunks [= <-]. destruct (_ && _); auto.
  - rewrite (chunk_text_TypeError self text fuel Hov Hlong).
    split; [split; [intros [chunks H]; discriminate | lia]|].
    split; [lia|]. split; [auto|]. intros chunks H. discriminate.
Qed.

(** A ten-character text in windows of ten, and the same text with one
    more character. *)
Lemma chunk_text_single_window_witness :
  let self := {| chunk_size := 10; chunk_overlap := 2; min_chunk_size := 1 |} in
  ((exists chunks, chunk_text 1 self "  0123456789 " = Some (Ret chunks))
   <-> len (strip "  0123456789 ") <= chunk_size self)
  /\ (len (strip "  0123456789 ") <= chunk_size self ->
      chunk_text 1 self "  0123456789 "
      = Some (Ret (if truthy (strip "  0123456789 ")
                      && (len (strip "  0123456789 ") >=? min_chunk_size self)
                   then [strip "  0123456789 "] else [])))
  /\ (chunk_size self < len (strip "  0123456789 ") ->
      chunk_text 1 self "  0123456789 " = Some (Raise TypeError))
  /\ forall chunks,
       chunk_text 1 self "  0123456789 " = Some (Ret chunks) ->
       chunks = [] \/ chunks = [strip "  0123456789 "].
Proof.
  apply (chunk_text_single_window
           {| chunk_size := 10; chunk_overlap := 2; min_chunk_size := 1 |}
           "  0123456789 " 1).
  - simpl. lia.
  - discriminate.
Defined.

Example chunk_text_one_window :
  chunk_text 1 {| chunk_size := 10; chunk_overlap := 2; min_chunk_size := 1 |}
    "  0123456789 " = Some (Ret ["0123456789"])
  /\ chunk_text 1 {| chunk_size := 10; chunk_overlap := 2; min_chunk_size := 1 |}
       "  0123456789a " = Some (Raise TypeError)
  /\ chunk_text 1 {| chunk_size := 10; chunk_overlap := 2; min_chunk_size := 11 |}
       "  0123456789 " = Some (Ret []).
Proof. repeat split; vm_compute; reflexivity. Qed.

(** Break points in ["ab. cd" + two newlines + "ef gh"]: after the
    paragraph break when the window holds it, after the sentence end when
    it does not, after a blank, and at the window end inside a word. *)
Example find_break_point_examples :
  let text := ("ab. cd" ++ paragraph_break ++ "ef gh")%string in
  _find_break_point text 0 12 = Ret 8
  /\ _find_break_point text 0 6 = Ret 3
  /\ _find_break_point text 8 12 = Ret 11
  /\ _find_break_point text 4 6 = Ret 6
  /\ _find_break_point text 0 7 = Ret 8.
Proof. repeat split; vm_compute; reflexivity. Qed.

(** A window that holds a sentence end and no paragraph break. *)
Lemma find_break_point_spec_witness :
  exists bp,
    _find_break_point "ab. cd ef" 0 6 = Ret bp
    /\ (last_hit 0 6 (paragraph_at "ab. cd ef") bp
        \/ (no_hit 0 6 (paragraph_at "ab. cd ef")
            /\ (last_hit 0 6 (sentence_end_at "ab. cd ef") bp
                \/ (no_hit 0 6 (sentence_end_at "ab. cd ef")
                    /\ (last_hit 0 6 (word_boundary_at "ab. cd ef") bp
                        \/ (no_hit 0 6 (word_boundary_at "ab. cd ef")
                            /\ bp = 6))))))
    /\ (bp = 6 \/ 0 < bp <= 6 + 1).
Proof.
  apply (find_break_point_spec "ab. cd ef" 0 6).
  - lia.
  - vm_compute. discriminate.
Defined.

End chunker_more_spec.
